(** * A queue on a conditional-write key-value store

    Shallow embedding of the queue client of this repository:

    - [Dynamo]: the part of the backing store the client relies on (point
      reads, puts, deletes, conditional updates, paginated index queries),
      as a state-and-error monad over a table and a log of store calls;
    - [Legacy]: package [sdk] (sdk/sdk.go), the client over [Shipment]
      records with the numeric [queued]/[DLQ] index flags;
    - [MQ]: the [Message] client of package [dynamomq]
      ([SendMessage], [ReceiveMessage], ...), whose tests and callers are in
      the repository.

    Time is an integer count of milliseconds since the Unix epoch. *)

From Stdlib Require Import ZArith List String Bool Lia Arith Sorted.
Import ListNotations.

Local Open Scope string_scope.
Local Open Scope Z_scope.

(** ** Instants and formatted timestamps *)

Definition Time := Z.

(** Modelled from the spec: package [internal/clock] is not in the sources.
    A timestamp attribute is an RFC3339 string produced by
    [clock.FormatRFC3339]; it is kept here as the instant it was formatted
    from, and the empty string as [None].  Fixed-width UTC formatting makes
    the order of the strings the order of the instants, which is all an
    index sort key is used for. *)
Definition Timestamp := option Time.

Definition FormatRFC3339 (now : Time) : Timestamp := Some now.

(** ** Errors of the client (the error taxonomy of the package) *)

Inductive Error : Type :=
| IDNotProvidedError
| IDNotFoundError
| IDDuplicatedError
| EmptyQueueError
| RecordNotConstructedError
| IllegalStateError
| InvalidStateTransitionError
| ConditionalCheckFailedError
| BuildingExpressionError
| DynamoDBAPIError
| NilPointerPanic      (* a method called through a nil record pointer *)
| OutOfFuel.           (* a page loop out of iterations *)

Inductive Result (A : Type) : Type :=
| Ok (a : A)
| Err (e : Error).
Arguments Ok {A} a.
Arguments Err {A} e.

(** * The store *)

Module Dynamo.

(** Attribute values as written by [expression.Value]. *)
Inductive Value : Type :=
| VNum (n : Z)
| VStr (s : string)
| VBool (b : bool)
| VTime (t : Timestamp).

Definition Timestamp_eqb (a b : Timestamp) : bool :=
  match a, b with
  | Some x, Some y => x =? y
  | None, None => true
  | _, _ => false
  end.

Definition Value_eqb (a b : Value) : bool :=
  match a, b with
  | VNum x, VNum y => x =? y
  | VStr x, VStr y => String.eqb x y
  | VBool x, VBool y => Bool.eqb x y
  | VTime x, VTime y => Timestamp_eqb x y
  | _, _ => false
  end.

(** Update expression clauses: [expression.Add], [.Set], [.Remove]. *)
Inductive Operation : Type :=
| OpAdd (name : string) (v : Value)
| OpSet (name : string) (v : Value)
| OpRemove (name : string).

(** Condition expressions: [Name(n).Equal(Value(v))], [expression.And],
    and [attribute_not_exists]. *)
Inductive ConditionB : Type :=
| Equal (name : string) (v : Value)
| And (a b : ConditionB)
| AttributeNotExists (name : string).

Definition operationName (op : Operation) : string :=
  match op with
  | OpAdd name _ | OpSet name _ | OpRemove name => name
  end.

Record Expression : Type := mkExpression {
  Update : list Operation;
  Condition : option ConditionB
}.

(** What the store needs to know about a record type: its primary key, its
    attributes by (dotted) name, and its entry in each secondary index.  An
    attribute tagged [omitempty] that holds its zero value is absent. *)
Class Schema (Item : Type) : Type := {
  itemKey : Item -> string;
  keyOnly : string -> Item;
  getAttr : string -> Item -> option Value;
  setAttr : string -> Value -> Item -> option Item;
  removeAttr : string -> Item -> option Item;
  (* partition-key value and sort key of the item in the named index, if
     the item carries both key attributes *)
  indexEntry : string -> Item -> option (Value * Time)
}.

(** Exceptions raised by the store itself. *)
Inductive StoreException : Type :=
| ConditionalCheckFailedException
| ValidationException.

Inductive Call : Type :=
| CGetItem (id : string)
| CPutItem (id : string) (cond : option ConditionB)
| CDeleteItem (id : string)
| CUpdateItem (id : string) (e : Expression)
| CQuery (index : string) (exclusiveStartKey : option nat).

Definition isWrite (c : Call) : bool :=
  match c with
  | CPutItem _ _ | CDeleteItem _ | CUpdateItem _ _ => true
  | CGetItem _ | CQuery _ _ => false
  end.

Section Store.
Context {Item : Type} `{Schema Item}.

Definition Table := list Item.

Record Store : Type := mkStore {
  items : Table;
  calls : list Call        (* store calls issued so far, oldest first *)
}.

Definition lookupItem (id : string) (t : Table) : option Item :=
  find (fun it => String.eqb (itemKey it) id) t.

Fixpoint replaceItem (new : Item) (t : Table) : Table :=
  match t with
  | [] => [new]
  | it :: t' =>
      if String.eqb (itemKey it) (itemKey new) then new :: t'
      else it :: replaceItem new t'
  end.

Definition removeItem (id : string) (t : Table) : Table :=
  filter (fun it => negb (String.eqb (itemKey it) id)) t.

Fixpoint holds (c : ConditionB) (stored : option Item) : bool :=
  match c with
  | Equal name v =>
      match stored with
      | Some it =>
          match getAttr name it with
          | Some w => Value_eqb w v
          | None => false
          end
      | None => false
      end
  | And a b => holds a stored && holds b stored
  | AttributeNotExists name =>
      match stored with
      | Some it =>
          match getAttr name it with
          | Some _ => false
          | None => true
          end
      | None => true
      end
  end.

Definition holdsOpt (c : option ConditionB) (stored : option Item) : bool :=
  match c with
  | Some c => holds c stored
  | None => true
  end.

Definition applyOperation (op : Operation) (it : Item) : option Item :=
  match op with
  | OpSet name v => setAttr name v it
  | OpRemove name => removeAttr name it
  | OpAdd name v =>
      match v, getAttr name it with
      | VNum n, Some (VNum m) => setAttr name (VNum (m + n)) it
      | VNum n, None => setAttr name (VNum n) it
      | _, _ => None
      end
  end.

Fixpoint applyUpdate (ops : list Operation) (it : Item) : option Item :=
  match ops with
  | [] => Some it
  | op :: ops' =>
      match applyOperation op it with
      | Some it' => applyUpdate ops' it'
      | None => None
      end
  end.

(** The effect of one [UpdateItem] on a table: the condition is evaluated
    on the stored item (or on its absence); the update is applied to the
    stored item, or to a fresh item holding only the key. *)
Definition updateTable (id : string) (e : Expression) (t : Table)
  : StoreException + (Item * Table) :=
  let stored := lookupItem id t in
  if holdsOpt (Condition e) stored then
    let base := match stored with Some it => it | None => keyOnly id end in
    match applyUpdate (Update e) base with
    | Some new => inr (new, replaceItem new t)
    | None => inl ValidationException
    end
  else inl ConditionalCheckFailedException.

(** Index contents in index order: ascending sort key; items with equal
    sort keys keep their table order (the store leaves that order
    unspecified). *)
Definition inPartition (index : string) (pk : Value) (it : Item) : bool :=
  match indexEntry index it with
  | Some (v, _) => Value_eqb v pk
  | None => false
  end.

Definition sortKey (index : string) (it : Item) : Time :=
  match indexEntry index it with
  | Some (_, k) => k
  | None => 0
  end.

Fixpoint insertByKey (index : string) (it : Item) (l : list Item) : list Item :=
  match l with
  | [] => [it]
  | x :: l' =>
      if sortKey index it <=? sortKey index x then it :: l
      else x :: insertByKey index it l'
  end.

Fixpoint sortByKey (index : string) (l : list Item) : list Item :=
  match l with
  | [] => []
  | x :: l' => insertByKey index x (sortByKey index l')
  end.

Definition indexItems (index : string) (pk : Value) (t : Table) : list Item :=
  sortByKey index (filter (inPartition index pk) t).

Record QueryOutput : Type := mkQueryOutput {
  Items : list Item;
  LastEvaluatedKey : option nat
}.

(** One page of a forward query.  The exclusive start key is kept as the
    position in the index after which the page starts; the store returns a
    resume key whenever the page was cut by [limit]. *)
Definition queryPage (index : string) (pk : Value) (limit : nat)
    (exclusiveStartKey : option nat) (t : Table) : QueryOutput :=
  let start := match exclusiveStartKey with Some k => k | None => 0%nat end in
  let rest := skipn start (indexItems index pk t) in
  {| Items := firstn limit rest;
     LastEvaluatedKey :=
       if (limit <=? List.length rest)%nat then Some (start + limit)%nat else None |}.

(** *** The monad of client code: a store threaded through, typed errors *)

Definition M (A : Type) : Type := Store -> Result A * Store.

Definition ret {A} (a : A) : M A := fun st => (Ok a, st).
Definition fail {A} (e : Error) : M A := fun st => (Err e, st).
Definition bind {A B} (m : M A) (k : A -> M B) : M B :=
  fun st =>
    match m st with
    | (Ok a, st') => k a st'
    | (Err e, st') => (Err e, st')
    end.

Definition logCall (c : Call) (st : Store) : Store :=
  {| items := items st; calls := calls st ++ [c] |}.

(** Raw store calls: they return the store's own exception or a value. *)
Definition RawCall (A : Type) : Type := Store -> (StoreException + A) * Store.

Definition GetItem (id : string) : RawCall (option Item) :=
  fun st => (inr (lookupItem id (items st)), logCall (CGetItem id) st).

Definition PutItem (it : Item) (cond : option ConditionB) : RawCall unit :=
  fun st =>
    let st' := logCall (CPutItem (itemKey it) cond) st in
    if holdsOpt cond (lookupItem (itemKey it) (items st)) then
      (inr tt, {| items := replaceItem it (items st); calls := calls st' |})
    else (inl ConditionalCheckFailedException, st').

Definition DeleteItem (id : string) : RawCall unit :=
  fun st =>
    (inr tt, {| items := removeItem id (items st);
                calls := calls st ++ [CDeleteItem id] |}).

(** [UpdateItem] with [ReturnValues: ALL_NEW]. *)
Definition UpdateItem (id : string) (e : Expression) : RawCall Item :=
  fun st =>
    let st' := logCall (CUpdateItem id e) st in
    match updateTable id e (items st) with
    | inr (new, t') => (inr new, {| items := t'; calls := calls st' |})
    | inl exn => (inl exn, st')
    end.

Definition Query (index : string) (pk : Value) (limit : nat)
    (exclusiveStartKey : option nat) : RawCall QueryOutput :=
  fun st =>
    (inr (queryPage index pk limit exclusiveStartKey (items st)),
     logCall (CQuery index exclusiveStartKey) st).

(** [handleDynamoDBError] (sdk.go) *)
Definition handleDynamoDBError (err : StoreException) : Error :=
  match err with
  | ConditionalCheckFailedException => ConditionalCheckFailedError
  | _ => DynamoDBAPIError
  end.

(** [x, err := c.dynamoDB.F(...); if err != nil { return nil,
    handleDynamoDBError(err) }] *)
Definition dynamoDB {A} (call : RawCall A) : M A :=
  fun st =>
    match call st with
    | (inr a, st') => (Ok a, st')
    | (inl exn, st') => (Err (handleDynamoDBError exn), st')
    end.

(** Running an operation on a table, from an empty call log. *)
Definition exec {A} (m : M A) (t : Table) : Result A * Store :=
  m {| items := t; calls := [] |}.

(** [result, err := m]: a caller that looks at the error and goes on. *)
Definition attempt {A} (m : M A) : M (Result A) :=
  fun st => let (r, st') := m st in (Ok r, st').

(** ** Notions used to state properties of runs *)

(** Primary keys are unique in a table. *)
Definition keysDistinct (t : Table) : Prop := NoDup (map itemKey t).

(** A list already in ascending sort-key order. *)
Definition keyOrdered (index : string) (l : list Item) : Prop :=
  Sorted (fun a b => sortKey index a <= sortKey index b) l.

(** The position a page starts at. *)
Definition startOf (exclusiveStartKey : option nat) : nat :=
  match exclusiveStartKey with
  | Some k => k
  | None => 0%nat
  end.

(** [steps m T r T']: from any store holding table [T], whatever its call
    log, [m] ends with result [r] and table [T']. *)
Definition steps {A} (m : M A) (T : Table) (r : Result A)
    (T' : Table) : Prop :=
  forall log, exists log',
    m {| items := T; calls := log |} = (r, {| items := T'; calls := log' |}).

(** [readSteps m T r]: from any store holding table [T], [m] ends with
    result [r], leaves the table as it is and issues no write. *)
Definition readSteps {A} (m : M A) (T : Table) (r : Result A) : Prop :=
  forall log, exists ext,
    m {| items := T; calls := log |} =
      (r, {| items := T; calls := (log ++ ext)%list |}) /\
    Forall (fun c => isWrite c = false) ext.

End Store.

Arguments Table : clear implicits.
Arguments Store : clear implicits.
Arguments QueryOutput : clear implicits.
Arguments M : clear implicits.
Arguments RawCall : clear implicits.

End Dynamo.

Export Dynamo.

Declare Scope client_scope.
Notation "x <- m ;; k" := (bind m (fun x => k))
  (at level 61, m at next level, right associativity) : client_scope.
Notation "m ;;; k" := (bind m (fun _ => k))
  (at level 61, right associativity) : client_scope.
Local Open Scope client_scope.

(** * Package [sdk]: the client over [Shipment] records (sdk/sdk.go) *)

Module Legacy.

Definition Status := string.

(** Modelled from the spec: the [Status] constants are declared outside the
    sources; the names are those the spec lists for this generation of the
    API ([UNDER_CONSTRUCTION], [READY_TO_SHIP]) and its [PROCESSING]. *)
Definition StatusUnderConstruction : Status := "UNDER_CONSTRUCTION".
Definition StatusReadyToShip : Status := "READY_TO_SHIP".
Definition StatusProcessing : Status := "PROCESSING".

Definition QueueingIndexName := "queueud-last_updated_timestamp-index".
Definition DlqQueueingIndexName := "dlq-last_updated_timestamp-index".
Definition DefaultVisibilityTimeoutInMinutes : Z := 1.

(** [type SystemInfo struct] *)
Module SystemInfo.
Record t : Type := mk {
  ID : string;
  CreationTimestamp : Timestamp;
  LastUpdatedTimestamp : Timestamp;
  Status : Status;
  Version : Z;
  InQueue : Z;
  SelectedFromQueue : bool;
  AddToQueueTimestamp : Timestamp;
  AddToDlqTimestamp : Timestamp;
  PeekFromQueueTimestamp : Timestamp;
  RemoveFromQueueTimestamp : Timestamp;
  PeekUTCTimestamp : Z
}.
End SystemInfo.

(** The payload built by [newTestShipmentData]. *)
Module ShipmentItem.
Record t : Type := mk { SKU : string; Packed : bool }.
End ShipmentItem.

Module ShipmentData.
Record t : Type := mk {
  ID : string;
  Data1 : string;
  Data2 : string;
  Data3 : string;
  Items : list ShipmentItem.t
}.
End ShipmentData.

(** Modelled from the spec: [type Shipment struct] is declared outside the
    sources.  The fields are the attributes sdk.go reads and writes: the key
    [id], the payload [data], the nested [system_info], and the three
    top-level index attributes [queued], [last_updated_timestamp] and [DLQ]
    (the key schema of [setupDynamoDB] in sdk_test.go), which are omitted
    from the stored item when zero or empty. *)
Module Shipment.
Record t : Type := mk {
  ID : string;
  Data : option ShipmentData.t;
  SystemInfo : SystemInfo.t;
  Queued : Z;
  LastUpdatedTimestamp : Timestamp;
  DLQ : Z
}.
End Shipment.

Definition withSystemInfo (f : SystemInfo.t -> SystemInfo.t) (s : Shipment.t)
  : Shipment.t :=
  Shipment.mk (Shipment.ID s) (Shipment.Data s) (f (Shipment.SystemInfo s))
    (Shipment.Queued s) (Shipment.LastUpdatedTimestamp s) (Shipment.DLQ s).

Definition omitZero (n : Z) : option Value :=
  if n =? 0 then None else Some (VNum n).

Definition getShipmentAttr (name : string) (s : Shipment.t) : option Value :=
  let i := Shipment.SystemInfo s in
  if String.eqb name "id" then Some (VStr (Shipment.ID s))
  else if String.eqb name "queued" then omitZero (Shipment.Queued s)
  else if String.eqb name "DLQ" then omitZero (Shipment.DLQ s)
  else if String.eqb name "last_updated_timestamp" then
    match Shipment.LastUpdatedTimestamp s with
    | Some t => Some (VTime (Some t))
    | None => None
    end
  else if String.eqb name "system_info.id" then Some (VStr (SystemInfo.ID i))
  else if String.eqb name "system_info.creation_timestamp" then
    Some (VTime (SystemInfo.CreationTimestamp i))
  else if String.eqb name "system_info.last_updated_timestamp" then
    Some (VTime (SystemInfo.LastUpdatedTimestamp i))
  else if String.eqb name "system_info.status" then
    Some (VStr (SystemInfo.Status i))
  else if String.eqb name "system_info.version" then
    Some (VNum (SystemInfo.Version i))
  else if String.eqb name "system_info.queued" then
    Some (VNum (SystemInfo.InQueue i))
  else if String.eqb name "system_info.queue_selected" then
    Some (VBool (SystemInfo.SelectedFromQueue i))
  else if String.eqb name "system_info.queue_add_timestamp" then
    Some (VTime (SystemInfo.AddToQueueTimestamp i))
  else if String.eqb name "system_info.dlq_add_timestamp" then
    Some (VTime (SystemInfo.AddToDlqTimestamp i))
  else if String.eqb name "system_info.queue_peek_timestamp" then
    Some (VTime (SystemInfo.PeekFromQueueTimestamp i))
  else if String.eqb name "system_info.queue_remove_timestamp" then
    Some (VTime (SystemInfo.RemoveFromQueueTimestamp i))
  else if String.eqb name "system_info.peek_utc_timestamp" then
    omitZero (SystemInfo.PeekUTCTimestamp i)
  else None.

Definition setSystemInfoAttr (name : string) (v : Value) (i : SystemInfo.t)
  : option SystemInfo.t :=
  let '(SystemInfo.mk id cr lu st ve inq sel addq adddlq peek rem utc) := i in
  if String.eqb name "system_info.id" then
    match v with
    | VStr x => Some (SystemInfo.mk x cr lu st ve inq sel addq adddlq peek rem utc)
    | _ => None
    end
  else if String.eqb name "system_info.creation_timestamp" then
    match v with
    | VTime x => Some (SystemInfo.mk id x lu st ve inq sel addq adddlq peek rem utc)
    | _ => None
    end
  else if String.eqb name "system_info.last_updated_timestamp" then
    match v with
    | VTime x => Some (SystemInfo.mk id cr x st ve inq sel addq adddlq peek rem utc)
    | _ => None
    end
  else if String.eqb name "system_info.status" then
    match v with
    | VStr x => Some (SystemInfo.mk id cr lu x ve inq sel addq adddlq peek rem utc)
    | _ => None
    end
  else if String.eqb name "system_info.version" then
    match v with
    | VNum x => Some (SystemInfo.mk id cr lu st x inq sel addq adddlq peek rem utc)
    | _ => None
    end
  else if String.eqb name "system_info.queued" then
    match v with
    | VNum x => Some (SystemInfo.mk id cr lu st ve x sel addq adddlq peek rem utc)
    | _ => None
    end
  else if String.eqb name "system_info.queue_selected" then
    match v with
    | VBool x => Some (SystemInfo.mk id cr lu st ve inq x addq adddlq peek rem utc)
    | _ => None
    end
  else if String.eqb name "system_info.queue_add_timestamp" then
    match v with
    | VTime x => Some (SystemInfo.mk id cr lu st ve inq sel x adddlq peek rem utc)
    | _ => None
    end
  else if String.eqb name "system_info.dlq_add_timestamp" then
    match v with
    | VTime x => Some (SystemInfo.mk id cr lu st ve inq sel addq x peek rem utc)
    | _ => None
    end
  else if String.eqb name "system_info.queue_peek_timestamp" then
    match v with
    | VTime x => Some (SystemInfo.mk id cr lu st ve inq sel addq adddlq x rem utc)
    | _ => None
    end
  else if String.eqb name "system_info.queue_remove_timestamp" then
    match v with
    | VTime x => Some (SystemInfo.mk id cr lu st ve inq sel addq adddlq peek x utc)
    | _ => None
    end
  else if String.eqb name "system_info.peek_utc_timestamp" then
    match v with
    | VNum x => Some (SystemInfo.mk id cr lu st ve inq sel addq adddlq peek rem x)
    | _ => None
    end
  else None.

Definition setShipmentAttr (name : string) (v : Value) (s : Shipment.t)
  : option Shipment.t :=
  let '(Shipment.mk id data info queued lut dlq) := s in
  if String.eqb name "queued" then
    match v with
    | VNum x => Some (Shipment.mk id data info x lut dlq)
    | _ => None
    end
  else if String.eqb name "DLQ" then
    match v with
    | VNum x => Some (Shipment.mk id data info queued lut x)
    | _ => None
    end
  else if String.eqb name "last_updated_timestamp" then
    match v with
    | VTime x => Some (Shipment.mk id data info queued x dlq)
    | _ => None
    end
  else
    match setSystemInfoAttr name v info with
    | Some info' => Some (Shipment.mk id data info' queued lut dlq)
    | None => None
    end.

(** [REMOVE] of a top-level index attribute; removing any other name is not
    used by the client and is rejected. *)
Definition removeShipmentAttr (name : string) (s : Shipment.t)
  : option Shipment.t :=
  let '(Shipment.mk id data info queued lut dlq) := s in
  if String.eqb name "queued" then Some (Shipment.mk id data info 0 lut dlq)
  else if String.eqb name "DLQ" then Some (Shipment.mk id data info queued lut 0)
  else if String.eqb name "last_updated_timestamp" then
    Some (Shipment.mk id data info queued None dlq)
  else None.

(** The two secondary indexes of the table ([setupDynamoDB], sdk_test.go):
    partition key [queued] (resp. [DLQ]), sort key the top-level
    [last_updated_timestamp]. *)
Definition shipmentIndexEntry (index : string) (s : Shipment.t)
  : option (Value * Time) :=
  let flag :=
    if String.eqb index QueueingIndexName then Shipment.Queued s
    else if String.eqb index DlqQueueingIndexName then Shipment.DLQ s
    else 0 in
  if flag =? 0 then None
  else match Shipment.LastUpdatedTimestamp s with
       | Some t => Some (VNum flag, t)
       | None => None
       end.

Definition emptySystemInfo : SystemInfo.t :=
  SystemInfo.mk EmptyString None None EmptyString 0 0 false None None None None 0.

#[global] Instance ShipmentSchema : Schema Shipment.t := {
  itemKey := Shipment.ID;
  keyOnly := fun id => Shipment.mk id None emptySystemInfo 0 None 0;
  getAttr := getShipmentAttr;
  setAttr := setShipmentAttr;
  removeAttr := removeShipmentAttr;
  indexEntry := shipmentIndexEntry
}.

(** ** Record state transitions

    The methods of [*Shipment] are defined outside the sources.  Each
    definition below stamps the fields that the update expression of the
    operation calling it writes, with the values the tests of sdk_test.go
    expect to read back. *)

(** [NewSystemInfoWithID], with the creation instant passed in. *)
Definition NewDefaultSystemInfo (id : string) (now : Time) : SystemInfo.t :=
  let odt := FormatRFC3339 now in
  SystemInfo.mk id odt odt StatusUnderConstruction 1 0 false None None None None 0.

(** Modelled from the spec: [NewDefaultShipment] is not in the sources; a
    new record holds its key, its payload and a fresh [SystemInfo]
    (version 1), and is in no queue. *)
Definition NewDefaultShipment (id : string) (data : option ShipmentData.t)
    (now : Time) : Shipment.t :=
  Shipment.mk id data (NewDefaultSystemInfo id now) 0 None 0.

(** Modelled from the spec: [Shipment.ChangeStatus] is not in the sources;
    it sets the status and stamps both last-updated timestamps (the three
    attributes [UpdateStatus] writes). *)
Definition ChangeStatus (status : Status) (now : Time) (s : Shipment.t)
  : Shipment.t :=
  let ts := FormatRFC3339 now in
  let '(SystemInfo.mk id cr _ _ ve inq sel addq adddlq peek rem utc) :=
    Shipment.SystemInfo s in
  Shipment.mk (Shipment.ID s) (Shipment.Data s)
    (SystemInfo.mk id cr ts status ve inq sel addq adddlq peek rem utc)
    (Shipment.Queued s) ts (Shipment.DLQ s).

(** Modelled from the spec: [Shipment.MarkAsReadyForShipment] is not in the
    sources; status [READY_TO_SHIP], both last-updated timestamps stamped. *)
Definition MarkAsReadyForShipment (now : Time) (s : Shipment.t) : Shipment.t :=
  ChangeStatus StatusReadyToShip now s.

(** Modelled from the spec: [Shipment.MarkAsEnqueued] is not in the sources;
    the record enters the standard queue, ready and not selected, with its
    queue-add timestamp and both last-updated timestamps stamped (the
    attributes [Enqueue] writes; [TestQueueSDKClientEnqueue] expects status
    [READY_TO_SHIP]). *)
Definition MarkAsEnqueued (now : Time) (s : Shipment.t) : Shipment.t :=
  let ts := FormatRFC3339 now in
  let '(SystemInfo.mk id cr _ _ ve _ _ _ adddlq peek rem utc) :=
    Shipment.SystemInfo s in
  Shipment.mk (Shipment.ID s) (Shipment.Data s)
    (SystemInfo.mk id cr ts StatusReadyToShip ve 1 false ts adddlq peek rem utc)
    1 ts (Shipment.DLQ s).

(** Modelled from the spec: [Shipment.MarkAsPeeked] is not in the sources.
    It is [markAsProcessing] of the spec on the fields of this record:
    selected, status [PROCESSING], peek instant recorded, last-updated
    timestamps stamped.  The top-level [LastUpdatedTimestamp] is stamped as
    well: [TestQueueSDKClientPeek] compares the result's timestamp, read
    from [system_info], with the top-level field of the expected record, and
    [TestQueueSDKClientGetQueueStats] finds a record that was only peeked in
    the queue index. *)
Definition MarkAsPeeked (now : Time) (s : Shipment.t) : Shipment.t :=
  let ts := FormatRFC3339 now in
  let unixTime := now in
  let '(SystemInfo.mk id cr _ _ ve _ _ addq adddlq _ rem _) :=
    Shipment.SystemInfo s in
  Shipment.mk (Shipment.ID s) (Shipment.Data s)
    (SystemInfo.mk id cr ts StatusProcessing ve 1 true addq adddlq ts rem unixTime)
    1 ts (Shipment.DLQ s).

(** Modelled from the spec: [Shipment.MarkAsRemoved] is not in the sources;
    the record leaves both queues, with its remove timestamp and both
    last-updated timestamps stamped (the attributes [Remove] writes; the
    status is left as it is, as [TestQueueSDKClientRemove] expects). *)
Definition MarkAsRemoved (now : Time) (s : Shipment.t) : Shipment.t :=
  let ts := FormatRFC3339 now in
  let '(SystemInfo.mk id cr _ st ve _ _ addq adddlq peek _ utc) :=
    Shipment.SystemInfo s in
  Shipment.mk (Shipment.ID s) (Shipment.Data s)
    (SystemInfo.mk id cr ts st ve 0 false addq adddlq peek ts utc)
    0 ts 0.

(** Modelled from the spec: [Shipment.MarkAsDLQ] is not in the sources.  It
    is [markAsMovedToDLQ] of the spec on the fields of this record: the
    record leaves the standard queue and enters the DLQ, ready (not
    selected), with its DLQ-add timestamp and both last-updated timestamps
    stamped (the attributes [SendToDLQ] writes). *)
Definition MarkAsDLQ (now : Time) (s : Shipment.t) : Shipment.t :=
  let ts := FormatRFC3339 now in
  let '(SystemInfo.mk id cr _ _ ve _ _ addq _ peek rem utc) :=
    Shipment.SystemInfo s in
  Shipment.mk (Shipment.ID s) (Shipment.Data s)
    (SystemInfo.mk id cr ts StatusReadyToShip ve 0 false addq ts peek rem utc)
    0 ts 1.

(** Modelled from the spec: [Shipment.Touch] is not in the sources; it
    stamps both last-updated timestamps (the attributes [Touch] writes). *)
Definition TouchShipment (now : Time) (s : Shipment.t) : Shipment.t :=
  let ts := FormatRFC3339 now in
  let '(SystemInfo.mk id cr _ st ve inq sel addq adddlq peek rem utc) :=
    Shipment.SystemInfo s in
  Shipment.mk (Shipment.ID s) (Shipment.Data s)
    (SystemInfo.mk id cr ts st ve inq sel addq adddlq peek rem utc)
    (Shipment.Queued s) ts (Shipment.DLQ s).

(** Modelled from the spec: [Shipment.IsQueueSelected] is not in the
    sources.  The spec's visibility predicate: a record is visible iff it is
    not selected, or [now >= ReceivedAt + VisibilityTimeout]; the record is
    still selected otherwise.  [visibilityTimeout] is in milliseconds. *)
Definition IsQueueSelected (now : Time) (visibilityTimeout : Z)
    (s : Shipment.t) : bool :=
  let i := Shipment.SystemInfo s in
  SystemInfo.SelectedFromQueue i
  && (now <? SystemInfo.PeekUTCTimestamp i + visibilityTimeout).

(** Modelled from the spec: [Shipment.IsRemoved] is not in the sources; a
    record is removed when it is in neither queue, not selected, and carries
    a remove timestamp ([TestQueueSDKClientRemove]: a fresh record is not
    removed, a record after [MarkAsRemoved] is). *)
Definition IsRemoved (s : Shipment.t) : bool :=
  let i := Shipment.SystemInfo s in
  (Shipment.Queued s =? 0) && (Shipment.DLQ s =? 0)
  && (SystemInfo.InQueue i =? 0)
  && negb (SystemInfo.SelectedFromQueue i)
  && negb (Timestamp_eqb (SystemInfo.RemoveFromQueueTimestamp i) None).

(** Modelled from the spec: [Shipment.IsEnqueued] is not in the sources; a
    record is enqueued when it is in the standard queue, ready and not
    selected. *)
Definition IsEnqueued (s : Shipment.t) : bool :=
  let i := Shipment.SystemInfo s in
  (Shipment.Queued s =? 1) && (Shipment.DLQ s =? 0)
  && (SystemInfo.InQueue i =? 1)
  && negb (SystemInfo.SelectedFromQueue i)
  && String.eqb (SystemInfo.Status i) StatusReadyToShip
  && negb (Timestamp_eqb (SystemInfo.AddToQueueTimestamp i) None).

(** Modelled from the spec: [Shipment.IsDLQ] is not in the sources; a record
    is in the DLQ when it carries the [DLQ] index flag and is out of the
    standard queue. *)
Definition IsDLQ (s : Shipment.t) : bool :=
  let i := Shipment.SystemInfo s in
  (Shipment.Queued s =? 0) && (Shipment.DLQ s =? 1)
  && (SystemInfo.InQueue i =? 0)
  && negb (SystemInfo.SelectedFromQueue i).

(** ** The client *)

(** [type queueSDKClient struct]: the configuration the operations read.
    The clock is pinned to one instant for the duration of an operation, as
    the [mockClock] of the tests does. *)
Record queueSDKClient : Type := mkClient {
  tableName : string;
  visibilityTimeoutInMinutes : Z;
  clock : Time
}.

(** [time.Duration(minutes) * time.Minute], in milliseconds. *)
Definition visibilityTimeoutOf (c : queueSDKClient) : Z :=
  visibilityTimeoutInMinutes c * 60000.

(** [type Result struct] (result.go) *)
Module Result.
Record t : Type := mk {
  ID : string;
  Status : Status;
  LastUpdatedTimestamp : Timestamp;
  Version : Z
}.
End Result.

Definition Client := M Shipment.t.

(** [func (c *queueSDKClient) Get] *)
Definition Get (c : queueSDKClient) (id : string) : Client (option Shipment.t) :=
  if String.eqb id EmptyString then fail IDNotProvidedError
  else
    resp <- dynamoDB (GetItem id) ;;
    match resp with
    | None => ret None
    | Some item => ret (Some item)
    end.

(** [func (c *queueSDKClient) put] *)
Definition put (c : queueSDKClient) (shipment : Shipment.t) : Client unit :=
  dynamoDB (PutItem shipment None).

(** [func (c *queueSDKClient) Put] *)
Definition Put (c : queueSDKClient) (shipment : Shipment.t) : Client unit :=
  retrieved <- Get c (Shipment.ID shipment) ;;
  match retrieved with
  | Some _ =>
      dynamoDB (DeleteItem (Shipment.ID shipment)) ;;;
      put c shipment
  | None => put c shipment
  end.

(** [func (c *queueSDKClient) Delete] *)
Definition Delete (c : queueSDKClient) (id : string) : Client unit :=
  if String.eqb id EmptyString then fail IDNotProvidedError
  else dynamoDB (DeleteItem id).

(** [func (c *queueSDKClient) updateDynamoDBItem] *)
Definition updateDynamoDBItem (c : queueSDKClient) (id : string)
    (expr : Expression) : Client Shipment.t :=
  dynamoDB (UpdateItem id expr).

Definition resultOf (id : string) (item : Shipment.t) : Result.t :=
  let i := Shipment.SystemInfo item in
  Result.mk id (SystemInfo.Status i) (SystemInfo.LastUpdatedTimestamp i)
    (SystemInfo.Version i).

(** The expression built by [UpdateStatus], from the record after
    [ChangeStatus]. *)
Definition UpdateStatusExpr (shipment : Shipment.t) : Expression :=
  let i := Shipment.SystemInfo shipment in
  {| Update :=
       [ OpAdd "system_info.version" (VNum 1);
         OpSet "system_info.status" (VStr (SystemInfo.Status i));
         OpSet "system_info.last_updated_timestamp"
           (VTime (SystemInfo.LastUpdatedTimestamp i));
         OpSet "last_updated_timestamp"
           (VTime (Shipment.LastUpdatedTimestamp shipment)) ];
     Condition :=
       Some (Equal "system_info.version" (VNum (SystemInfo.Version i))) |}.

(** [func (c *queueSDKClient) UpdateStatus] *)
Definition UpdateStatus (c : queueSDKClient) (id : string) (newStatus : Status)
  : Client Result.t :=
  if String.eqb id EmptyString then fail IDNotProvidedError
  else
    shipment <- Get c id ;;
    match shipment with
    | None => fail IDNotFoundError
    | Some shipment =>
        let prevStatus := SystemInfo.Status (Shipment.SystemInfo shipment) in
        if String.eqb prevStatus newStatus then
          ret (Result.mk (Shipment.ID shipment) newStatus
                 (SystemInfo.LastUpdatedTimestamp (Shipment.SystemInfo shipment))
                 (SystemInfo.Version (Shipment.SystemInfo shipment)))
        else
          let shipment := ChangeStatus newStatus (clock c) shipment in
          item <- updateDynamoDBItem c id (UpdateStatusExpr shipment) ;;
          ret (resultOf (SystemInfo.ID (Shipment.SystemInfo item)) item)
    end.

(** The expression built by [Enqueue], from the record after
    [MarkAsEnqueued]. *)
Definition EnqueueExpr (retrieved : Shipment.t) : Expression :=
  let i := Shipment.SystemInfo retrieved in
  {| Update :=
       [ OpAdd "system_info.version" (VNum 1);
         OpSet "queued" (VNum (Shipment.Queued retrieved));
         OpSet "system_info.queued" (VNum (SystemInfo.InQueue i));
         OpSet "system_info.queue_selected" (VBool (SystemInfo.SelectedFromQueue i));
         OpSet "last_updated_timestamp"
           (VTime (Shipment.LastUpdatedTimestamp retrieved));
         OpSet "system_info.last_updated_timestamp"
           (VTime (SystemInfo.LastUpdatedTimestamp i));
         OpSet "system_info.queue_add_timestamp"
           (VTime (SystemInfo.AddToQueueTimestamp i));
         OpSet "system_info.status" (VStr (SystemInfo.Status i)) ];
     Condition :=
       Some (Equal "system_info.version" (VNum (SystemInfo.Version i))) |}.

Module EnqueueResult.
Record t : Type := mk { Result : Result.t; Shipment : option Shipment.t }.
End EnqueueResult.

(** [func (c *queueSDKClient) Enqueue] *)
Definition Enqueue (c : queueSDKClient) (id : string) : Client EnqueueResult.t :=
  if String.eqb id EmptyString then fail IDNotProvidedError
  else
    retrieved <- Get c id ;;
    match retrieved with
    | None => fail IDNotFoundError
    | Some retrieved =>
        let preStatus := SystemInfo.Status (Shipment.SystemInfo retrieved) in
        if String.eqb preStatus StatusUnderConstruction then
          fail RecordNotConstructedError
        else if negb (String.eqb preStatus StatusReadyToShip) then
          fail IllegalStateError
        else
          let retrieved := MarkAsEnqueued (clock c) retrieved in
          item <- updateDynamoDBItem c id (EnqueueExpr retrieved) ;;
          shipment <- Get c id ;;
          ret (EnqueueResult.mk (resultOf (Shipment.ID item) item) shipment)
    end.

(** The three variables the scan of [Peek] leaves behind. *)
Record PeekSelection : Type := mkPeekSelection {
  selectedID : string;
  selectedVersion : Z;
  recordForPeekIsFound : bool
}.

(** The [for { ... }] loop of [Peek]: one page of at most 250 index entries
    per iteration, stopping at the first record that is not selected.  Each
    iteration but the last consumes a full page, so one unit of [fuel] per
    stored record (plus one) is never exhausted. *)
Fixpoint peekLoop (fuel : nat) (c : queueSDKClient)
    (exclusiveStartKey : option nat) : Client PeekSelection :=
  match fuel with
  | O => fail OutOfFuel
  | S fuel' =>
      queryResult <-
        dynamoDB (Query QueueingIndexName (VNum 1) 250 exclusiveStartKey) ;;
      let exclusiveStartKey := LastEvaluatedKey queryResult in
      let visibilityTimeout := visibilityTimeoutOf c in
      match find (fun item => negb (IsQueueSelected (clock c) visibilityTimeout item))
                 (Items queryResult) with
      | Some item =>
          ret (mkPeekSelection (Shipment.ID item)
                 (SystemInfo.Version (Shipment.SystemInfo item)) true)
      | None =>
          match exclusiveStartKey with
          | None => ret (mkPeekSelection EmptyString 0 false)
          | Some _ => peekLoop fuel' c exclusiveStartKey
          end
      end
  end.

(** Fuel for a paginated scan of the current table. *)
Definition withScanFuel {A} (loop : nat -> Client A) : Client A :=
  fun st => loop (S (List.length (items st))) st.

(** The expression built by [Peek], from the record after [MarkAsPeeked]. *)
Definition PeekExpr (shipment : Shipment.t) (selectedVersion : Z) : Expression :=
  let i := Shipment.SystemInfo shipment in
  {| Update :=
       [ OpAdd "system_info.version" (VNum 1);
         OpSet "system_info.queue_selected" (VBool (SystemInfo.SelectedFromQueue i));
         OpSet "last_updated_timestamp"
           (VTime (Shipment.LastUpdatedTimestamp shipment));
         OpSet "system_info.last_updated_timestamp"
           (VTime (SystemInfo.LastUpdatedTimestamp i));
         OpSet "system_info.queue_peek_timestamp"
           (VTime (SystemInfo.PeekFromQueueTimestamp i));
         OpSet "system_info.peek_utc_timestamp" (VNum (SystemInfo.PeekUTCTimestamp i));
         OpSet "system_info.status" (VStr (SystemInfo.Status i)) ];
     Condition := Some (Equal "system_info.version" (VNum selectedVersion)) |}.

Module PeekResult.
Record t : Type := mk {
  Result : Result.t;
  TimestampMillisUTC : Z;
  PeekedShipmentObject : option Shipment.t
}.
End PeekResult.

(** [func (c *queueSDKClient) Peek] *)
Definition Peek (c : queueSDKClient) : Client PeekResult.t :=
  sel <- withScanFuel (fun fuel => peekLoop fuel c None) ;;
  if String.eqb (selectedID sel) EmptyString then fail EmptyQueueError
  else
    shipment <- Get c (selectedID sel) ;;
    match shipment with
    | None => fail NilPointerPanic
    | Some shipment =>
        let shipment := MarkAsPeeked (clock c) shipment in
        item <- updateDynamoDBItem c (Shipment.ID shipment)
                  (PeekExpr shipment (selectedVersion sel)) ;;
        peekedShipment <- Get c (selectedID sel) ;;
        ret (PeekResult.mk (resultOf (Shipment.ID item) item)
               (SystemInfo.PeekUTCTimestamp (Shipment.SystemInfo item))
               peekedShipment)
    end.

(** The expression built by [Remove]. *)
Definition RemoveExpr (shipment : Shipment.t) (ts : Timestamp) : Expression :=
  {| Update :=
       [ OpAdd "system_info.version" (VNum 1);
         OpRemove "queued";
         OpRemove "DLQ";
         OpSet "system_info.queued" (VNum 0);
         OpSet "system_info.queue_selected" (VBool false);
         OpSet "system_info.last_updated_timestamp" (VTime ts);
         OpSet "last_updated_timestamp" (VTime ts);
         OpSet "system_info.queue_remove_timestamp" (VTime ts) ];
     Condition :=
       Some (Equal "system_info.version"
               (VNum (SystemInfo.Version (Shipment.SystemInfo shipment)))) |}.

(** [func (c *queueSDKClient) Remove] *)
Definition Remove (c : queueSDKClient) (id : string) : Client Result.t :=
  shipment <- Get c id ;;
  match shipment with
  | None => fail IDNotFoundError
  | Some shipment =>
      if IsRemoved shipment then ret (resultOf id shipment)
      else
        let ts := FormatRFC3339 (clock c) in
        item <- updateDynamoDBItem c id (RemoveExpr shipment ts) ;;
        ret (resultOf id item)
  end.

(** The expression built by [Restore], from the record after
    [MarkAsEnqueued]. *)
Definition RestoreExpr (shipment : Shipment.t) : Expression :=
  let i := Shipment.SystemInfo shipment in
  {| Update :=
       [ OpAdd "system_info.version" (VNum 1);
         OpRemove "DLQ";
         OpSet "queued" (VNum (Shipment.Queued shipment));
         OpSet "last_updated_timestamp"
           (VTime (Shipment.LastUpdatedTimestamp shipment));
         OpSet "system_info.queued" (VNum (SystemInfo.InQueue i));
         OpSet "system_info.queue_selected" (VBool (SystemInfo.SelectedFromQueue i));
         OpSet "system_info.last_updated_timestamp"
           (VTime (SystemInfo.LastUpdatedTimestamp i));
         OpSet "system_info.queue_add_timestamp"
           (VTime (SystemInfo.AddToQueueTimestamp i));
         OpSet "system_info.status" (VStr (SystemInfo.Status i)) ];
     Condition :=
       Some (Equal "system_info.version" (VNum (SystemInfo.Version i))) |}.

(** [func (c *queueSDKClient) Restore] *)
Definition Restore (c : queueSDKClient) (id : string) : Client Result.t :=
  shipment <- Get c id ;;
  match shipment with
  | None => fail IDNotFoundError
  | Some shipment =>
      if IsEnqueued shipment then ret (resultOf id shipment)
      else
        let shipment := MarkAsEnqueued (clock c) shipment in
        item <- updateDynamoDBItem c id (RestoreExpr shipment) ;;
        ret (resultOf id item)
  end.

(** The expression built by [SendToDLQ], from the record after [MarkAsDLQ]. *)
Definition SendToDLQExpr (shipment : Shipment.t) : Expression :=
  let i := Shipment.SystemInfo shipment in
  {| Update :=
       [ OpAdd "system_info.version" (VNum 1);
         OpRemove "queued";
         OpSet "DLQ" (VNum (Shipment.DLQ shipment));
         OpSet "system_info.queued" (VNum (SystemInfo.InQueue i));
         OpSet "system_info.queue_selected" (VBool (SystemInfo.SelectedFromQueue i));
         OpSet "last_updated_timestamp"
           (VTime (Shipment.LastUpdatedTimestamp shipment));
         OpSet "system_info.last_updated_timestamp"
           (VTime (SystemInfo.LastUpdatedTimestamp i));
         OpSet "system_info.dlq_add_timestamp"
           (VTime (SystemInfo.AddToDlqTimestamp i));
         OpSet "system_info.status" (VStr (SystemInfo.Status i)) ];
     Condition :=
       Some (And (Equal "system_info.version" (VNum (SystemInfo.Version i)))
                 (Equal "system_info.queued" (VNum 1))) |}.

(** [func (c *queueSDKClient) SendToDLQ] *)
Definition SendToDLQ (c : queueSDKClient) (id : string) : Client Result.t :=
  shipment <- Get c id ;;
  match shipment with
  | None => fail IDNotFoundError
  | Some shipment =>
      if IsDLQ shipment then ret (resultOf id shipment)
      else
        let shipment := MarkAsDLQ (clock c) shipment in
        item <- updateDynamoDBItem c id (SendToDLQExpr shipment) ;;
        ret (resultOf id item)
  end.

(** The expression built by [Touch], from the record after
    [Shipment.Touch]. *)
Definition TouchExpr (shipment : Shipment.t) : Expression :=
  let i := Shipment.SystemInfo shipment in
  {| Update :=
       [ OpAdd "system_info.version" (VNum 1);
         OpSet "last_updated_timestamp"
           (VTime (Shipment.LastUpdatedTimestamp shipment));
         OpSet "system_info.last_updated_timestamp"
           (VTime (SystemInfo.LastUpdatedTimestamp i)) ];
     Condition :=
       Some (Equal "system_info.version" (VNum (SystemInfo.Version i))) |}.

(** [func (c *queueSDKClient) Touch] *)
Definition Touch (c : queueSDKClient) (id : string) : Client Result.t :=
  shipment <- Get c id ;;
  match shipment with
  | None => fail IDNotFoundError
  | Some shipment =>
      let shipment := TouchShipment (clock c) shipment in
      item <- updateDynamoDBItem c id (TouchExpr shipment) ;;
      ret (resultOf id item)
  end.

Module DequeueResult.
Record t : Type := mk {
  Result : Result.t;
  DequeuedShipmentObject : option Shipment.t
}.
End DequeueResult.

(** [func (c *queueSDKClient) Dequeue] *)
Definition Dequeue (c : queueSDKClient) : Client DequeueResult.t :=
  peekResult <- Peek c ;;
  let id := Result.ID (PeekResult.Result peekResult) in
  removeResult <- Remove c id ;;
  shipment <- Get c id ;;
  ret (DequeueResult.mk removeResult shipment).

(** [type QueueStats struct] *)
Module QueueStats.
Record t : Type := mk {
  First100IDsInQueue : list string;
  First100SelectedIDsInQueue : list string;
  TotalRecordsInQueue : Z;
  TotalRecordsInProcessing : Z;
  TotalRecordsNotStarted : Z
}.
End QueueStats.

(** The local variables of [GetQueueStats]. *)
Record statsVars : Type := mkStatsVars {
  totalQueueSize : Z;
  peekedRecords : Z;
  allQueueIDs : list string;
  processingIDs : list string
}.

(** The body of [for _, itemMap := range queryOutput.Items]. *)
Definition statsItem (v : statsVars) (item : Shipment.t) : statsVars :=
  let totalQueueSize := totalQueueSize v + 1 in
  let '(peekedRecords, processingIDs) :=
    if SystemInfo.SelectedFromQueue (Shipment.SystemInfo item) then
      (peekedRecords v + 1,
       if (List.length (processingIDs v) <? 100)%nat
       then (processingIDs v ++ [Shipment.ID item])%list
       else processingIDs v)
    else (peekedRecords v, processingIDs v) in
  let allQueueIDs :=
    if (List.length (allQueueIDs v) <? 100)%nat
    then (allQueueIDs v ++ [Shipment.ID item])%list
    else allQueueIDs v in
  mkStatsVars totalQueueSize peekedRecords allQueueIDs processingIDs.

(** The [for { ... }] loop of [GetQueueStats]. *)
Fixpoint statsLoop (fuel : nat) (c : queueSDKClient)
    (exclusiveStartKey : option nat) (v : statsVars) : Client statsVars :=
  match fuel with
  | O => fail OutOfFuel
  | S fuel' =>
      queryOutput <-
        dynamoDB (Query QueueingIndexName (VNum 1) 250 exclusiveStartKey) ;;
      let exclusiveStartKey := LastEvaluatedKey queryOutput in
      let v := fold_left statsItem (Items queryOutput) v in
      match exclusiveStartKey with
      | None => ret v
      | Some _ => statsLoop fuel' c exclusiveStartKey v
      end
  end.

(** [func (c *queueSDKClient) GetQueueStats] *)
Definition GetQueueStats (c : queueSDKClient) : Client QueueStats.t :=
  v <- withScanFuel (fun fuel => statsLoop fuel c None (mkStatsVars 0 0 [] [])) ;;
  ret (QueueStats.mk (allQueueIDs v) (processingIDs v)
         (totalQueueSize v) (peekedRecords v)
         (totalQueueSize v - peekedRecords v)).

(** ** Notions used to state properties of the client *)

(** The optimistic-concurrency token of a record. *)
Definition version (s : Shipment.t) : Z :=
  SystemInfo.Version (Shipment.SystemInfo s).

(** The standard queue in index order: what the queries of [Peek] and
    [GetQueueStats] page through. *)
Definition queueIndex (T : Table Shipment.t) : list Shipment.t :=
  indexItems QueueingIndexName (VNum 1) T.

(** The test [Peek] applies to each candidate. *)
Definition eligible (c : queueSDKClient) (s : Shipment.t) : bool :=
  negb (IsQueueSelected (clock c) (visibilityTimeoutOf c) s).

(** A record after the update expression of [Peek] has been applied to it
    at instant [now]: the attributes named in [PeekExpr] are written, every
    other attribute is as before. *)
Definition peekedAt (now : Time) (s : Shipment.t) : Shipment.t :=
  let i := Shipment.SystemInfo s in
  Shipment.mk (Shipment.ID s) (Shipment.Data s)
    (SystemInfo.mk (SystemInfo.ID i) (SystemInfo.CreationTimestamp i)
       (FormatRFC3339 now) StatusProcessing (SystemInfo.Version i + 1)
       (SystemInfo.InQueue i) true (SystemInfo.AddToQueueTimestamp i)
       (SystemInfo.AddToDlqTimestamp i) (FormatRFC3339 now)
       (SystemInfo.RemoveFromQueueTimestamp i) now)
    (Shipment.Queued s) (FormatRFC3339 now) (Shipment.DLQ s).

(** A record after the update expression of [SendToDLQ] has been applied
    to it at instant [now]. *)
Definition sentToDLQAt (now : Time) (s : Shipment.t) : Shipment.t :=
  let i := Shipment.SystemInfo s in
  Shipment.mk (Shipment.ID s) (Shipment.Data s)
    (SystemInfo.mk (SystemInfo.ID i) (SystemInfo.CreationTimestamp i)
       (FormatRFC3339 now) StatusReadyToShip (SystemInfo.Version i + 1)
       0 false (SystemInfo.AddToQueueTimestamp i)
       (FormatRFC3339 now) (SystemInfo.PeekFromQueueTimestamp i)
       (SystemInfo.RemoveFromQueueTimestamp i) (SystemInfo.PeekUTCTimestamp i))
    0 (FormatRFC3339 now) 1.

(** The selected flag [GetQueueStats] counts. *)
Definition selected (s : Shipment.t) : bool :=
  SystemInfo.SelectedFromQueue (Shipment.SystemInfo s).

(** The variables of [GetQueueStats] after the records [l] have been
    counted. *)
Definition statsOf (l : list Shipment.t) : statsVars :=
  mkStatsVars (Z.of_nat (List.length l))
    (Z.of_nat (List.length (filter selected l)))
    (firstn 100 (map Shipment.ID l))
    (firstn 100 (map Shipment.ID (filter selected l))).

(** An expression whose update starts by adding one to the version, never
    names the version again, and whose condition requires version [v]. *)
Definition guardedBy (v : Z) (e : Expression) : Prop :=
  exists rest cnd,
    e = mkExpression (OpAdd "system_info.version" (VNum 1) :: rest) (Some cnd) /\
    (cnd = Equal "system_info.version" (VNum v) \/
     exists c2, cnd = And (Equal "system_info.version" (VNum v)) c2) /\
    Forall (fun op => operationName op <> "system_info.version") rest.

(** The seven operations that update a record in place, each with the
    [Result] it reports. *)
Inductive Mutation : Type :=
| MUpdateStatus (id : string) (newStatus : Status)
| MEnqueue (id : string)
| MPeek
| MRemove (id : string)
| MRestore (id : string)
| MSendToDLQ (id : string)
| MTouch (id : string).

Definition perform (c : queueSDKClient) (m : Mutation) : Client Result.t :=
  match m with
  | MUpdateStatus id newStatus => UpdateStatus c id newStatus
  | MEnqueue id => r <- Enqueue c id ;; ret (EnqueueResult.Result r)
  | MPeek => r <- Peek c ;; ret (PeekResult.Result r)
  | MRemove id => Remove c id
  | MRestore id => Restore c id
  | MSendToDLQ id => SendToDLQ c id
  | MTouch id => Touch c id
  end.

(** What a successful run of a mutation amounts to: either no write was
    issued and the table is as before, or exactly one [UpdateItem] was
    issued, with an expression guarded by the version [v] the operation
    observed, which can only execute on a stored record at version [v] and
    leaves it at [v + 1]. *)
Definition bumped (t : Table Shipment.t) (r : Result.t) (st' : Store Shipment.t)
  : Prop :=
  (filter isWrite (calls st') = [] /\ items st' = t) \/
  (exists id e s,
      filter isWrite (calls st') = [CUpdateItem id e] /\
      lookupItem id t = Some s /\
      guardedBy (version s) e /\
      (forall T new T', updateTable id e T = inr (new, T') ->
         exists s0, lookupItem id T = Some s0 /\ version s0 = version s /\
                    version new = version s + 1) /\
      (exists s', lookupItem id (items st') = Some s' /\
                  version s' = version s + 1) /\
      Result.Version r = version s + 1).

(** ** Records of the tests (sdk_test.go) *)

(** [newTestShipmentData] (sdk.go) *)
Definition newTestShipmentData (id : string) : ShipmentData.t :=
  ShipmentData.mk id "Data 1" "Data 2" "Data 3"
    [ ShipmentItem.mk "Item-1" true;
      ShipmentItem.mk "Item-2" true;
      ShipmentItem.mk "Item-3" true ].

Definition newTestShipmentItem (id : string) (now : Time) : Shipment.t :=
  NewDefaultShipment id (Some (newTestShipmentData id)) now.

Definition newTestShipmentItemAsReady (id : string) (now : Time) : Shipment.t :=
  MarkAsReadyForShipment now (newTestShipmentItem id now).

Definition newTestShipmentItemAsEnqueued (id : string) (now : Time) : Shipment.t :=
  MarkAsEnqueued now (newTestShipmentItem id now).

Definition newTestShipmentItemAsPeeked (id : string) (now : Time) : Shipment.t :=
  MarkAsPeeked now (newTestShipmentItem id now).

Definition newTestShipmentItemAsRemoved (id : string) (now : Time) : Shipment.t :=
  MarkAsRemoved now (newTestShipmentItem id now).

Definition newTestShipmentItemAsDLQ (id : string) (now : Time) : Shipment.t :=
  MarkAsDLQ now (newTestShipmentItem id now).

(** [s.SystemInfo.Version = v], as the tests build the records they
    expect. *)
Definition setVersion (v : Z) (s : Shipment.t) : Shipment.t :=
  let '(SystemInfo.mk id cr lu st _ inq sel addq adddlq peek rem utc) :=
    Shipment.SystemInfo s in
  Shipment.mk (Shipment.ID s) (Shipment.Data s)
    (SystemInfo.mk id cr lu st v inq sel addq adddlq peek rem utc)
    (Shipment.Queued s) (Shipment.LastUpdatedTimestamp s) (Shipment.DLQ s).

(** The [Result] the tests build from an expected record: the timestamp is
    read from the top-level field. *)
Definition wantResult (s : Shipment.t) : Result.t :=
  Result.mk (Shipment.ID s) (SystemInfo.Status (Shipment.SystemInfo s))
    (Shipment.LastUpdatedTimestamp s)
    (SystemInfo.Version (Shipment.SystemInfo s)).

(** [time.Date(2023, 12, 1, 0, 0, 0, 0, time.UTC)] in Unix milliseconds. *)
Definition testDate : Time := 1701388800000.

(** The client of the tests: visibility timeout of one minute
    ([WithAWSVisibilityTimeout(1)]), clock pinned by [withClock]. *)
Definition testClient (now : Time) : queueSDKClient :=
  mkClient "Shipment" 1 now.

(** ** The rest of the client *)

(** [type DLQStats struct] *)
Module DLQStats.
Record t : Type := mk {
  First100IDsInQueue : list string;
  TotalRecordsInDLQ : Z
}.
End DLQStats.

(** The local variables of [GetDLQStats]. *)
Record dlqVars : Type := mkDlqVars {
  totalDLQSize : Z;
  listBANs : list string
}.

(** The body of [for _, itemMap := range resp.Items]. *)
Definition dlqItem (v : dlqVars) (item : Shipment.t) : dlqVars :=
  let totalDLQSize := totalDLQSize v + 1 in
  let listBANs :=
    if (List.length (listBANs v) <? 100)%nat
    then (listBANs v ++ [Shipment.ID item])%list
    else listBANs v in
  mkDlqVars totalDLQSize listBANs.

(** The [for { ... }] loop of [GetDLQStats]. *)
Fixpoint dlqLoop (fuel : nat) (c : queueSDKClient)
    (lastEvaluatedKey : option nat) (v : dlqVars) : Client dlqVars :=
  match fuel with
  | O => fail OutOfFuel
  | S fuel' =>
      resp <-
        dynamoDB (Query DlqQueueingIndexName (VNum 1) 250 lastEvaluatedKey) ;;
      let lastEvaluatedKey := LastEvaluatedKey resp in
      let v := fold_left dlqItem (Items resp) v in
      match lastEvaluatedKey with
      | None => ret v
      | Some _ => dlqLoop fuel' c lastEvaluatedKey v
      end
  end.

(** [func (c *queueSDKClient) GetDLQStats] *)
Definition GetDLQStats (c : queueSDKClient) : Client DLQStats.t :=
  v <- withScanFuel (fun fuel => dlqLoop fuel c None (mkDlqVars 0 [])) ;;
  ret (DLQStats.mk (listBANs v) (totalDLQSize v)).

(** [func (c *queueSDKClient) Upsert].  [Shipment.Update] is not in the
    sources: the definition takes it as a parameter, [shipmentUpdate retrieved
    shipment now] being the receiver [retrieved] after
    [retrieved.Update(shipment, now)]. *)
Section Upsert.
Variable shipmentUpdate : Shipment.t -> Shipment.t -> Time -> Shipment.t.

Definition Upsert (c : queueSDKClient) (shipment : Shipment.t) : Client unit :=
  retrieved <- Get c (Shipment.ID shipment) ;;
  match retrieved with
  | Some retrieved => put c (shipmentUpdate retrieved shipment (clock c))
  | None => put c shipment
  end.

End Upsert.

(** [func (c *queueSDKClient) CreateTestData] *)
Definition CreateTestData (c : queueSDKClient) (id : string) : Client Shipment.t :=
  if String.eqb id EmptyString then fail IDNotProvidedError
  else
    Delete c id ;;;
    let data := newTestShipmentData id in
    let shipment := NewDefaultShipment id (Some data) (clock c) in
    Put c shipment ;;;
    ret shipment.

(** A consumer that calls [Dequeue] [n] times in a row and collects the IDs
    it is handed. *)
Fixpoint dequeueAll (c : queueSDKClient) (n : nat) : Client (list string) :=
  match n with
  | O => ret []
  | S n' =>
      r <- Dequeue c ;;
      ids <- dequeueAll c n' ;;
      ret (Result.ID (DequeueResult.Result r) :: ids)
  end.

(** The ID a keyed mutation is called with ([Peek] takes none). *)
Definition mutationID (m : Mutation) : option string :=
  match m with
  | MUpdateStatus id _ | MEnqueue id | MRemove id | MRestore id
  | MSendToDLQ id | MTouch id => Some id
  | MPeek => None
  end.

(** The DLQ in index order: what the query of [GetDLQStats] pages
    through. *)
Definition dlqIndex (T : Table Shipment.t) : list Shipment.t :=
  indexItems DlqQueueingIndexName (VNum 1) T.

(** A record after the update expression of [Remove] has been applied to
    it at instant [now]: the attributes named in [RemoveExpr] are written or
    removed, every other attribute is as before. *)
Definition removedAt (now : Time) (s : Shipment.t) : Shipment.t :=
  let i := Shipment.SystemInfo s in
  Shipment.mk (Shipment.ID s) (Shipment.Data s)
    (SystemInfo.mk (SystemInfo.ID i) (SystemInfo.CreationTimestamp i)
       (FormatRFC3339 now) (SystemInfo.Status i) (SystemInfo.Version i + 1)
       0 false (SystemInfo.AddToQueueTimestamp i)
       (SystemInfo.AddToDlqTimestamp i) (SystemInfo.PeekFromQueueTimestamp i)
       (FormatRFC3339 now) (SystemInfo.PeekUTCTimestamp i))
    0 (FormatRFC3339 now) 0.

(** A record after the update expression of [Touch]: the version is
    incremented and the two last-updated timestamps are written. *)
Definition touchedAt (now : Time) (s : Shipment.t) : Shipment.t :=
  let i := Shipment.SystemInfo s in
  Shipment.mk (Shipment.ID s) (Shipment.Data s)
    (SystemInfo.mk (SystemInfo.ID i) (SystemInfo.CreationTimestamp i)
       (FormatRFC3339 now) (SystemInfo.Status i) (SystemInfo.Version i + 1)
       (SystemInfo.InQueue i) (SystemInfo.SelectedFromQueue i)
       (SystemInfo.AddToQueueTimestamp i) (SystemInfo.AddToDlqTimestamp i)
       (SystemInfo.PeekFromQueueTimestamp i)
       (SystemInfo.RemoveFromQueueTimestamp i) (SystemInfo.PeekUTCTimestamp i))
    (Shipment.Queued s) (FormatRFC3339 now) (Shipment.DLQ s).

(** A record after the update expression of [UpdateStatus]. *)
Definition statusChangedAt (status : Status) (now : Time) (s : Shipment.t)
  : Shipment.t :=
  let i := Shipment.SystemInfo s in
  Shipment.mk (Shipment.ID s) (Shipment.Data s)
    (SystemInfo.mk (SystemInfo.ID i) (SystemInfo.CreationTimestamp i)
       (FormatRFC3339 now) status (SystemInfo.Version i + 1)
       (SystemInfo.InQueue i) (SystemInfo.SelectedFromQueue i)
       (SystemInfo.AddToQueueTimestamp i) (SystemInfo.AddToDlqTimestamp i)
       (SystemInfo.PeekFromQueueTimestamp i)
       (SystemInfo.RemoveFromQueueTimestamp i) (SystemInfo.PeekUTCTimestamp i))
    (Shipment.Queued s) (FormatRFC3339 now) (Shipment.DLQ s).

(** A record after the update expression of [Enqueue] (and of [Restore],
    which also removes the [DLQ] attribute). *)
Definition enqueuedAt (now : Time) (s : Shipment.t) : Shipment.t :=
  let i := Shipment.SystemInfo s in
  Shipment.mk (Shipment.ID s) (Shipment.Data s)
    (SystemInfo.mk (SystemInfo.ID i) (SystemInfo.CreationTimestamp i)
       (FormatRFC3339 now) StatusReadyToShip (SystemInfo.Version i + 1)
       1 false (FormatRFC3339 now) (SystemInfo.AddToDlqTimestamp i)
       (SystemInfo.PeekFromQueueTimestamp i)
       (SystemInfo.RemoveFromQueueTimestamp i) (SystemInfo.PeekUTCTimestamp i))
    1 (FormatRFC3339 now) (Shipment.DLQ s).

Definition restoredAt (now : Time) (s : Shipment.t) : Shipment.t :=
  let s' := enqueuedAt now s in
  Shipment.mk (Shipment.ID s') (Shipment.Data s') (Shipment.SystemInfo s')
    (Shipment.Queued s') (Shipment.LastUpdatedTimestamp s') 0.

End Legacy.

(** * Package [dynamomq]: the client over [Message] records

    The client of this package is not in the sources; its tests
    (TestDynamoMQClient...) and its callers ([Producer.Produce]) are.  Every
    definition of this module follows the spec. *)

Module MQ.

Inductive QueueType : Type := QueueTypeStandard | QueueTypeDLQ.
Inductive Status : Type := StatusReady | StatusProcessing.

Definition QueueType_name (q : QueueType) : string :=
  match q with
  | QueueTypeStandard => "STANDARD"
  | QueueTypeDLQ => "DLQ"
  end.

Definition Status_name (s : Status) : string :=
  match s with
  | StatusReady => "READY"
  | StatusProcessing => "PROCESSING"
  end.

Definition QueueType_of_name (s : string) : option QueueType :=
  if String.eqb s "STANDARD" then Some QueueTypeStandard
  else if String.eqb s "DLQ" then Some QueueTypeDLQ
  else None.

Definition Status_of_name (s : string) : option Status :=
  if String.eqb s "READY" then Some StatusReady
  else if String.eqb s "PROCESSING" then Some StatusProcessing
  else None.

Definition QueueIndexName := "dynamo-mq-index-queue_type-queue_add_timestamp".

(** Modelled from the spec: [type Message] is not in the sources.  The
    fields are those of the data model of the spec (section 3); the payload
    is kept as an opaque string and [VisibilityTimeout] is in seconds. *)
Module Message.
Record t : Type := mk {
  ID : string;
  Data : string;
  QueueType : QueueType;
  Status : Status;
  ReceiveCount : Z;
  Version : Z;
  CreatedAt : Timestamp;
  UpdatedAt : Timestamp;
  SentAt : Timestamp;
  ReceivedAt : Timestamp;
  QueueAddTimestamp : Timestamp;
  VisibilityTimeout : Z
}.
End Message.

Definition getMessageAttr (name : string) (m : Message.t) : option Value :=
  if String.eqb name "id" then Some (VStr (Message.ID m))
  else if String.eqb name "data" then Some (VStr (Message.Data m))
  else if String.eqb name "queue_type" then
    Some (VStr (QueueType_name (Message.QueueType m)))
  else if String.eqb name "status" then Some (VStr (Status_name (Message.Status m)))
  else if String.eqb name "receive_count" then Some (VNum (Message.ReceiveCount m))
  else if String.eqb name "version" then Some (VNum (Message.Version m))
  else if String.eqb name "created_at" then Some (VTime (Message.CreatedAt m))
  else if String.eqb name "updated_at" then Some (VTime (Message.UpdatedAt m))
  else if String.eqb name "sent_at" then Some (VTime (Message.SentAt m))
  else if String.eqb name "received_at" then Some (VTime (Message.ReceivedAt m))
  else if String.eqb name "queue_add_timestamp" then
    Some (VTime (Message.QueueAddTimestamp m))
  else if String.eqb name "visibility_timeout" then
    Some (VNum (Message.VisibilityTimeout m))
  else None.

Definition setMessageAttr (name : string) (v : Value) (m : Message.t)
  : option Message.t :=
  let '(Message.mk id data qt st rc ve cr up se re qa vt) := m in
  if String.eqb name "data" then
    match v with
    | VStr x => Some (Message.mk id x qt st rc ve cr up se re qa vt)
    | _ => None
    end
  else if String.eqb name "queue_type" then
    match v with
    | VStr x =>
        match QueueType_of_name x with
        | Some q => Some (Message.mk id data q st rc ve cr up se re qa vt)
        | None => None
        end
    | _ => None
    end
  else if String.eqb name "status" then
    match v with
    | VStr x =>
        match Status_of_name x with
        | Some s => Some (Message.mk id data qt s rc ve cr up se re qa vt)
        | None => None
        end
    | _ => None
    end
  else if String.eqb name "receive_count" then
    match v with
    | VNum x => Some (Message.mk id data qt st x ve cr up se re qa vt)
    | _ => None
    end
  else if String.eqb name "version" then
    match v with
    | VNum x => Some (Message.mk id data qt st rc x cr up se re qa vt)
    | _ => None
    end
  else if String.eqb name "created_at" then
    match v with
    | VTime x => Some (Message.mk id data qt st rc ve x up se re qa vt)
    | _ => None
    end
  else if String.eqb name "updated_at" then
    match v with
    | VTime x => Some (Message.mk id data qt st rc ve cr x se re qa vt)
    | _ => None
    end
  else if String.eqb name "sent_at" then
    match v with
    | VTime x => Some (Message.mk id data qt st rc ve cr up x re qa vt)
    | _ => None
    end
  else if String.eqb name "received_at" then
    match v with
    | VTime x => Some (Message.mk id data qt st rc ve cr up se x qa vt)
    | _ => None
    end
  else if String.eqb name "queue_add_timestamp" then
    match v with
    | VTime x => Some (Message.mk id data qt st rc ve cr up se re x vt)
    | _ => None
    end
  else if String.eqb name "visibility_timeout" then
    match v with
    | VNum x => Some (Message.mk id data qt st rc ve cr up se re qa x)
    | _ => None
    end
  else None.

(** The index [queue_type-queue_add_timestamp] of the persistence schema:
    partition key [queue_type], sort key [queue_add_timestamp]. *)
Definition messageIndexEntry (index : string) (m : Message.t)
  : option (Value * Time) :=
  if String.eqb index QueueIndexName then
    match Message.QueueAddTimestamp m with
    | Some t => Some (VStr (QueueType_name (Message.QueueType m)), t)
    | None => None
    end
  else None.

#[global] Instance MessageSchema : Schema Message.t := {
  itemKey := Message.ID;
  keyOnly := fun id =>
    Message.mk id EmptyString QueueTypeStandard StatusReady 0 0 None None None None None 0;
  getAttr := getMessageAttr;
  setAttr := setMessageAttr;
  removeAttr := fun _ _ => None;
  indexEntry := messageIndexEntry
}.

(** Modelled from the spec: [NewMessage] is not in the sources.
    "Constructs a new Message (Version=1, READY, STANDARD, timestamps = now,
    QueueAddTimestamp = now + DelaySeconds)". *)
Definition NewMessage (id : string) (data : string) (now : Time)
    (delaySeconds : Z) : Message.t :=
  let ts := FormatRFC3339 now in
  Message.mk id data QueueTypeStandard StatusReady 0 1 ts ts ts None
    (FormatRFC3339 (now + delaySeconds * 1000)) 0.

(** Modelled from the spec: the derived field [InvisibleUntilAt] is
    [ReceivedAt + VisibilityTimeout]. *)
Definition InvisibleUntilAt (m : Message.t) : Time :=
  match Message.ReceivedAt m with
  | Some r => r + Message.VisibilityTimeout m * 1000
  | None => 0
  end.

(** Modelled from the spec: the visibility predicate.  "A record is visible
    (eligible for ReceiveMessage) iff Status=READY OR
    now >= ReceivedAt + VisibilityTimeout." *)
Definition visible (now : Time) (m : Message.t) : bool :=
  match Message.Status m with
  | StatusReady => true
  | StatusProcessing => InvisibleUntilAt m <=? now
  end.

(** Modelled from the spec: [markAsProcessing] is not in the sources.
    "valid from READY on STANDARD.  Sets Status=PROCESSING, ReceivedAt=now,
    VisibilityTimeout=visibilityTimeoutSec, UpdatedAt=now, increments
    ReceiveCount."  A record whose visibility window has passed counts as
    READY here (section 5, Timeouts). *)
Definition markAsProcessing (now : Time) (visibilityTimeoutSec : Z)
    (m : Message.t) : Result Message.t :=
  match Message.QueueType m with
  | QueueTypeDLQ => Err InvalidStateTransitionError
  | QueueTypeStandard =>
      if visible now m then
        let ts := FormatRFC3339 now in
        Ok (Message.mk (Message.ID m) (Message.Data m) QueueTypeStandard
              StatusProcessing (Message.ReceiveCount m + 1) (Message.Version m)
              (Message.CreatedAt m) ts (Message.SentAt m) ts
              (Message.QueueAddTimestamp m) visibilityTimeoutSec)
      else Err InvalidStateTransitionError
  end.

(** Modelled from the spec: [markAsMovedToDLQ] is not in the sources.
    "valid from STANDARD (any status).  Sets QueueType=DLQ, Status=READY,
    VisibilityTimeout=0, ReceiveCount=0, SentAt=now, QueueAddTimestamp=now,
    ReceivedAt=(empty), UpdatedAt=now." *)
Definition markAsMovedToDLQ (now : Time) (m : Message.t) : Result Message.t :=
  match Message.QueueType m with
  | QueueTypeDLQ => Err InvalidStateTransitionError
  | QueueTypeStandard =>
      let ts := FormatRFC3339 now in
      Ok (Message.mk (Message.ID m) (Message.Data m) QueueTypeDLQ StatusReady
            0 (Message.Version m) (Message.CreatedAt m) ts ts None ts 0)
  end.

(** Modelled from the spec: the recognized client options that the
    operations below read ([AWSVisibilityTimeout] in seconds, [UseFIFO],
    [Clock]). *)
Record ClientOptions : Type := mkClientOptions {
  tableName : string;
  visibilityTimeout : Z;
  useFIFO : bool;
  clock : Time
}.

Definition Client := M Message.t.

(** Modelled from the spec: [SendMessage] is not in the sources.
    "Validates ID non-empty, else IDNotProvidedError.  Constructs a new
    Message.  Writes with a condition attribute_not_exists(ID).  Duplicate =>
    IDDuplicatedError.  Returns the full Message." *)
Definition SendMessage (c : ClientOptions) (id : string) (data : string)
    (delaySeconds : Z) : Client Message.t :=
  if String.eqb id EmptyString then fail IDNotProvidedError
  else
    let message := NewMessage id data (clock c) delaySeconds in
    fun st =>
      match PutItem message (Some (AttributeNotExists "id")) st with
      | (inr _, st') => (Ok message, st')
      | (inl ConditionalCheckFailedException, st') => (Err IDDuplicatedError, st')
      | (inl exn, st') => (Err (handleDynamoDBError exn), st')
      end.

(** Modelled from the spec: [DeleteMessage] is not in the sources.
    "Unconditional delete by primary key.  ID empty => IDNotProvidedError.
    Missing ID is NOT an error." *)
Definition DeleteMessage (c : ClientOptions) (id : string) : Client unit :=
  if String.eqb id EmptyString then fail IDNotProvidedError
  else dynamoDB (DeleteItem id).

(** Modelled from the spec: the update expression of a receive (section
    4.3, "Update with version check"): [ADD version :one], [SET] of the
    fields [markAsProcessing] stamps, condition [version = :observed].  The
    index sort key [queue_add_timestamp] is not among the clauses. *)
Definition ReceiveExpr (m : Message.t) : Expression :=
  {| Update :=
       [ OpAdd "version" (VNum 1);
         OpSet "status" (VStr (Status_name (Message.Status m)));
         OpSet "receive_count" (VNum (Message.ReceiveCount m));
         OpSet "received_at" (VTime (Message.ReceivedAt m));
         OpSet "visibility_timeout" (VNum (Message.VisibilityTimeout m));
         OpSet "updated_at" (VTime (Message.UpdatedAt m)) ];
     Condition := Some (Equal "version" (VNum (Message.Version m))) |}.

(** How the scan of one receive ends. *)
Inductive ScanOutcome : Type :=
| Claimed (m : Message.t)
| Aborted
| Exhausted.

(** Modelled from the spec: the candidate loop of [ReceiveMessage].  "For
    each candidate in index order: 1. evaluate the visibility predicate;
    skip ineligible.  2. Apply markAsProcessing.  3. Attempt the conditional
    update; on ConditionalCheckFailed, if UseFIFO=false continue scanning,
    if UseFIFO=true abort this call.  4. On success return the updated
    Message."  With [UseFIFO] an ineligible head also ends the call: "at
    most one in-flight message per queue at a time ... receive fails fast
    rather than skipping", which is what
    TestDynamoMQClientReceiveMessageUseFIFO observes on its second, fourth
    and sixth receive. *)
Fixpoint claimFirst (c : ClientOptions) (candidates : list Message.t)
  : Client ScanOutcome :=
  match candidates with
  | [] => ret Exhausted
  | item :: rest =>
      if negb (visible (clock c) item) then
        if useFIFO c then ret Aborted else claimFirst c rest
      else
        match markAsProcessing (clock c) (visibilityTimeout c) item with
        | Err _ => fail InvalidStateTransitionError
        | Ok processing =>
            fun st =>
              match UpdateItem (Message.ID item) (ReceiveExpr processing) st with
              | (inr updated, st') => (Ok (Claimed updated), st')
              | (inl ConditionalCheckFailedException, st') =>
                  if useFIFO c then (Ok Aborted, st') else claimFirst c rest st'
              | (inl exn, st') => (Err (handleDynamoDBError exn), st')
              end
        end
  end.

(** Modelled from the spec: the page loop of [ReceiveMessage].  "Queries the
    queue index with partition key QueueType=STANDARD, ScanIndexForward=true,
    page size <= 250", with "a paginated exclusive-start-key loop". *)
Fixpoint receiveLoop (fuel : nat) (c : ClientOptions)
    (exclusiveStartKey : option nat) : Client ScanOutcome :=
  match fuel with
  | O => fail OutOfFuel
  | S fuel' =>
      page <- dynamoDB (Query QueueIndexName
                          (VStr (QueueType_name QueueTypeStandard)) 250
                          exclusiveStartKey) ;;
      outcome <- claimFirst c (Items page) ;;
      match outcome, LastEvaluatedKey page with
      | Exhausted, Some k => receiveLoop fuel' c (Some k)
      | _, _ => ret outcome
      end
  end.

(** Modelled from the spec: [ReceiveMessage] is not in the sources.  "If
    the scan exhausts all pages with no successful claim: EmptyQueueError." *)
Definition ReceiveMessage (c : ClientOptions) : Client Message.t :=
  outcome <- (fun st => receiveLoop (S (List.length (items st))) c None st) ;;
  match outcome with
  | Claimed m => ret m
  | Aborted => fail EmptyQueueError
  | Exhausted => fail EmptyQueueError
  end.

(** Modelled from the spec: the update expression of a move to the DLQ:
    [ADD version :one], [SET] of the fields [markAsMovedToDLQ] stamps,
    condition [version = :observed]. *)
Definition MoveToDLQExpr (m : Message.t) : Expression :=
  {| Update :=
       [ OpAdd "version" (VNum 1);
         OpSet "queue_type" (VStr (QueueType_name (Message.QueueType m)));
         OpSet "status" (VStr (Status_name (Message.Status m)));
         OpSet "visibility_timeout" (VNum (Message.VisibilityTimeout m));
         OpSet "receive_count" (VNum (Message.ReceiveCount m));
         OpSet "sent_at" (VTime (Message.SentAt m));
         OpSet "queue_add_timestamp" (VTime (Message.QueueAddTimestamp m));
         OpSet "received_at" (VTime (Message.ReceivedAt m));
         OpSet "updated_at" (VTime (Message.UpdatedAt m)) ];
     Condition := Some (Equal "version" (VNum (Message.Version m))) |}.

(** [type MoveMessageToDLQOutput] as the tests build it. *)
Module MoveMessageToDLQOutput.
Record t : Type := mk {
  ID : string;
  Status : Status;
  LastUpdatedTimestamp : Timestamp;
  Version : Z
}.
End MoveMessageToDLQOutput.

Definition dlqOutputOf (m : Message.t) : MoveMessageToDLQOutput.t :=
  MoveMessageToDLQOutput.mk (Message.ID m) (Message.Status m)
    (Message.UpdatedAt m) (Message.Version m).

(** Modelled from the spec: [MoveMessageToDLQ] is not in the sources.
    "Reads record.  If already QueueType=DLQ, returns success with current
    fields (idempotent).  Else applies markAsMovedToDLQ(now), conditional
    update on Version."  An empty ID and a missing record are the errors the
    tests of the operation expect. *)
Definition MoveMessageToDLQ (c : ClientOptions) (id : string)
  : Client MoveMessageToDLQOutput.t :=
  if String.eqb id EmptyString then fail IDNotProvidedError
  else
    retrieved <- dynamoDB (GetItem id) ;;
    match retrieved with
    | None => fail IDNotFoundError
    | Some message =>
        match Message.QueueType message with
        | QueueTypeDLQ => ret (dlqOutputOf message)
        | QueueTypeStandard =>
            match markAsMovedToDLQ (clock c) message with
            | Err _ => fail InvalidStateTransitionError
            | Ok moved =>
                updated <- dynamoDB (UpdateItem id (MoveToDLQExpr moved)) ;;
                ret (dlqOutputOf updated)
            end
        end
    end.

(** ** Notions used to state properties of the client *)

(** The standard queue in index order. *)
Definition standardIndex (T : Table Message.t) : list Message.t :=
  indexItems QueueIndexName (VStr (QueueType_name QueueTypeStandard)) T.

(** A record after the update expression of a receive at instant [now]
    with visibility timeout [vt] has been applied to it. *)
Definition receivedAt (now : Time) (vt : Z) (m : Message.t) : Message.t :=
  Message.mk (Message.ID m) (Message.Data m) (Message.QueueType m)
    StatusProcessing (Message.ReceiveCount m + 1) (Message.Version m + 1)
    (Message.CreatedAt m) (FormatRFC3339 now) (Message.SentAt m)
    (FormatRFC3339 now) (Message.QueueAddTimestamp m) vt.

(** A record after the update expression of a move to the DLQ at instant
    [now] has been applied to it. *)
Definition movedToDLQAt (now : Time) (m : Message.t) : Message.t :=
  Message.mk (Message.ID m) (Message.Data m) QueueTypeDLQ StatusReady 0
    (Message.Version m + 1) (Message.CreatedAt m) (FormatRFC3339 now)
    (FormatRFC3339 now) None (FormatRFC3339 now) 0.

(** The record a send of [(id, instant)] by [produceAll] stores. *)
Definition sentMessage (send : string * Time) : Message.t :=
  NewMessage (fst send) EmptyString (snd send) 0.

(** A producer and a consumer operating serially: each send happens at its
    own instant; each receive is completed by a delete before the next. *)
Definition withClock (now : Time) (c : ClientOptions) : ClientOptions :=
  mkClientOptions (tableName c) (visibilityTimeout c) (useFIFO c) now.

Fixpoint produceAll (c : ClientOptions) (sends : list (string * Time))
  : Client unit :=
  match sends with
  | [] => ret tt
  | (id, at_) :: rest =>
      SendMessage (withClock at_ c) id EmptyString 0 ;;;
      produceAll c rest
  end.

Definition receiveAndDelete (c : ClientOptions) : Client string :=
  m <- ReceiveMessage c ;;
  DeleteMessage c (Message.ID m) ;;;
  ret (Message.ID m).

Fixpoint consumeAll (c : ClientOptions) (n : nat) : Client (list string) :=
  match n with
  | O => ret []
  | S n' =>
      id <- receiveAndDelete c ;;
      ids <- consumeAll c n' ;;
      ret (id :: ids)
  end.

(** ** Records of the tests (TestDynamoMQClient...) *)

Definition newTestMessageItemAsReady (id : string) (now : Time) : Message.t :=
  NewMessage id id now 0.

Definition newTestMessageItemAsDLQ (id : string) (now : Time) : Message.t :=
  match markAsMovedToDLQ now (NewMessage id id now 0) with
  | Ok message => message
  | Err _ => NewMessage id id now 0
  end.

(** [time.Date(2023, 12, 1, 0, 0, 0, 0, time.UTC)] in Unix milliseconds. *)
Definition testDate : Time := 1701388800000.

(** The client of the FIFO test: [WithAWSVisibilityTimeout(1)],
    [WithUseFIFO(true)], clock pinned by [withClock]. *)
Definition fifoTestClient (now : Time) : ClientOptions :=
  mkClientOptions "dynamo-mq-table" 1 true now.

(** The calls of [TestDynamoMQClientReceiveMessageUseFIFO], with the
    result of each receive: a receive, a second receive while the message
    is in flight, the delete of the message, three times over, and a last
    receive. *)
Definition receiveID (c : ClientOptions) : Client (Result string) :=
  attempt (m <- ReceiveMessage c ;; ret (Message.ID m)).

Definition receiveTwiceAndDelete (c : ClientOptions)
  : Client (list (Result string)) :=
  r1 <- receiveID c ;;
  r2 <- receiveID c ;;
  match r1 with
  | Ok id => DeleteMessage c id ;;; ret [r1; r2]
  | Err _ => ret [r1; r2]
  end.

Definition receiveTestRun (c : ClientOptions) : Client (list (Result string)) :=
  rs1 <- receiveTwiceAndDelete c ;;
  rs2 <- receiveTwiceAndDelete c ;;
  rs3 <- receiveTwiceAndDelete c ;;
  r7 <- receiveID c ;;
  ret (rs1 ++ rs2 ++ rs3 ++ [r7])%list.

(** The calls of [TestDynamoMQClientReceiveMessageNotUseFIFO]: three
    receives with no delete in between, and a last one. *)
Definition receiveTestRunNotFIFO (c : ClientOptions)
  : Client (list (Result string)) :=
  r1 <- receiveID c ;;
  r2 <- receiveID c ;;
  r3 <- receiveID c ;;
  r4 <- receiveID c ;;
  ret [r1; r2; r3; r4].

Definition notFIFOTestClient (now : Time) : ClientOptions :=
  mkClientOptions "dynamo-mq-table" 1 false now.

End MQ.

(** * The producer *)

Module Producer.

(** Modelled from the spec: [SendMessageInput] and [SendMessageOutput] are
    declared outside the sources; these are the fields [Produce] fills in
    and reads ("SendMessage(ID, Data, DelaySeconds)", "Returns the full
    Message"). *)
Module SendMessageInput.
Record t (T : Type) : Type := mk {
  ID : string;
  Data : T;
  DelaySeconds : Z
}.
Arguments mk {T} _ _ _.
Arguments ID {T} _.
Arguments Data {T} _.
Arguments DelaySeconds {T} _.
End SendMessageInput.

Module SendMessageOutput.
Record t (M : Type) : Type := mk { Message : M }.
Arguments mk {M} _.
Arguments Message {M} _.
End SendMessageOutput.

(** The one method of [Client[T]] a producer calls, [SendMessage], over the
    client's own state [S]; [M] stands for [*Message[T]]. *)
Definition Client (T M S : Type) : Type :=
  SendMessageInput.t T -> S -> Result (SendMessageOutput.t M) * S.

(** [func() string]: an ID generator draws from a source of randomness
    [R]. *)
Definition Generator (R : Type) : Type := R -> string * R.

(** [type ProducerOptions struct] *)
Module ProducerOptions.
Record t (R : Type) : Type := mk { IDGenerator : Generator R }.
Arguments mk {R} _.
Arguments IDGenerator {R} _.
End ProducerOptions.

(** [func WithIDGenerator] *)
Definition WithIDGenerator {R} (idGenerator : Generator R)
  : ProducerOptions.t R -> ProducerOptions.t R :=
  fun o => ProducerOptions.mk idGenerator.

(** [type Producer[T] struct] *)
Record Producer (T M S R : Type) : Type := mkProducer {
  client : Client T M S;
  idGenerator : Generator R
}.
Arguments mkProducer {T M S R} _ _.
Arguments client {T M S R} _.
Arguments idGenerator {T M S R} _.

(** [func NewProducer] (producer.go); [NewString] is [uuid.NewString]. *)
Definition NewProducer {T M S R} (NewString : Generator R) (client : Client T M S)
    (opts : list (ProducerOptions.t R -> ProducerOptions.t R)) : Producer T M S R :=
  let o := fold_left (fun o opt => opt o) opts (ProducerOptions.mk NewString) in
  mkProducer client (ProducerOptions.IDGenerator o).

(** [type ProduceInput[T] struct], [type ProduceOutput[T] struct] *)
Module ProduceInput.
Record t (T : Type) : Type := mk { Data : T; DelaySeconds : Z }.
Arguments mk {T} _ _.
Arguments Data {T} _.
Arguments DelaySeconds {T} _.
End ProduceInput.

Module ProduceOutput.
Record t (M : Type) : Type := mk { Message : option M }.
Arguments mk {M} _.
Arguments Message {M} _.
End ProduceOutput.

(** [func (c *Producer[T]) Produce] (producer.go).  [zero] is the zero value
    of [T], the [Data] of [&ProduceInput[T]{}]; the result is the pair the
    function returns, output and error. *)
Definition Produce {T M S R} (zero : T) (c : Producer T M S R)
    (params : option (ProduceInput.t T))
  : R * S -> (ProduceOutput.t M * option Error) * (R * S) :=
  fun w =>
    let '(r, s) := w in
    let params :=
      match params with
      | Some params => params
      | None => ProduceInput.mk zero 0
      end in
    let '(id, r') := idGenerator c r in
    match client c (SendMessageInput.mk id (ProduceInput.Data params)
                      (ProduceInput.DelaySeconds params)) s with
    | (Err err, s') => ((ProduceOutput.mk None, Some err), (r', s'))
    | (Ok out, s') =>
        ((ProduceOutput.mk (Some (SendMessageOutput.Message out)), None), (r', s'))
    end.

(** A caller that produces one message per input, in order, and keeps what
    each call returned. *)
Fixpoint produceEach {T M S R} (zero : T) (c : Producer T M S R)
    (inputs : list (option (ProduceInput.t T))) (w : R * S)
  : list (ProduceOutput.t M * option Error) * (R * S) :=
  match inputs with
  | [] => ([], w)
  | params :: rest =>
      let '(res, w') := Produce zero c params w in
      let '(ress, w'') := produceEach zero c rest w' in
      (res :: ress, w'')
  end.

(** The IDs [n] calls of a generator yield, and the source afterwards. *)
Fixpoint draw {R} (gen : Generator R) (n : nat) (r : R) : list string * R :=
  match n with
  | O => ([], r)
  | S n' =>
      let '(id, r') := gen r in
      let '(ids, r'') := draw gen n' r' in
      (id :: ids, r'')
  end.

(** Whether a call of [Produce] returned a message and no error. *)
Definition delivered {M} (res : ProduceOutput.t M * option Error) : bool :=
  match res with
  | (_, None) => true
  | (_, Some _) => false
  end.

(** What [Produce] returns when the client rejects the ID as a duplicate. *)
Definition duplicate {M} : ProduceOutput.t M * option Error :=
  (ProduceOutput.mk None, Some IDDuplicatedError).

(** The producer of the earlier file of the package (its [NewProducer] takes
    no options and its [ProduceInput] has no delay). *)
Module Part001.

(** [type Producer[T] struct] *)
Record Producer (T M S R : Type) : Type := mkProducer {
  client : Client T M S;
  uuidGenerator : Generator R
}.
Arguments mkProducer {T M S R} _ _.
Arguments client {T M S R} _.
Arguments uuidGenerator {T M S R} _.

(** [func NewProducer]: [uuidGenerator: uuid.NewV4().String].  [uuid.NewV4()]
    is evaluated here, once, and [.String] is a method value bound to that
    one UUID: every call of the generator returns its text.  [NewV4] yields
    the text of a new UUID. *)
Definition NewProducer {T M S R} (NewV4 : Generator R) (client : Client T M S)
  : R -> Producer T M S R * R :=
  fun r =>
    let '(u, r') := NewV4 r in
    (mkProducer client (fun r0 => (u, r0)), r').

Module ProduceInput.
Record t (T : Type) : Type := mk { Data : T }.
Arguments mk {T} _.
Arguments Data {T} _.
End ProduceInput.

(** [func (c *Producer[T]) Produce] *)
Definition Produce {T M S R} (zero : T) (c : Producer T M S R)
    (params : option (ProduceInput.t T))
  : R * S -> (ProduceOutput.t M * option Error) * (R * S) :=
  fun w =>
    let '(r, s) := w in
    let params :=
      match params with
      | Some params => params
      | None => ProduceInput.mk zero
      end in
    let '(id, r') := uuidGenerator c r in
    match client c (SendMessageInput.mk id (ProduceInput.Data params) 0) s with
    | (Err err, s') => ((ProduceOutput.mk None, Some err), (r', s'))
    | (Ok out, s') =>
        ((ProduceOutput.mk (Some (SendMessageOutput.Message out)), None), (r', s'))
    end.

Fixpoint produceEach {T M S R} (zero : T) (c : Producer T M S R)
    (inputs : list (option (ProduceInput.t T))) (w : R * S)
  : list (ProduceOutput.t M * option Error) * (R * S) :=
  match inputs with
  | [] => ([], w)
  | params :: rest =>
      let '(res, w') := Produce zero c params w in
      let '(ress, w'') := produceEach zero c rest w' in
      (res :: ress, w'')
  end.

End Part001.

(** A [Client] backed by [MQ.SendMessage], over the store of messages. *)
Definition mqClient (c : MQ.ClientOptions)
  : Client string MQ.Message.t (Store MQ.Message.t) :=
  fun input st =>
    match MQ.SendMessage c (SendMessageInput.ID input) (SendMessageInput.Data input)
            (SendMessageInput.DelaySeconds input) st with
    | (Ok message, st') => (Ok (SendMessageOutput.mk message), st')
    | (Err err, st') => (Err err, st')
    end.

(** The IDs a store of messages holds. *)
Definition mqHolds (id : string) (st : Store MQ.Message.t) : Prop :=
  id <> EmptyString /\ lookupItem id (items st) <> None.

(** A generator that counts: the [n]-th ID is [n] strokes. *)
Fixpoint strokes (n : nat) : string :=
  match n with
  | O => "|"
  | S n' => ("|" ++ strokes n')%string
  end.

Definition countingGenerator : Generator nat := fun n => (strokes n, S n).

End Producer.

(** * Facts about the store *)

Module DynamoFacts.

Lemma find_firstn_Some {A} (p : A -> bool) (n : nat) (l : list A) (x : A) :
  find p (firstn n l) = Some x -> find p l = Some x.
Proof.
  revert l; induction n as [|n IH]; intros [|a l]; simpl; try discriminate.
  destruct (p a); auto.
Qed.

Lemma find_firstn_None {A} (p : A -> bool) (n : nat) (l : list A) :
  find p (firstn n l) = None -> find p l = find p (skipn n l).
Proof.
  revert l; induction n as [|n IH]; intros [|a l]; simpl; auto.
  destruct (p a); [discriminate | auto].
Qed.

Lemma find_some_In {A} (p : A -> bool) (l : list A) (x : A) :
  find p l = Some x -> In x l /\ p x = true.
Proof. apply find_some. Qed.

Section StoreFacts.
Context {Item : Type} `{Schema Item}.

Lemma lookupItem_Some id (t : Table Item) it :
  lookupItem id t = Some it -> In it t /\ itemKey it = id.
Proof.
  unfold lookupItem; intros E; apply find_some in E.
  destruct E as [HIn E]; split; [assumption | now apply String.eqb_eq].
Qed.

Lemma lookupItem_None id (t : Table Item) :
  lookupItem id t = None <-> ~ In id (map itemKey t).
Proof.
  unfold lookupItem; induction t as [|a t IH]; simpl.
  - tauto.
  - destruct (String.eqb_spec (itemKey a) id) as [E|NE].
    + split; [discriminate | intros HN; exfalso; apply HN; now left].
    + rewrite IH; split.
      * intros HN [E|HIn]; [now apply NE | now apply HN].
      * intros HN HIn; apply HN; now right.
Qed.

Lemma lookupItem_In (t : Table Item) it :
  keysDistinct t -> In it t -> lookupItem (itemKey it) t = Some it.
Proof.
  unfold keysDistinct, lookupItem; induction t as [|a t IH]; simpl.
  - intros _ [].
  - intros ND [E|HIn]; inversion ND as [|? ? HNotIn ND']; subst.
    + now rewrite String.eqb_refl.
    + destruct (String.eqb_spec (itemKey a) (itemKey it)) as [E|NE].
      * exfalso; apply HNotIn; rewrite E; now apply in_map.
      * now apply IH.
Qed.

Lemma lookupItem_replaceItem id new (t : Table Item) :
  lookupItem id (replaceItem new t) =
  if String.eqb (itemKey new) id then Some new else lookupItem id t.
Proof.
  unfold lookupItem; induction t as [|a t IH]; simpl.
  - reflexivity.
  - destruct (String.eqb_spec (itemKey a) (itemKey new)) as [E|NE]; simpl.
    + destruct (String.eqb_spec (itemKey new) id) as [E'|NE']; [reflexivity|].
      destruct (String.eqb_spec (itemKey a) id); [congruence | reflexivity].
    + destruct (String.eqb_spec (itemKey a) id) as [E'|NE'].
      * destruct (String.eqb_spec (itemKey new) id); [congruence | reflexivity].
      * exact IH.
Qed.

Lemma replaceItem_absent new (t : Table Item) :
  lookupItem (itemKey new) t = None -> replaceItem new t = (t ++ [new])%list.
Proof.
  unfold lookupItem; induction t as [|a t IH]; simpl; [reflexivity|].
  destruct (String.eqb (itemKey a) (itemKey new)); [discriminate|].
  intros E; now rewrite IH.
Qed.

Lemma replaceItem_head old new (t : Table Item) :
  itemKey old = itemKey new -> replaceItem new (old :: t) = new :: t.
Proof. intros E; simpl; rewrite E, String.eqb_refl; reflexivity. Qed.

Lemma map_itemKey_replaceItem new (t : Table Item) :
  lookupItem (itemKey new) t <> None ->
  map itemKey (replaceItem new t) = map itemKey t.
Proof.
  unfold lookupItem; induction t as [|a t IH]; simpl; [congruence|].
  destruct (String.eqb_spec (itemKey a) (itemKey new)) as [E|NE]; simpl.
  - intros _; now rewrite E.
  - intros HN; now rewrite IH.
Qed.

Lemma keysDistinct_replaceItem new (t : Table Item) :
  keysDistinct t -> keysDistinct (replaceItem new t).
Proof.
  unfold keysDistinct; intros ND.
  destruct (lookupItem (itemKey new) t) eqn:E.
  - rewrite map_itemKey_replaceItem; [assumption | congruence].
  - rewrite replaceItem_absent by assumption.
    rewrite map_app; simpl.
    apply NoDup_app.
    + assumption.
    + constructor; [intros [] | constructor].
    + intros x HIn [E'|[]]; subst. now apply lookupItem_None in E.
Qed.

Lemma removeItem_absent id (t : Table Item) :
  lookupItem id t = None -> removeItem id t = t.
Proof.
  unfold lookupItem, removeItem; induction t as [|a t IH]; simpl; [reflexivity|].
  destruct (String.eqb (itemKey a) id); [discriminate|].
  intros E; simpl; now rewrite IH.
Qed.

Lemma lookupItem_removeItem id (t : Table Item) :
  lookupItem id (removeItem id t) = None.
Proof.
  unfold lookupItem, removeItem; induction t as [|a t IH]; simpl; [reflexivity|].
  destruct (String.eqb (itemKey a) id) eqn:E; simpl; [assumption|].
  now rewrite E.
Qed.

Lemma removeItem_idempotent id (t : Table Item) :
  removeItem id (removeItem id t) = removeItem id t.
Proof. apply removeItem_absent, lookupItem_removeItem. Qed.

Lemma removeItem_head it (t : Table Item) :
  keysDistinct (it :: t) -> removeItem (itemKey it) (it :: t) = t.
Proof.
  unfold keysDistinct; simpl; intros ND; inversion ND; subst.
  rewrite String.eqb_refl; simpl.
  apply removeItem_absent, lookupItem_None; assumption.
Qed.

(** ** Index order *)

Lemma insertByKey_In index a (l : list Item) x :
  In x (insertByKey index a l) <-> x = a \/ In x l.
Proof.
  induction l as [|b l IH]; simpl.
  - intuition.
  - destruct (sortKey index a <=? sortKey index b); simpl.
    + intuition.
    + rewrite IH; intuition.
Qed.

Lemma sortByKey_In index (l : list Item) x :
  In x (sortByKey index l) <-> In x l.
Proof.
  induction l as [|a l IH]; simpl; [tauto|].
  rewrite insertByKey_In, IH; intuition.
Qed.

Lemma indexItems_In index pk (t : Table Item) x :
  In x (indexItems index pk t) <-> In x t /\ inPartition index pk x = true.
Proof. unfold indexItems; rewrite sortByKey_In; apply filter_In. Qed.

Lemma sortByKey_ordered index (l : list Item) :
  keyOrdered index l -> sortByKey index l = l.
Proof.
  unfold keyOrdered; induction 1 as [|a l HS IH HR]; simpl; [reflexivity|].
  rewrite IH; destruct HR as [|b l Hab]; simpl; [reflexivity|].
  apply Z.leb_le in Hab; now rewrite Hab.
Qed.

Lemma filter_all {A} (p : A -> bool) (l : list A) :
  Forall (fun x => p x = true) l -> filter p l = l.
Proof.
  induction 1 as [|a l Ha _ IH]; simpl; [reflexivity|].
  now rewrite Ha, IH.
Qed.

Lemma indexItems_ordered index pk (t : Table Item) :
  Forall (fun x => inPartition index pk x = true) t ->
  keyOrdered index t -> indexItems index pk t = t.
Proof.
  intros HP HS; unfold indexItems.
  rewrite filter_all by assumption; now apply sortByKey_ordered.
Qed.

(** ** Runs that only depend on the table *)

Lemma steps_exec {A} (m : M Item A) T r T' :
  steps m T r T' ->
  fst (exec m T) = r /\ items (snd (exec m T)) = T'.
Proof.
  intros HS; destruct (HS []) as [log' E]; unfold exec; rewrite E; auto.
Qed.

Lemma steps_ret {A} (a : A) (T : Table Item) : steps (ret a) T (Ok a) T.
Proof. intros log; now exists log. Qed.

Lemma steps_fail {A} (e : Error) (T : Table Item) :
  steps (@fail Item A e) T (Err e) T.
Proof. intros log; now exists log. Qed.

Lemma steps_bind {A B} (m : M Item A) (k : A -> M Item B) T a T' r T'' :
  steps m T (Ok a) T' -> steps (k a) T' r T'' -> steps (bind m k) T r T''.
Proof.
  intros Hm Hk log; destruct (Hm log) as [log' E].
  destruct (Hk log') as [log'' E']; exists log''.
  unfold bind; now rewrite E.
Qed.

Lemma steps_bind_err {A B} (m : M Item A) (k : A -> M Item B) T e T' :
  steps m T (Err e) T' -> steps (bind m k) T (Err e) T'.
Proof.
  intros Hm log; destruct (Hm log) as [log' E]; exists log'.
  unfold bind; now rewrite E.
Qed.

Lemma steps_GetItem id T :
  steps (dynamoDB (GetItem id)) T (Ok (lookupItem id T)) T.
Proof. intros log; eexists; reflexivity. Qed.

Lemma steps_DeleteItem id T :
  steps (dynamoDB (DeleteItem id)) T (Ok tt) (removeItem id T).
Proof. intros log; eexists; reflexivity. Qed.

Lemma steps_Query index pk limit start T :
  steps (dynamoDB (Query index pk limit start)) T
    (Ok (queryPage index pk limit start T)) T.
Proof. intros log; eexists; reflexivity. Qed.

Lemma steps_UpdateItem_ok id e T new T' :
  updateTable id e T = inr (new, T') ->
  steps (dynamoDB (UpdateItem id e)) T (Ok new) T'.
Proof.
  intros E log; eexists; unfold dynamoDB, UpdateItem; simpl.
  rewrite E; reflexivity.
Qed.

Lemma steps_UpdateItem_err id e T exn :
  updateTable id e T = inl exn ->
  steps (dynamoDB (UpdateItem id e)) T (Err (handleDynamoDBError exn)) T.
Proof.
  intros E log; eexists; unfold dynamoDB, UpdateItem; simpl.
  rewrite E; reflexivity.
Qed.

Lemma readSteps_steps {A} (m : M Item A) T r :
  readSteps m T r -> steps m T r T.
Proof.
  intros HR log; destruct (HR log) as [ext [E _]]; eexists; exact E.
Qed.

Lemma readSteps_ret {A} (a : A) (T : Table Item) : readSteps (ret a) T (Ok a).
Proof.
  intros log; exists []; split; [|constructor].
  unfold ret; now rewrite app_nil_r.
Qed.

Lemma readSteps_fail {A} (e : Error) (T : Table Item) :
  readSteps (@fail Item A e) T (Err e).
Proof.
  intros log; exists []; split; [|constructor].
  unfold fail; now rewrite app_nil_r.
Qed.

Lemma readSteps_bind {A B} (m : M Item A) (k : A -> M Item B) T a r :
  readSteps m T (Ok a) -> readSteps (k a) T r -> readSteps (bind m k) T r.
Proof.
  intros Hm Hk log; destruct (Hm log) as [ext [E HF]].
  destruct (Hk (log ++ ext)%list) as [ext' [E' HF']].
  exists (ext ++ ext')%list; split.
  - unfold bind; rewrite E, E'; now rewrite app_assoc.
  - apply Forall_app; auto.
Qed.

Lemma readSteps_GetItem id (T : Table Item) :
  readSteps (dynamoDB (GetItem id)) T (Ok (lookupItem id T)).
Proof.
  intros log; exists [CGetItem id]; split; [reflexivity|].
  repeat constructor.
Qed.

Lemma readSteps_Query index pk limit start (T : Table Item) :
  readSteps (dynamoDB (Query index pk limit start)) T
    (Ok (queryPage index pk limit start T)).
Proof.
  intros log; exists [CQuery index start]; split; [reflexivity|].
  repeat constructor.
Qed.

(** ** Pages *)

Lemma queryPage_Items index pk limit start T :
  Items (queryPage index pk limit start T) =
  firstn limit (skipn (startOf start) (indexItems index pk T)).
Proof. destruct start; reflexivity. Qed.

Lemma queryPage_more index pk limit start T k :
  LastEvaluatedKey (queryPage index pk limit start T) = Some k ->
  k = (startOf start + limit)%nat /\
  (limit <= List.length (skipn (startOf start) (indexItems index pk T)))%nat.
Proof.
  unfold queryPage; simpl; fold (startOf start).
  destruct (Nat.leb_spec limit
              (List.length (skipn (startOf start) (indexItems index pk T))));
    [|discriminate].
  intros E; injection E as <-; auto.
Qed.

Lemma queryPage_last index pk limit start T :
  LastEvaluatedKey (queryPage index pk limit start T) = None ->
  Items (queryPage index pk limit start T) =
  skipn (startOf start) (indexItems index pk T).
Proof.
  rewrite queryPage_Items; unfold queryPage; simpl; fold (startOf start).
  destruct (Nat.leb_spec limit
              (List.length (skipn (startOf start) (indexItems index pk T))));
    [discriminate|].
  intros _; apply firstn_all2; lia.
Qed.

Lemma indexItems_length index pk (T : Table Item) :
  (List.length (indexItems index pk T) <= List.length T)%nat.
Proof.
  unfold indexItems.
  assert (HL : forall l : list Item,
             List.length (sortByKey index l) = List.length l).
  { induction l as [|a l IH]; simpl; [reflexivity|].
    rewrite <- IH; generalize (sortByKey index l) as s.
    induction s as [|b s IHs]; simpl; [reflexivity|].
    destruct (sortKey index a <=? sortKey index b); simpl; [reflexivity|].
    now rewrite IHs. }
  rewrite HL; apply filter_length_le.
Qed.

End StoreFacts.

End DynamoFacts.

(** * Properties of the [sdk] client *)

Module LegacyFacts.
Import Legacy DynamoFacts.

(** ** Running the primitive operations *)

Lemma Get_run c id (st : Store Shipment.t) :
  Get c id st =
  if String.eqb id EmptyString then (Err IDNotProvidedError, st)
  else (Ok (lookupItem id (items st)), logCall (CGetItem id) st).
Proof.
  unfold Get; destruct (String.eqb id EmptyString); [reflexivity|].
  unfold bind, dynamoDB, GetItem; simpl.
  destruct (lookupItem id (items st)); reflexivity.
Qed.

Lemma updateDynamoDBItem_run c id e (st : Store Shipment.t) :
  updateDynamoDBItem c id e st =
  match updateTable id e (items st) with
  | inr (new, t') =>
      (Ok new, {| items := t'; calls := (calls st ++ [CUpdateItem id e])%list |})
  | inl exn => (Err (handleDynamoDBError exn), logCall (CUpdateItem id e) st)
  end.
Proof.
  unfold updateDynamoDBItem, dynamoDB, UpdateItem; simpl.
  destruct (updateTable id e (items st)) as [exn|[new t']]; reflexivity.
Qed.

Lemma eqb_empty_false id : id <> EmptyString -> String.eqb id EmptyString = false.
Proof. intros NE; now apply String.eqb_neq. Qed.

(** ** Attribute updates and the version guard *)

Ltac split_names name :=
  repeat match goal with
         | |- context [String.eqb name ?x] =>
             destruct (String.eqb_spec name x); [subst name|]
         end.

Lemma setShipmentAttr_frame name v s s' :
  setShipmentAttr name v s = Some s' ->
  Shipment.ID s' = Shipment.ID s /\
  (name <> "system_info.version" -> version s' = version s).
Proof.
  unfold setShipmentAttr, setSystemInfoAttr, version.
  destruct s as [id data [sid cr lu st ve inq sel addq adddlq peek rem utc] q lut dlq].
  split_names name; destruct v; intros E; try discriminate;
    injection E as <-; simpl; split; congruence.
Qed.

Lemma removeShipmentAttr_frame name s s' :
  removeShipmentAttr name s = Some s' ->
  Shipment.ID s' = Shipment.ID s /\ version s' = version s.
Proof.
  unfold removeShipmentAttr, version.
  destruct s as [id data info q lut dlq].
  split_names name; intros E; try discriminate; injection E as <-; simpl; auto.
Qed.

Lemma getShipmentAttr_version s :
  getShipmentAttr "system_info.version" s = Some (VNum (version s)).
Proof. reflexivity. Qed.

Lemma setShipmentAttr_version n s :
  setShipmentAttr "system_info.version" (VNum n) s =
  Some (withSystemInfo
          (fun i => SystemInfo.mk (SystemInfo.ID i) (SystemInfo.CreationTimestamp i)
             (SystemInfo.LastUpdatedTimestamp i) (SystemInfo.Status i) n
             (SystemInfo.InQueue i) (SystemInfo.SelectedFromQueue i)
             (SystemInfo.AddToQueueTimestamp i) (SystemInfo.AddToDlqTimestamp i)
             (SystemInfo.PeekFromQueueTimestamp i)
             (SystemInfo.RemoveFromQueueTimestamp i) (SystemInfo.PeekUTCTimestamp i)) s).
Proof. destruct s as [id data [] q lut dlq]; reflexivity. Qed.

Lemma applyOperation_frame op (s s' : Shipment.t) :
  applyOperation op s = Some s' ->
  operationName op <> "system_info.version" ->
  Shipment.ID s' = Shipment.ID s /\ version s' = version s.
Proof.
  destruct op as [name v|name v|name]; simpl; intros E NE.
  - destruct v; try discriminate.
    destruct (getShipmentAttr name s) as [[]|]; try discriminate;
      apply setShipmentAttr_frame in E; intuition.
  - apply setShipmentAttr_frame in E; intuition.
  - now apply removeShipmentAttr_frame in E.
Qed.

Lemma applyUpdate_frame ops (s s' : Shipment.t) :
  applyUpdate ops s = Some s' ->
  Forall (fun op => operationName op <> "system_info.version") ops ->
  Shipment.ID s' = Shipment.ID s /\ version s' = version s.
Proof.
  revert s; induction ops as [|op ops IH]; simpl; intros s E HF.
  - injection E as <-; auto.
  - inversion HF; subst.
    destruct (applyOperation op s) as [s1|] eqn:E1; [|discriminate].
    apply applyOperation_frame in E1; [|assumption].
    apply IH in E; [|assumption]. intuition congruence.
Qed.

Lemma holds_version_condition cnd v (stored : option Shipment.t) :
  cnd = Equal "system_info.version" (VNum v) \/
  (exists c2, cnd = And (Equal "system_info.version" (VNum v)) c2) ->
  holds cnd stored = true ->
  exists s0, stored = Some s0 /\ version s0 = v.
Proof.
  assert (HE : holds (Equal "system_info.version" (VNum v)) stored = true ->
               exists s0, stored = Some s0 /\ version s0 = v).
  { simpl; destruct stored as [s0|]; [|discriminate].
    intros E; exists s0; split; [reflexivity | now apply Z.eqb_eq]. }
  intros [->|[c2 ->]]; [exact HE|].
  simpl holds at 1; intros E; apply andb_true_iff in E; destruct E as [E _].
  now apply HE.
Qed.

Lemma applyOperation_add_version (s s1 : Shipment.t) :
  applyOperation (OpAdd "system_info.version" (VNum 1)) s = Some s1 ->
  Shipment.ID s1 = Shipment.ID s /\ version s1 = version s + 1.
Proof.
  destruct s as [id0 d0 [] q0 l0 dlq0]; simpl; intros E.
  injection E as <-; auto.
Qed.

Lemma guarded_update id v rest cnd (T : Table Shipment.t) new T' :
  cnd = Equal "system_info.version" (VNum v) \/
  (exists c2, cnd = And (Equal "system_info.version" (VNum v)) c2) ->
  Forall (fun op => operationName op <> "system_info.version") rest ->
  updateTable id
    (mkExpression (OpAdd "system_info.version" (VNum 1) :: rest) (Some cnd)) T
    = inr (new, T') ->
  exists s0, lookupItem id T = Some s0 /\ version s0 = v /\
             version new = v + 1 /\ Shipment.ID new = id /\
             T' = replaceItem new T.
Proof.
  intros Hc HF E; unfold updateTable in E; simpl Condition in E; simpl Update in E.
  unfold holdsOpt in E.
  destruct (holds cnd (lookupItem id T)) eqn:Hh; [|discriminate].
  destruct (holds_version_condition cnd v _ Hc Hh) as [s0 [E0 Hv]].
  rewrite E0 in E; exists s0; split; [exact E0|].
  apply lookupItem_Some in E0; destruct E0 as [_ Hid]; simpl in Hid.
  cbn [applyUpdate] in E.
  destruct (applyOperation (OpAdd "system_info.version" (VNum 1)) s0)
    as [s1|] eqn:E1; [|discriminate].
  apply applyOperation_add_version in E1; destruct E1 as [Hid1 Hv1].
  destruct (applyUpdate rest s1) as [s2|] eqn:E2; [|discriminate].
  injection E as <- <-.
  apply applyUpdate_frame in E2; [|assumption].
  destruct E2 as [Hid2 Hv2].
  repeat split; congruence.
Qed.

(** ** The scan of [Peek] *)

Lemma peekLoop_run fuel c start (T : Table Shipment.t) :
  (List.length (skipn (startOf start) (queueIndex T)) < fuel)%nat ->
  readSteps (peekLoop fuel c start) T
    (Ok match find (eligible c) (skipn (startOf start) (queueIndex T)) with
        | Some item => mkPeekSelection (Shipment.ID item) (version item) true
        | None => mkPeekSelection EmptyString 0 false
        end).
Proof.
  revert start; induction fuel as [|fuel IH]; intros start Hfuel; [lia|].
  cbn [peekLoop].
  eapply readSteps_bind; [apply readSteps_Query|]; cbv beta.
  rewrite queryPage_Items; fold (queueIndex T).
  set (rest := skipn (startOf start) (queueIndex T)) in *.
  fold (eligible c).
  destruct (find (eligible c) (firstn 250 rest)) as [item|] eqn:EF.
  - apply find_firstn_Some in EF; rewrite EF; apply readSteps_ret.
  - destruct (LastEvaluatedKey (queryPage QueueingIndexName (VNum 1) 250 start T))
      as [k|] eqn:EL.
    + apply queryPage_more in EL; fold (queueIndex T) in EL; fold rest in EL.
      destruct EL as [-> Hlen].
      rewrite (find_firstn_None _ _ _ EF).
      replace (skipn 250 rest)
        with (skipn (startOf (Some (startOf start + 250)%nat)) (queueIndex T)).
      * apply IH; simpl startOf.
        unfold rest in *; rewrite length_skipn in *; lia.
      * simpl startOf; unfold rest; rewrite skipn_skipn.
        f_equal; lia.
    + apply queryPage_last in EL; rewrite queryPage_Items in EL.
      fold (queueIndex T) in EL; fold rest in EL.
      rewrite EL in EF; rewrite EF; apply readSteps_ret.
Qed.

Lemma PeekExpr_applies now v (s : Shipment.t) :
  applyUpdate (Update (PeekExpr (MarkAsPeeked now s) v)) s = Some (peekedAt now s).
Proof. destruct s as [id0 d0 [] q0 l0 dlq0]; reflexivity. Qed.

Lemma MarkAsPeeked_ID now s : Shipment.ID (MarkAsPeeked now s) = Shipment.ID s.
Proof. destruct s as [id0 d0 [] q0 l0 dlq0]; reflexivity. Qed.

Lemma PeekExpr_updates c (T : Table Shipment.t) s :
  lookupItem (Shipment.ID s) T = Some s ->
  updateTable (Shipment.ID s) (PeekExpr (MarkAsPeeked (clock c) s) (version s)) T =
  inr (peekedAt (clock c) s, replaceItem (peekedAt (clock c) s) T).
Proof.
  intros HG; unfold updateTable; rewrite HG.
  replace (holdsOpt _ _) with true.
  - now rewrite PeekExpr_applies.
  - simpl. unfold version. now rewrite Z.eqb_refl.
Qed.

Lemma queueIndex_In (T : Table Shipment.t) s :
  In s (queueIndex T) -> In s T.
Proof. unfold queueIndex; rewrite indexItems_In; tauto. Qed.

Lemma scan_fuel_enough (T : Table Shipment.t) :
  (List.length (skipn (startOf None) (queueIndex T)) < S (List.length T))%nat.
Proof.
  simpl; unfold queueIndex.
  pose proof (indexItems_length QueueingIndexName (VNum 1) T); lia.
Qed.

Lemma Peek_empty c (T : Table Shipment.t) :
  find (eligible c) (queueIndex T) = None ->
  readSteps (Peek c) T (Err EmptyQueueError).
Proof.
  intros HF log.
  destruct (peekLoop_run _ c None T (scan_fuel_enough T) log) as [ext [E HR]].
  simpl startOf in E; simpl skipn in E; rewrite HF in E.
  exists ext; split; [|assumption].
  unfold Peek, bind, withScanFuel; simpl items; rewrite E; reflexivity.
Qed.

Lemma Peek_claims c (T : Table Shipment.t) s :
  keysDistinct T ->
  find (eligible c) (queueIndex T) = Some s ->
  Shipment.ID s <> EmptyString ->
  forall log, exists ext,
    Forall (fun call => isWrite call = false) ext /\
    Peek c {| items := T; calls := log |} =
    (Ok (PeekResult.mk (resultOf (Shipment.ID s) (peekedAt (clock c) s))
           (clock c) (Some (peekedAt (clock c) s))),
     {| items := replaceItem (peekedAt (clock c) s) T;
        calls := (log ++ ext ++
                  [ CGetItem (Shipment.ID s);
                    CUpdateItem (Shipment.ID s)
                      (PeekExpr (MarkAsPeeked (clock c) s) (version s));
                    CGetItem (Shipment.ID s) ])%list |}).
Proof.
  intros ND HF NE log.
  destruct (peekLoop_run _ c None T (scan_fuel_enough T) log) as [ext [E HR]].
  simpl startOf in E; simpl skipn in E; rewrite HF in E.
  exists ext; split; [assumption|].
  assert (HG : lookupItem (Shipment.ID s) T = Some s).
  { apply find_some in HF; destruct HF as [HIn _].
    apply (lookupItem_In T s ND), queueIndex_In, HIn. }
  unfold Peek, bind, withScanFuel; cbn [items]; rewrite E.
  cbn [selectedID selectedVersion].
  rewrite (eqb_empty_false _ NE), Get_run, (eqb_empty_false _ NE).
  unfold logCall; cbn [items calls].
  rewrite HG, MarkAsPeeked_ID, updateDynamoDBItem_run; cbn [items calls].
  rewrite (PeekExpr_updates c T s HG).
  rewrite Get_run, (eqb_empty_false _ NE); unfold logCall; cbn [items calls].
  rewrite lookupItem_replaceItem; cbn [itemKey ShipmentSchema].
  replace (Shipment.ID (peekedAt (clock c) s)) with (Shipment.ID s) by reflexivity.
  rewrite String.eqb_refl; unfold logCall; simpl.
  repeat rewrite <- app_assoc; reflexivity.
Qed.

Lemma filter_reads (ext : list Call) :
  Forall (fun call => isWrite call = false) ext -> filter isWrite ext = [].
Proof.
  induction 1 as [|a l Ha _ IH]; simpl; [reflexivity|]. now rewrite Ha.
Qed.

Lemma version_ChangeStatus st now s : version (ChangeStatus st now s) = version s.
Proof. destruct s as [id0 d0 [] q0 l0 dlq0]; reflexivity. Qed.
Lemma version_MarkAsEnqueued now s : version (MarkAsEnqueued now s) = version s.
Proof. destruct s as [id0 d0 [] q0 l0 dlq0]; reflexivity. Qed.
Lemma version_MarkAsPeeked now s : version (MarkAsPeeked now s) = version s.
Proof. destruct s as [id0 d0 [] q0 l0 dlq0]; reflexivity. Qed.
Lemma version_MarkAsDLQ now s : version (MarkAsDLQ now s) = version s.
Proof. destruct s as [id0 d0 [] q0 l0 dlq0]; reflexivity. Qed.
Lemma version_TouchShipment now s : version (TouchShipment now s) = version s.
Proof. destruct s as [id0 d0 [] q0 l0 dlq0]; reflexivity. Qed.

Ltac names_differ :=
  repeat constructor; simpl; discriminate.

Lemma guardedBy_UpdateStatusExpr s : guardedBy (version s) (UpdateStatusExpr s).
Proof. do 2 eexists; split; [reflexivity|]; split; [left; reflexivity|names_differ]. Qed.
Lemma guardedBy_EnqueueExpr s : guardedBy (version s) (EnqueueExpr s).
Proof. do 2 eexists; split; [reflexivity|]; split; [left; reflexivity|names_differ]. Qed.
Lemma guardedBy_PeekExpr s v : guardedBy v (PeekExpr s v).
Proof. do 2 eexists; split; [reflexivity|]; split; [left; reflexivity|names_differ]. Qed.
Lemma guardedBy_RemoveExpr s ts : guardedBy (version s) (RemoveExpr s ts).
Proof. do 2 eexists; split; [reflexivity|]; split; [left; reflexivity|names_differ]. Qed.
Lemma guardedBy_RestoreExpr s : guardedBy (version s) (RestoreExpr s).
Proof. do 2 eexists; split; [reflexivity|]; split; [left; reflexivity|names_differ]. Qed.
Lemma guardedBy_SendToDLQExpr s : guardedBy (version s) (SendToDLQExpr s).
Proof.
  do 2 eexists; split; [reflexivity|]; split; [right; eexists; reflexivity|names_differ].
Qed.
Lemma guardedBy_TouchExpr s : guardedBy (version s) (TouchExpr s).
Proof. do 2 eexists; split; [reflexivity|]; split; [left; reflexivity|names_differ]. Qed.

Lemma guardedBy_update v e id (T : Table Shipment.t) new T' :
  guardedBy v e ->
  updateTable id e T = inr (new, T') ->
  exists s0, lookupItem id T = Some s0 /\ version s0 = v /\
             version new = v + 1 /\ Shipment.ID new = id /\
             T' = replaceItem new T.
Proof.
  intros [rest [cnd [-> [Hc HF]]]]; now apply guarded_update.
Qed.

Lemma bumped_by_update id e s (t : Table Shipment.t) new t' rid calls' :
  guardedBy (version s) e ->
  lookupItem id t = Some s ->
  updateTable id e t = inr (new, t') ->
  filter isWrite calls' = [CUpdateItem id e] ->
  bumped t (resultOf rid new) {| items := t'; calls := calls' |}.
Proof.
  intros HG HL HU HC; right; exists id, e, s; repeat split; try assumption.
  - intros T new' T' HU'.
    destruct (guardedBy_update _ _ _ _ _ _ HG HU') as [s0 [? [? [? _]]]].
    exists s0; auto.
  - destruct (guardedBy_update _ _ _ _ _ _ HG HU) as [s0 [? [? [? [Hid ->]]]]].
    exists new; split; [|assumption]. simpl items.
    rewrite lookupItem_replaceItem; simpl itemKey; rewrite Hid.
    now rewrite String.eqb_refl.
  - destruct (guardedBy_update _ _ _ _ _ _ HG HU) as [s0 [? [? [? _]]]].
    assumption.
Qed.

Ltac run_get id HE :=
  rewrite Get_run in HE;
  destruct (String.eqb id EmptyString); [discriminate|];
  unfold logCall in HE; cbn [items calls] in HE.

Lemma Peek_keyless c (T : Table Shipment.t) s :
  find (eligible c) (queueIndex T) = Some s ->
  Shipment.ID s = EmptyString ->
  readSteps (Peek c) T (Err EmptyQueueError).
Proof.
  intros HF HE log.
  destruct (peekLoop_run _ c None T (scan_fuel_enough T) log) as [ext [E HR]].
  simpl startOf in E; simpl skipn in E; rewrite HF in E.
  exists ext; split; [|assumption].
  unfold Peek, bind, withScanFuel; cbn [items]; rewrite E.
  cbn [selectedID]; rewrite HE; reflexivity.
Qed.

Ltac finish_update HE :=
  rewrite updateDynamoDBItem_run in HE; cbn [items calls] in HE;
  match type of HE with
  | context [updateTable ?id ?e ?t] =>
      let HU := fresh "HU" in
      destruct (updateTable id e t) as [exn|[new t']] eqn:HU; [discriminate|]
  end.

(** ** Optimistic concurrency *)

(** C1.  Every successful run of a mutating operation ([UpdateStatus],
    [Enqueue], [Peek], [Remove], [Restore], [SendToDLQ], [Touch]) either
    issues no write and leaves the table as it is, or issues exactly one
    [UpdateItem] on a record it observed at version [v]: the expression is
    guarded by [v], so on any table at all it executes only if the stored
    version is still [v] and then writes [v + 1]; here it executed, the
    stored version is [v + 1], and the reported version is [v + 1]. *)
Theorem mutation_checks_and_bumps_version c m (t : Table Shipment.t) r st' :
  keysDistinct t ->
  exec (perform c m) t = (Ok r, st') ->
  (filter isWrite (calls st') = [] /\ items st' = t) \/
  (exists id e s,
      filter isWrite (calls st') = [CUpdateItem id e] /\
      lookupItem id t = Some s /\
      guardedBy (version s) e /\
      (forall T new T', updateTable id e T = inr (new, T') ->
         exists s0, lookupItem id T = Some s0 /\ version s0 = version s /\
                    version new = version s + 1) /\
      (exists s', lookupItem id (items st') = Some s' /\
                  version s' = version s + 1) /\
      Result.Version r = version s + 1).
Proof.
  change (keysDistinct t -> exec (perform c m) t = (Ok r, st') -> bumped t r st').
  intros ND; destruct m as [id newStatus|id| |id|id|id|id];
    unfold exec, perform.
  - (* UpdateStatus *)
    unfold UpdateStatus, bind; destruct (String.eqb id EmptyString) eqn:Eid;
      [discriminate|]; intros HE.
    rewrite Get_run, Eid in HE; unfold logCall in HE; cbn [items calls] in HE.
    destruct (lookupItem id t) as [s|] eqn:HL; [|discriminate].
    destruct (String.eqb _ newStatus).
    + injection HE as <- <-; left; auto.
    + finish_update HE; injection HE as <- <-.
      eapply bumped_by_update; eauto.
      rewrite <- (version_ChangeStatus newStatus (clock c) s).
      apply guardedBy_UpdateStatusExpr.
  - (* Enqueue *)
    unfold Enqueue, bind; destruct (String.eqb id EmptyString) eqn:Eid;
      [discriminate|]; intros HE.
    rewrite Get_run, Eid in HE; unfold logCall in HE; cbn [items calls] in HE.
    destruct (lookupItem id t) as [s|] eqn:HL; [|discriminate].
    destruct (String.eqb _ StatusUnderConstruction); [discriminate|].
    destruct (negb _); [discriminate|].
    finish_update HE.
    rewrite Get_run, Eid in HE; unfold logCall in HE; cbn [items calls] in HE.
    injection HE as <- <-; cbn [EnqueueResult.Result].
    eapply bumped_by_update; eauto.
    rewrite <- (version_MarkAsEnqueued (clock c) s).
    apply guardedBy_EnqueueExpr.
  - (* Peek *)
    unfold bind; intros HE.
    destruct (find (eligible c) (queueIndex t)) as [s|] eqn:HF.
    + destruct (String.eqb_spec (Shipment.ID s) EmptyString) as [Hid|Hid].
      * destruct (Peek_keyless c t s HF Hid []) as [ext [E _]].
        rewrite E in HE; discriminate.
      * destruct (Peek_claims c t s ND HF Hid []) as [ext [HR E]].
        rewrite E in HE; injection HE as <- <-; cbn [PeekResult.Result].
        assert (HG : lookupItem (Shipment.ID s) t = Some s).
        { apply find_some in HF; destruct HF as [HIn _].
          apply (lookupItem_In t s ND), queueIndex_In, HIn. }
        eapply bumped_by_update; eauto using guardedBy_PeekExpr, PeekExpr_updates.
        simpl app; rewrite filter_app, (filter_reads _ HR); reflexivity.
    + destruct (Peek_empty c t HF []) as [ext [E _]].
      rewrite E in HE; discriminate.
  - (* Remove *)
    unfold Remove, bind; intros HE; run_get id HE.
    destruct (lookupItem id t) as [s|] eqn:HL; [|discriminate].
    destruct (IsRemoved s).
    + injection HE as <- <-; left; auto.
    + finish_update HE; injection HE as <- <-.
      eapply bumped_by_update; eauto using guardedBy_RemoveExpr.
  - (* Restore *)
    unfold Restore, bind; intros HE; run_get id HE.
    destruct (lookupItem id t) as [s|] eqn:HL; [|discriminate].
    destruct (IsEnqueued s).
    + injection HE as <- <-; left; auto.
    + finish_update HE; injection HE as <- <-.
      eapply bumped_by_update; eauto.
      rewrite <- (version_MarkAsEnqueued (clock c) s).
      apply guardedBy_RestoreExpr.
  - (* SendToDLQ *)
    unfold SendToDLQ, bind; intros HE; run_get id HE.
    destruct (lookupItem id t) as [s|] eqn:HL; [|discriminate].
    destruct (IsDLQ s).
    + injection HE as <- <-; left; auto.
    + finish_update HE; injection HE as <- <-.
      eapply bumped_by_update; eauto.
      rewrite <- (version_MarkAsDLQ (clock c) s).
      apply guardedBy_SendToDLQExpr.
  - (* Touch *)
    unfold Touch, bind; intros HE; run_get id HE.
    destruct (lookupItem id t) as [s|] eqn:HL; [|discriminate].
    finish_update HE; injection HE as <- <-.
    eapply bumped_by_update; eauto.
    rewrite <- (version_TouchShipment (clock c) s).
    apply guardedBy_TouchExpr.
Qed.

Lemma keysDistinct_single (s : Shipment.t) : keysDistinct [s].
Proof. repeat constructor; intros []. Qed.

Lemma mutation_checks_and_bumps_version_witness :
  let t := [newTestShipmentItemAsEnqueued "B-202" 0] in
  let run := exec (perform (testClient 10000) MPeek) t in
  let r := Result.mk "B-202" StatusProcessing (Some 10000) 2 in
  (filter isWrite (calls (snd run)) = [] /\ items (snd run) = t) \/
  (exists id e s,
      filter isWrite (calls (snd run)) = [CUpdateItem id e] /\
      lookupItem id t = Some s /\
      guardedBy (version s) e /\
      (forall T new T', updateTable id e T = inr (new, T') ->
         exists s0, lookupItem id T = Some s0 /\ version s0 = version s /\
                    version new = version s + 1) /\
      (exists s', lookupItem id (items (snd run)) = Some s' /\
                  version s' = version s + 1) /\
      Result.Version r = version s + 1).
Proof.
  intros t run r.
  apply (mutation_checks_and_bumps_version (testClient 10000) MPeek t r (snd run)).
  - apply keysDistinct_single.
  - reflexivity.
Defined.

(** ** Visibility *)

Lemma eligible_iff c s :
  eligible c s = true <->
  SystemInfo.SelectedFromQueue (Shipment.SystemInfo s) = false \/
  SystemInfo.PeekUTCTimestamp (Shipment.SystemInfo s) + visibilityTimeoutOf c
    <= clock c.
Proof.
  unfold eligible, IsQueueSelected.
  destruct (SystemInfo.SelectedFromQueue (Shipment.SystemInfo s)); simpl.
  - rewrite negb_true_iff, Z.ltb_ge; intuition discriminate.
  - intuition.
Qed.

(** C2.  The test [Peek] applies to a candidate: a record is eligible iff
    it is not selected or [now >= peek instant + visibility timeout].
    (a) When every record of the queue is selected and [now] is before its
    [t + timeout], [Peek] returns [EmptyQueueError] and leaves the table as
    it is.  (b) A successful [Peek] only ever returns an eligible record, so
    a record still inside its window is skipped.  (c) The first eligible
    record in index order -- in particular a selected record at or after
    [t + timeout] -- is claimed: [Peek] succeeds on it and its version, as
    reported and as stored, is incremented by one. *)
Theorem Peek_respects_visibility c (T : Table Shipment.t) :
  keysDistinct T ->
  (forall s,
      eligible c s = true <->
      SystemInfo.SelectedFromQueue (Shipment.SystemInfo s) = false \/
      SystemInfo.PeekUTCTimestamp (Shipment.SystemInfo s) + visibilityTimeoutOf c
        <= clock c) /\
  ((forall s, In s (queueIndex T) ->
      SystemInfo.SelectedFromQueue (Shipment.SystemInfo s) = true /\
      clock c < SystemInfo.PeekUTCTimestamp (Shipment.SystemInfo s)
                + visibilityTimeoutOf c) ->
   fst (exec (Peek c) T) = Err EmptyQueueError /\
   items (snd (exec (Peek c) T)) = T) /\
  (forall r st', exec (Peek c) T = (Ok r, st') ->
     exists s, In s (queueIndex T) /\
               Shipment.ID s = Result.ID (PeekResult.Result r) /\
               eligible c s = true) /\
  (forall s, find (eligible c) (queueIndex T) = Some s ->
     Shipment.ID s <> EmptyString ->
     exists r st',
       exec (Peek c) T = (Ok r, st') /\
       Result.ID (PeekResult.Result r) = Shipment.ID s /\
       Result.Version (PeekResult.Result r) = version s + 1 /\
       exists s', lookupItem (Shipment.ID s) (items st') = Some s' /\
                  version s' = version s + 1 /\
                  SystemInfo.SelectedFromQueue (Shipment.SystemInfo s') = true /\
                  SystemInfo.PeekUTCTimestamp (Shipment.SystemInfo s') = clock c).
Proof.
  intros ND; split; [apply eligible_iff|]; split; [|split].
  - intros Hall.
    assert (HF : find (eligible c) (queueIndex T) = None).
    { destruct (find (eligible c) (queueIndex T)) as [s|] eqn:HF; [|reflexivity].
      apply find_some in HF; destruct HF as [HIn He].
      destruct (Hall s HIn) as [Hsel Hlt].
      apply eligible_iff in He; destruct He as [He|He]; [congruence | lia]. }
    apply steps_exec, readSteps_steps, Peek_empty, HF.
  - intros r st' HE.
    destruct (find (eligible c) (queueIndex T)) as [s|] eqn:HF.
    + destruct (String.eqb_spec (Shipment.ID s) EmptyString) as [Hid|Hid].
      * destruct (Peek_keyless c T s HF Hid []) as [ext [E _]].
        unfold exec in HE; rewrite E in HE; discriminate.
      * destruct (Peek_claims c T s ND HF Hid []) as [ext [_ E]].
        unfold exec in HE; rewrite E in HE; injection HE as <- <-.
        apply find_some in HF; exists s; tauto.
    + destruct (Peek_empty c T HF []) as [ext [E _]].
      unfold exec in HE; rewrite E in HE; discriminate.
  - intros s HF Hid.
    destruct (Peek_claims c T s ND HF Hid []) as [ext [_ E]].
    do 2 eexists; split; [exact E|]; cbn [PeekResult.Result items].
    split; [reflexivity|]; split; [reflexivity|].
    exists (peekedAt (clock c) s); repeat split.
    rewrite lookupItem_replaceItem; cbn [itemKey ShipmentSchema].
    replace (Shipment.ID (peekedAt (clock c) s)) with (Shipment.ID s) by reflexivity.
    now rewrite String.eqb_refl.
Qed.

(** The two visibility cases of [TestQueueSDKClientPeek]: a record peeked at
    0:00:00 under a one-minute timeout is not offered at 0:00:59 and is
    claimed, at version 2, at 0:01:01. *)
Lemma Peek_respects_visibility_witness :
  let T := [newTestShipmentItemAsPeeked "B-202" 0] in
  (fst (exec (Peek (testClient 59000)) T) = Err EmptyQueueError /\
   items (snd (exec (Peek (testClient 59000)) T)) = T) /\
  (exists r st',
      exec (Peek (testClient 61000)) T = (Ok r, st') /\
      Result.ID (PeekResult.Result r) = "B-202" /\
      Result.Version (PeekResult.Result r) = 1 + 1 /\
      exists s', lookupItem "B-202" (items st') = Some s' /\
                 version s' = 1 + 1 /\
                 SystemInfo.SelectedFromQueue (Shipment.SystemInfo s') = true /\
                 SystemInfo.PeekUTCTimestamp (Shipment.SystemInfo s') = 61000).
Proof.
  intros T; split.
  - apply (proj1 (proj2 (Peek_respects_visibility (testClient 59000) T
                           (keysDistinct_single _)))).
    intros s [<-|[]]; split; [reflexivity | vm_compute; reflexivity].
  - apply (proj2 (proj2 (proj2 (Peek_respects_visibility (testClient 61000) T
                                  (keysDistinct_single _))))
             (newTestShipmentItemAsPeeked "B-202" 0)).
    + reflexivity.
    + discriminate.
Defined.

(** ** Reads and deletes by primary key *)

(** C9.  [Get] called with the empty string as ID returns
    [IDNotProvidedError] and issues no store call at all (the call log stays
    empty); a non-empty ID that is not in the table is a different case: one
    [GetItem] is issued and the result is [nil] with no error. *)
Theorem Get_empty_id_issues_no_read c (t : Table Shipment.t) :
  exec (Get c EmptyString) t = (Err IDNotProvidedError, {| items := t; calls := [] |}) /\
  (forall id, id <> EmptyString -> lookupItem id t = None ->
     exec (Get c id) t = (Ok None, {| items := t; calls := [CGetItem id] |})).
Proof.
  split; [reflexivity|].
  intros id NE HNone; unfold exec; rewrite Get_run, eqb_empty_false by assumption.
  simpl; now rewrite HNone.
Qed.

(** C7.  [Delete] with an empty ID returns [IDNotProvidedError] without
    touching the store; with a non-empty ID it issues exactly one
    unconditional [DeleteItem] and succeeds, whether or not the ID is in the
    table (an absent ID leaves the table as it is), and two consecutive
    deletes of the same ID both succeed. *)
Theorem Delete_is_unconditional_and_idempotent c (t : Table Shipment.t) :
  exec (Delete c EmptyString) t = (Err IDNotProvidedError, {| items := t; calls := [] |}) /\
  (forall id, id <> EmptyString ->
     exec (Delete c id) t =
       (Ok tt, {| items := removeItem id t; calls := [CDeleteItem id] |}) /\
     (lookupItem id t = None -> removeItem id t = t) /\
     exec (Delete c id ;;; Delete c id) t =
       (Ok tt, {| items := removeItem id t;
                  calls := [CDeleteItem id; CDeleteItem id] |})).
Proof.
  split; [reflexivity|].
  intros id NE; unfold exec, Delete, bind.
  rewrite eqb_empty_false by assumption; simpl.
  repeat split.
  - apply removeItem_absent.
  - unfold dynamoDB, DeleteItem; simpl.
    now rewrite removeItem_idempotent.
Qed.

(** [Put], the write of this package, is not a conditional insert: on an
    ID that is already stored it deletes the record and writes the new one,
    without error. *)
Lemma Put_replaces_existing c shipment (T : Table Shipment.t) existing :
  Shipment.ID shipment <> EmptyString ->
  lookupItem (Shipment.ID shipment) T = Some existing ->
  exec (Put c shipment) T =
    (Ok tt,
     {| items := (removeItem (Shipment.ID shipment) T ++ [shipment])%list;
        calls := [ CGetItem (Shipment.ID shipment);
                   CDeleteItem (Shipment.ID shipment);
                   CPutItem (Shipment.ID shipment) None ] |}).
Proof.
  intros NE HG; unfold exec, Put, bind.
  rewrite Get_run, (eqb_empty_false _ NE); cbn [items]; rewrite HG.
  unfold put, dynamoDB, DeleteItem, PutItem, logCall; cbn [items calls holdsOpt].
  rewrite replaceItem_absent; [reflexivity|].
  apply lookupItem_removeItem.
Qed.

(** After a successful [Peek] of the first eligible record [s], the stored
    record is [peekedAt now s]: its index sort key, the top-level
    [last_updated_timestamp], is the peek instant. *)
Lemma Peek_stores_peekedAt c (T : Table Shipment.t) s :
  keysDistinct T ->
  find (eligible c) (queueIndex T) = Some s ->
  Shipment.ID s <> EmptyString ->
  items (snd (exec (Peek c) T)) = replaceItem (peekedAt (clock c) s) T /\
  Shipment.LastUpdatedTimestamp (peekedAt (clock c) s) = FormatRFC3339 (clock c).
Proof.
  intros ND HF NE; destruct (Peek_claims c T s ND HF NE []) as [ext [_ E]].
  unfold exec; rewrite E; split; reflexivity.
Qed.

(** ** Status updates *)

(** C10.  [UpdateStatus] with the status the record already has is a no-op:
    it returns a [Result] carrying the record's ID, status,
    [LastUpdatedTimestamp] and [Version]; the only store call is the read,
    and the table, hence the stored record and its version, is unchanged. *)
Theorem UpdateStatus_same_status_is_noop c id newStatus
    (t : Table Shipment.t) shipment :
  id <> EmptyString ->
  lookupItem id t = Some shipment ->
  SystemInfo.Status (Shipment.SystemInfo shipment) = newStatus ->
  exec (UpdateStatus c id newStatus) t =
    (Ok (Result.mk (Shipment.ID shipment)
           (SystemInfo.Status (Shipment.SystemInfo shipment))
           (SystemInfo.LastUpdatedTimestamp (Shipment.SystemInfo shipment))
           (SystemInfo.Version (Shipment.SystemInfo shipment))),
     {| items := t; calls := [CGetItem id] |}).
Proof.
  intros NE HGet HSame; unfold exec, UpdateStatus, bind.
  rewrite eqb_empty_false, Get_run, eqb_empty_false by assumption; simpl.
  rewrite HGet, HSame, String.eqb_refl; reflexivity.
Qed.

Lemma Get_empty_id_issues_no_read_witness :
  exec (Get (testClient 5000) "B-202") [newTestShipmentItem "A-101" 1000] =
  (Ok None, {| items := [newTestShipmentItem "A-101" 1000]; calls := [CGetItem "B-202"] |}).
Proof.
  apply (proj2 (Get_empty_id_issues_no_read (testClient 5000)
                  [newTestShipmentItem "A-101" 1000])).
  - discriminate.
  - reflexivity.
Defined.

Lemma Delete_is_unconditional_and_idempotent_witness :
  exec (Delete (testClient 5000) "B-202") [newTestShipmentItem "A-101" 1000] =
  (Ok tt, {| items := [newTestShipmentItem "A-101" 1000]; calls := [CDeleteItem "B-202"] |}).
Proof.
  apply (proj2 (Delete_is_unconditional_and_idempotent
                  (testClient 5000) [newTestShipmentItem "A-101" 1000]) "B-202").
  discriminate.
Defined.

Lemma UpdateStatus_same_status_is_noop_witness :
  exec (UpdateStatus (testClient 5000) "A-101" StatusUnderConstruction)
       [newTestShipmentItem "A-101" 1000] =
  (Ok (Result.mk "A-101" StatusUnderConstruction (Some 1000) 1),
   {| items := [newTestShipmentItem "A-101" 1000]; calls := [CGetItem "A-101"] |}).
Proof.
  apply (UpdateStatus_same_status_is_noop (testClient 5000) "A-101"
           StatusUnderConstruction [newTestShipmentItem "A-101" 1000]
           (newTestShipmentItem "A-101" 1000)).
  - discriminate.
  - reflexivity.
  - reflexivity.
Defined.

(** ** Queue statistics *)

Lemma firstn_snoc {A} (n : nat) (l : list A) (x : A) :
  firstn n (l ++ [x]) =
  if (List.length (firstn n l) <? n)%nat then (firstn n l ++ [x])%list
  else firstn n l.
Proof.
  revert l; induction n as [|n IH]; intros l; [reflexivity|].
  destruct l as [|a l]; [simpl; now rewrite firstn_nil|].
  simpl app; cbn [firstn List.length]; rewrite IH.
  change (S (List.length (firstn n l)) <? S n)%nat
    with (List.length (firstn n l) <? n)%nat.
  destruct (List.length (firstn n l) <? n)%nat; reflexivity.
Qed.

Lemma statsItem_statsOf pre x :
  statsItem (statsOf pre) x = statsOf (pre ++ [x]).
Proof.
  unfold statsItem, statsOf; cbn [totalQueueSize peekedRecords allQueueIDs processingIDs].
  fold (selected x).
  rewrite filter_app, !map_app, !length_app; cbn [filter map List.length].
  rewrite firstn_snoc.
  destruct (selected x); cbn [map List.length].
  - rewrite firstn_snoc; f_equal; lia.
  - rewrite !app_nil_r; f_equal; lia.
Qed.

Lemma fold_statsItem l pre :
  fold_left statsItem l (statsOf pre) = statsOf (pre ++ l).
Proof.
  revert pre; induction l as [|x l IH]; intros pre; simpl.
  - now rewrite app_nil_r.
  - rewrite statsItem_statsOf, IH, <- app_assoc; reflexivity.
Qed.

Lemma statsLoop_run fuel c start v (T : Table Shipment.t) :
  (List.length (skipn (startOf start) (queueIndex T)) < fuel)%nat ->
  readSteps (statsLoop fuel c start v) T
    (Ok (fold_left statsItem (skipn (startOf start) (queueIndex T)) v)).
Proof.
  revert start v; induction fuel as [|fuel IH]; intros start v Hfuel; [lia|].
  cbn [statsLoop].
  eapply readSteps_bind; [apply readSteps_Query|]; cbv beta.
  rewrite queryPage_Items; fold (queueIndex T).
  set (rest := skipn (startOf start) (queueIndex T)) in *.
  destruct (LastEvaluatedKey (queryPage QueueingIndexName (VNum 1) 250 start T))
    as [k|] eqn:EL.
  - apply queryPage_more in EL; fold (queueIndex T) in EL; fold rest in EL.
    destruct EL as [-> Hlen].
    rewrite <- (firstn_skipn 250 rest) at 2; rewrite fold_left_app.
    replace (skipn 250 rest)
      with (skipn (startOf (Some (startOf start + 250)%nat)) (queueIndex T)).
    + apply IH; simpl startOf.
      unfold rest in *; rewrite length_skipn in *; lia.
    + simpl startOf; unfold rest; rewrite skipn_skipn; f_equal; lia.
  - apply queryPage_last in EL; rewrite queryPage_Items in EL.
    fold (queueIndex T) in EL; fold rest in EL.
    rewrite EL; apply readSteps_ret.
Qed.

Lemma GetQueueStats_run c (T : Table Shipment.t) :
  readSteps (GetQueueStats c) T
    (Ok (let v := statsOf (queueIndex T) in
         QueueStats.mk (allQueueIDs v) (processingIDs v) (totalQueueSize v)
           (peekedRecords v) (totalQueueSize v - peekedRecords v))).
Proof.
  unfold GetQueueStats.
  eapply readSteps_bind; [|apply readSteps_ret].
  intros log.
  destruct (statsLoop_run _ c None (mkStatsVars 0 0 [] []) T (scan_fuel_enough T) log)
    as [ext [E HR]].
  exists ext; split; [|assumption].
  unfold withScanFuel; cbn [items]; rewrite E.
  simpl startOf; simpl skipn.
  change (mkStatsVars 0 0 [] []) with (statsOf []).
  now rewrite fold_statsItem.
Qed.

(** C8 (as amended).  [GetQueueStats] reports, for every table: the number
    of records in the standard queue; as processing, the number of those
    whose [queue_selected] flag is set, whether or not their visibility
    window has passed; as not started, the difference; the first
    [min 100 total] IDs in index order; and the first [min 100 processing]
    IDs of flagged records in index order.  It leaves the table as it is. *)
Theorem GetQueueStats_counts_selected_flags c (T : Table Shipment.t) :
  let I := queueIndex T in
  let run := exec (GetQueueStats c) T in
  fst run =
    Ok (QueueStats.mk
          (firstn 100 (map Shipment.ID I))
          (firstn 100 (map Shipment.ID (filter selected I)))
          (Z.of_nat (List.length I))
          (Z.of_nat (List.length (filter selected I)))
          (Z.of_nat (List.length I) - Z.of_nat (List.length (filter selected I)))) /\
  items (snd run) = T /\
  List.length (firstn 100 (map Shipment.ID I)) = Nat.min 100 (List.length I) /\
  List.length (firstn 100 (map Shipment.ID (filter selected I))) =
    Nat.min 100 (List.length (filter selected I)).
Proof.
  intros I run.
  destruct (steps_exec _ _ _ _ (readSteps_steps _ _ _ (GetQueueStats_run c T)))
    as [Hr Hi].
  repeat split.
  - exact Hr.
  - exact Hi.
  - now rewrite length_firstn, length_map.
  - now rewrite length_firstn, length_map.
Qed.

(** C8, as stated, fails: a record peeked at 0:00:00 under a one-minute
    timeout is no longer invisible at 0:02:00 -- the visibility test of
    [Peek] classifies no record of the queue as still selected -- yet
    [GetQueueStats] reports one record in processing. *)
Lemma GetQueueStats_visibility_counterexample :
  let c := testClient (testDate + 120000) in
  let T := [newTestShipmentItemAsPeeked "C-303" testDate] in
  exists q,
    fst (exec (GetQueueStats c) T) = Ok q /\
    QueueStats.TotalRecordsInProcessing q = 1 /\
    Z.of_nat (List.length
                (filter (IsQueueSelected (clock c) (visibilityTimeoutOf c))
                        (queueIndex T))) = 0 /\
    QueueStats.TotalRecordsInProcessing q <>
    Z.of_nat (List.length
                (filter (IsQueueSelected (clock c) (visibilityTimeoutOf c))
                        (queueIndex T))).
Proof.
  intros c T; eexists; split; [vm_compute; reflexivity|].
  split; [reflexivity|]; split; [reflexivity|].
  vm_compute; discriminate.
Qed.

(** ** The queue position of a peeked record *)

(** C4, evaluated.  Two records enqueued one second apart; [Peek] ten
    seconds later claims the older one, "A-101", and its update expression
    sets the top-level [last_updated_timestamp] -- the sort key of the queue
    index -- to the peek instant: the record moves behind "B-202" in index
    order. *)
Theorem Peek_restamps_the_index_sort_key :
  let T := [ newTestShipmentItemAsEnqueued "A-101" testDate;
             newTestShipmentItemAsEnqueued "B-202" (testDate + 1000) ] in
  let c := testClient (testDate + 10000) in
  map Shipment.ID (queueIndex T) = ["A-101"; "B-202"] /\
  In (OpSet "last_updated_timestamp" (VTime (Some (testDate + 10000))))
     (Update (PeekExpr (MarkAsPeeked (clock c)
                          (newTestShipmentItemAsEnqueued "A-101" testDate)) 1)) /\
  exists r st',
    exec (Peek c) T = (Ok r, st') /\
    Result.ID (PeekResult.Result r) = "A-101" /\
    option_map Shipment.LastUpdatedTimestamp (lookupItem "A-101" T)
      = Some (Some testDate) /\
    option_map Shipment.LastUpdatedTimestamp (lookupItem "A-101" (items st'))
      = Some (Some (testDate + 10000)) /\
    map Shipment.ID (queueIndex (items st')) = ["B-202"; "A-101"].
Proof.
  intros T c; split; [reflexivity|]; split; [vm_compute; tauto|].
  do 2 eexists; split; [vm_compute; reflexivity|].
  repeat split.
Qed.

(** ** Moving a record to the DLQ *)

Lemma SendToDLQExpr_applies now (s : Shipment.t) :
  applyUpdate (Update (SendToDLQExpr (MarkAsDLQ now s))) s = Some (sentToDLQAt now s).
Proof. destruct s as [id0 d0 [] q0 l0 dlq0]; reflexivity. Qed.

Lemma SendToDLQExpr_updates now id (T : Table Shipment.t) s :
  lookupItem id T = Some s ->
  SystemInfo.InQueue (Shipment.SystemInfo s) = 1 ->
  updateTable id (SendToDLQExpr (MarkAsDLQ now s)) T =
  inr (sentToDLQAt now s, replaceItem (sentToDLQAt now s) T).
Proof.
  intros HG HQ; unfold updateTable; rewrite HG.
  replace (holdsOpt _ _) with true.
  - now rewrite SendToDLQExpr_applies.
  - destruct s as [id0 d0 [] q0 l0 dlq0]; simpl in *; subst.
    now rewrite Z.eqb_refl.
Qed.

Lemma SendToDLQ_already_in_DLQ c id (T : Table Shipment.t) s :
  id <> EmptyString ->
  lookupItem id T = Some s ->
  IsDLQ s = true ->
  exec (SendToDLQ c id) T =
    (Ok (resultOf id s), {| items := T; calls := [CGetItem id] |}).
Proof.
  intros NE HG HD; unfold exec, SendToDLQ, bind.
  rewrite Get_run, (eqb_empty_false _ NE); cbn [items]; rewrite HG, HD.
  reflexivity.
Qed.

Lemma SendToDLQ_from_queue c id (T : Table Shipment.t) s :
  id <> EmptyString ->
  lookupItem id T = Some s ->
  IsDLQ s = false ->
  SystemInfo.InQueue (Shipment.SystemInfo s) = 1 ->
  exec (SendToDLQ c id) T =
    (Ok (resultOf id (sentToDLQAt (clock c) s)),
     {| items := replaceItem (sentToDLQAt (clock c) s) T;
        calls := [CGetItem id;
                  CUpdateItem id (SendToDLQExpr (MarkAsDLQ (clock c) s))] |}).
Proof.
  intros NE HG HD HQ; unfold exec, SendToDLQ, bind.
  rewrite Get_run, (eqb_empty_false _ NE); cbn [items]; rewrite HG, HD.
  rewrite updateDynamoDBItem_run; unfold logCall; cbn [items calls].
  rewrite (SendToDLQExpr_updates (clock c) id T s HG HQ); reflexivity.
Qed.

(** ** The cases of sdk_test.go

    The expected values are built as the tests build them, from the
    records of [newTestShipmentItem...] and the transitions of [Shipment]. *)

Example TestQueueSDKClientPeek_not_selected :
  let s := setVersion 2 (MarkAsPeeked (testDate + 10000)
                           (newTestShipmentItemAsEnqueued "B-202" testDate)) in
  fst (exec (Peek (testClient (testDate + 10000)))
         [newTestShipmentItem "A-101" testDate;
          newTestShipmentItemAsEnqueued "B-202" testDate]) =
    Ok (PeekResult.mk (wantResult s)
          (SystemInfo.PeekUTCTimestamp (Shipment.SystemInfo s)) (Some s)).
Proof. vm_compute; reflexivity. Qed.

Example TestQueueSDKClientPeek_timeout_expired :
  let s := setVersion 2 (MarkAsPeeked (testDate + 61000)
                           (newTestShipmentItemAsPeeked "B-202" testDate)) in
  fst (exec (Peek (testClient (testDate + 61000)))
         [newTestShipmentItem "A-101" testDate;
          newTestShipmentItemAsPeeked "B-202" testDate]) =
    Ok (PeekResult.mk (wantResult s)
          (SystemInfo.PeekUTCTimestamp (Shipment.SystemInfo s)) (Some s)).
Proof. vm_compute; reflexivity. Qed.

Example TestQueueSDKClientPeek_within_timeout :
  fst (exec (Peek (testClient (testDate + 59000)))
         [newTestShipmentItem "A-101" testDate;
          newTestShipmentItemAsPeeked "B-202" testDate]) =
    Err EmptyQueueError.
Proof. vm_compute; reflexivity. Qed.

Example TestQueueSDKClientPeek_empty_queue :
  fst (exec (Peek (testClient testDate))
         [newTestShipmentItem "A-101" testDate;
          newTestShipmentItemAsReady "A-202" testDate;
          newTestShipmentItemAsDLQ "A-303" testDate]) =
    Err EmptyQueueError.
Proof. vm_compute; reflexivity. Qed.

Example TestQueueSDKClientDequeue_not_selected :
  let s := setVersion 3
             (MarkAsRemoved (testDate + 10000)
                (MarkAsPeeked (testDate + 10000)
                   (newTestShipmentItemAsEnqueued "B-202" testDate))) in
  fst (exec (Dequeue (testClient (testDate + 10000)))
         [newTestShipmentItem "A-101" testDate;
          newTestShipmentItemAsEnqueued "B-202" testDate]) =
    Ok (DequeueResult.mk (wantResult s) (Some s)).
Proof. vm_compute; reflexivity. Qed.

Example TestQueueSDKClientGetQueueStats_enqueued_or_peeked :
  fst (exec (GetQueueStats (testClient testDate))
         [newTestShipmentItem "A-101" testDate;
          newTestShipmentItemAsEnqueued "B-202" (testDate + 1000);
          newTestShipmentItemAsPeeked "C-303" (testDate + 2000);
          newTestShipmentItemAsPeeked "D-404" (testDate + 3000)]) =
    Ok (QueueStats.mk ["B-202"; "C-303"; "D-404"] ["C-303"; "D-404"] 3 2 1).
Proof. vm_compute; reflexivity. Qed.

Example TestQueueSDKClientUpdateStatus_to_ready :
  fst (exec (UpdateStatus (testClient (testDate + 10000)) "A-101" StatusReadyToShip)
         [newTestShipmentItem "A-101" testDate]) =
    Ok (Result.mk "A-101" StatusReadyToShip (FormatRFC3339 (testDate + 10000)) 2).
Proof. vm_compute; reflexivity. Qed.

Example TestQueueSDKClientEnqueue_enqueue :
  let s := setVersion 2 (MarkAsEnqueued (testDate + 10000)
                           (newTestShipmentItemAsReady "A-101" testDate)) in
  fst (exec (Enqueue (testClient (testDate + 10000)) "A-101")
         [newTestShipmentItemAsReady "A-101" testDate]) =
    Ok (EnqueueResult.mk
          (Result.mk "A-101" StatusReadyToShip (FormatRFC3339 (testDate + 10000)) 2)
          (Some s)).
Proof. vm_compute; reflexivity. Qed.

Example TestQueueSDKClientEnqueue_errors :
  fst (exec (Enqueue (testClient testDate) EmptyString)
         [newTestShipmentItem "A-101" testDate]) = Err IDNotProvidedError /\
  fst (exec (Enqueue (testClient testDate) "B-202")
         [newTestShipmentItem "A-101" testDate]) = Err IDNotFoundError /\
  fst (exec (Enqueue (testClient testDate) "A-101")
         [newTestShipmentItem "A-101" testDate]) = Err RecordNotConstructedError /\
  fst (exec (Enqueue (testClient testDate) "A-101")
         [newTestShipmentItemAsPeeked "A-101" testDate]) = Err IllegalStateError.
Proof. vm_compute; auto. Qed.

Example TestQueueSDKClientRemove_can_remove :
  let s := setVersion 2 (MarkAsRemoved (testDate + 10000)
                           (newTestShipmentItem "A-101" testDate)) in
  fst (exec (Remove (testClient (testDate + 10000)) "A-101")
         [newTestShipmentItem "A-101" testDate]) = Ok (wantResult s).
Proof. vm_compute; reflexivity. Qed.

Example TestQueueSDKClientRemove_already_removed :
  let s := newTestShipmentItemAsRemoved "A-101" testDate in
  exec (Remove (testClient (testDate + 10000)) "A-101") [s] =
    (Ok (wantResult s), {| items := [s]; calls := [CGetItem "A-101"] |}).
Proof. vm_compute; reflexivity. Qed.

Example TestQueueSDKClientPut_duplicated_id :
  let s := newTestShipmentItem "A-101" testDate in
  exec (Put (testClient testDate) s ;;; Get (testClient testDate) "A-101")
       [newTestShipmentItem "A-101" (testDate - 5000)] =
    (Ok (Some s),
     {| items := [s];
        calls := [CGetItem "A-101"; CDeleteItem "A-101"; CPutItem "A-101" None;
                  CGetItem "A-101"] |}).
Proof. vm_compute; reflexivity. Qed.

End LegacyFacts.

(** * Properties of the [dynamomq] client *)

Module MQFacts.
Import MQ DynamoFacts.

Lemma eqb_empty_false' id : id <> EmptyString -> String.eqb id EmptyString = false.
Proof. intros NE; now apply String.eqb_neq. Qed.

(** ** Sending *)

Lemma SendMessage_fresh c id data delay (T : Table Message.t) log :
  id <> EmptyString ->
  lookupItem id T = None ->
  SendMessage c id data delay {| items := T; calls := log |} =
    (Ok (NewMessage id data (clock c) delay),
     {| items := (T ++ [NewMessage id data (clock c) delay])%list;
        calls := (log ++ [CPutItem id (Some (AttributeNotExists "id"))])%list |}).
Proof.
  intros NE HN; unfold SendMessage, PutItem.
  rewrite (eqb_empty_false' _ NE); cbn [items calls itemKey MessageSchema Message.ID NewMessage logCall].
  rewrite HN; cbn [holdsOpt holds].
  rewrite replaceItem_absent by exact HN; reflexivity.
Qed.

Lemma SendMessage_duplicate c id data delay (T : Table Message.t) log existing :
  id <> EmptyString ->
  lookupItem id T = Some existing ->
  SendMessage c id data delay {| items := T; calls := log |} =
    (Err IDDuplicatedError,
     {| items := T;
        calls := (log ++ [CPutItem id (Some (AttributeNotExists "id"))])%list |}).
Proof.
  intros NE HS; unfold SendMessage, PutItem.
  rewrite (eqb_empty_false' _ NE); cbn [items calls itemKey MessageSchema Message.ID NewMessage logCall].
  rewrite HS; reflexivity.
Qed.

Lemma lookupItem_snoc_same (T : Table Message.t) (m : Message.t) :
  lookupItem (Message.ID m) T = None ->
  lookupItem (Message.ID m) (T ++ [m])%list = Some m.
Proof.
  intros HN; rewrite <- (replaceItem_absent m T HN), lookupItem_replaceItem.
  cbn [itemKey MessageSchema]; now rewrite String.eqb_refl.
Qed.

(** C3.  [SendMessage] with a non-empty ID issues one store call, a
    [PutItem] under the condition [attribute_not_exists(id)], and no delete.
    When the ID is already in the table the call returns
    [IDDuplicatedError] and the table -- the existing record included -- is
    exactly what it was.  In particular a second [SendMessage] with the ID
    of a first, successful one is rejected and the record of the first send
    stays. *)
Theorem SendMessage_duplicate_is_rejected c id data delay (T : Table Message.t) :
  id <> EmptyString ->
  calls (snd (exec (SendMessage c id data delay) T)) =
    [CPutItem id (Some (AttributeNotExists "id"))] /\
  (forall existing, lookupItem id T = Some existing ->
     exec (SendMessage c id data delay) T =
       (Err IDDuplicatedError,
        {| items := T;
           calls := [CPutItem id (Some (AttributeNotExists "id"))] |})) /\
  (lookupItem id T = None ->
   forall c2 data2 delay2,
     let first := NewMessage id data (clock c) delay in
     let run := exec (SendMessage c id data delay ;;;
                      SendMessage c2 id data2 delay2) T in
     fst run = Err IDDuplicatedError /\
     items (snd run) = (T ++ [first])%list /\
     lookupItem id (items (snd run)) = Some first).
Proof.
  intros NE; split; [|split].
  - unfold exec; destruct (lookupItem id T) as [existing|] eqn:HL.
    + now rewrite (SendMessage_duplicate c id data delay T [] existing NE HL).
    + now rewrite (SendMessage_fresh c id data delay T [] NE HL).
  - intros existing HL; unfold exec.
    now rewrite (SendMessage_duplicate c id data delay T [] existing NE HL).
  - intros HL c2 data2 delay2 first run.
    assert (HS : lookupItem id (T ++ [first])%list = Some first)
      by now apply (lookupItem_snoc_same T first).
    assert (HR : run = (Err IDDuplicatedError,
                        {| items := (T ++ [first])%list;
                           calls := [CPutItem id (Some (AttributeNotExists "id"));
                                     CPutItem id (Some (AttributeNotExists "id"))] |})).
    { unfold run, exec, bind.
      rewrite (SendMessage_fresh c id data delay T [] NE HL).
      now rewrite (SendMessage_duplicate c2 id data2 delay2 _ _ first NE HS). }
    rewrite HR; cbn [fst snd items]; auto.
Qed.

(** The duplicate case of [TestDynamoMQClientSendMessage]: "A-101" is in
    the table; sending "A-101" again returns [IDDuplicatedError].  And from
    the empty table: the first send of "A-101" stores it, the second is
    rejected and the first record stays. *)
Lemma SendMessage_duplicate_is_rejected_witness :
  let c := fifoTestClient (testDate + 10000) in
  let T := [newTestMessageItemAsReady "A-101" testDate] in
  let first := NewMessage "A-101" "first" (testDate + 10000) 0 in
  let run := exec (SendMessage c "A-101" "first" 0 ;;;
                   SendMessage c "A-101" "second" 0) [] in
  exec (SendMessage c "A-101" "A-101" 0) T =
    (Err IDDuplicatedError,
     {| items := T; calls := [CPutItem "A-101" (Some (AttributeNotExists "id"))] |}) /\
  (fst run = Err IDDuplicatedError /\
   items (snd run) = [first] /\
   lookupItem "A-101" (items (snd run)) = Some first).
Proof.
  intros c T first run; split.
  - apply (proj1 (proj2 (SendMessage_duplicate_is_rejected
                           c "A-101" "A-101" 0 T ltac:(discriminate)))
             (newTestMessageItemAsReady "A-101" testDate)).
    reflexivity.
  - apply (proj2 (proj2 (SendMessage_duplicate_is_rejected
                           c "A-101" "first" 0 [] ltac:(discriminate)))
             eq_refl c "second" 0).
Defined.

(** ** Receiving in FIFO mode *)

Lemma ReceiveExpr_applies now vt (m processing : Message.t) :
  markAsProcessing now vt m = Ok processing ->
  applyUpdate (Update (ReceiveExpr processing)) m = Some (receivedAt now vt m) /\
  Message.Version processing = Message.Version m.
Proof.
  unfold markAsProcessing; destruct m as [id d [] st rc ve cr up se re qa v0];
    [|discriminate]; cbn [Message.QueueType].
  match goal with |- context [if ?b then _ else _] => destruct b end;
    [|discriminate].
  intros E; injection E as <-; split; reflexivity.
Qed.

Lemma markAsProcessing_visible now vt (m : Message.t) :
  Message.QueueType m = QueueTypeStandard ->
  visible now m = true ->
  exists processing, markAsProcessing now vt m = Ok processing.
Proof.
  intros HQ HV; unfold markAsProcessing; rewrite HQ, HV; eexists; reflexivity.
Qed.

Lemma standardIndex_In (T : Table Message.t) m :
  In m (standardIndex T) ->
  In m T /\ Message.QueueType m = QueueTypeStandard.
Proof.
  unfold standardIndex; rewrite indexItems_In; intros [HIn HP]; split; [assumption|].
  unfold inPartition in HP; cbn [indexEntry MessageSchema] in HP.
  unfold messageIndexEntry in HP; rewrite String.eqb_refl in HP.
  destruct (Message.QueueAddTimestamp m); [|discriminate].
  destruct (Message.QueueType m); [reflexivity | discriminate].
Qed.

Lemma ReceiveExpr_updates now vt (T : Table Message.t) m processing :
  lookupItem (Message.ID m) T = Some m ->
  markAsProcessing now vt m = Ok processing ->
  updateTable (Message.ID m) (ReceiveExpr processing) T =
    inr (receivedAt now vt m, replaceItem (receivedAt now vt m) T).
Proof.
  intros HG HP; destruct (ReceiveExpr_applies _ _ _ _ HP) as [HA HVer].
  unfold updateTable; rewrite HG.
  replace (holdsOpt _ _) with true.
  - now rewrite HA.
  - simpl; rewrite HVer; now rewrite Z.eqb_refl.
Qed.

Lemma claimFirst_head_visible c (T : Table Message.t) m rest :
  lookupItem (Message.ID m) T = Some m ->
  Message.QueueType m = QueueTypeStandard ->
  visible (clock c) m = true ->
  steps (claimFirst c (m :: rest)) T
    (Ok (Claimed (receivedAt (clock c) (visibilityTimeout c) m)))
    (replaceItem (receivedAt (clock c) (visibilityTimeout c) m) T).
Proof.
  intros HG HQ HV log; cbn [claimFirst]; rewrite HV; cbn [negb].
  destruct (markAsProcessing_visible (clock c) (visibilityTimeout c) m HQ HV)
    as [processing HP]; rewrite HP.
  unfold UpdateItem; cbn [items calls logCall].
  rewrite (ReceiveExpr_updates _ _ T m processing HG HP).
  eexists; reflexivity.
Qed.

Lemma claimFirst_head_invisible c (T : Table Message.t) m rest :
  useFIFO c = true ->
  visible (clock c) m = false ->
  steps (claimFirst c (m :: rest)) T (Ok Aborted) T.
Proof.
  intros HF HV log; cbn [claimFirst]; rewrite HV, HF; cbn [negb].
  eexists; reflexivity.
Qed.

(** The first page of the standard queue. *)
Lemma firstPage_Items (T : Table Message.t) :
  Items (queryPage QueueIndexName (VStr (QueueType_name QueueTypeStandard)) 250
           None T) = firstn 250 (standardIndex T).
Proof. reflexivity. Qed.

Lemma steps_scan c (T : Table Message.t) r T' :
  steps (receiveLoop (S (List.length T)) c None) T r T' ->
  steps (fun st => receiveLoop (S (List.length (items st))) c None st) T r T'.
Proof. intros HS log; exact (HS log). Qed.

Lemma ReceiveMessage_empty c (T : Table Message.t) :
  standardIndex T = [] ->
  steps (ReceiveMessage c) T (Err EmptyQueueError) T.
Proof.
  intros HI; unfold ReceiveMessage.
  eapply steps_bind with (a := Exhausted) (T' := T); [|apply steps_fail].
  apply steps_scan; cbn [receiveLoop].
  eapply steps_bind; [apply steps_Query|].
  rewrite firstPage_Items, HI; cbn [firstn].
  eapply steps_bind; [apply steps_ret|].
  unfold queryPage; fold (standardIndex T); rewrite HI.
  cbn; apply steps_ret.
Qed.

Lemma ReceiveMessage_head_invisible c (T : Table Message.t) m rest :
  useFIFO c = true ->
  standardIndex T = m :: rest ->
  visible (clock c) m = false ->
  steps (ReceiveMessage c) T (Err EmptyQueueError) T.
Proof.
  intros HF HI HV; unfold ReceiveMessage.
  eapply steps_bind with (a := Aborted) (T' := T); [|apply steps_fail].
  apply steps_scan; cbn [receiveLoop].
  eapply steps_bind; [apply steps_Query|].
  rewrite firstPage_Items, HI; cbn [firstn].
  eapply steps_bind; [apply claimFirst_head_invisible; assumption|].
  apply steps_ret.
Qed.

Lemma ReceiveMessage_head_visible c (T : Table Message.t) m rest :
  keysDistinct T ->
  standardIndex T = m :: rest ->
  visible (clock c) m = true ->
  steps (ReceiveMessage c) T
    (Ok (receivedAt (clock c) (visibilityTimeout c) m))
    (replaceItem (receivedAt (clock c) (visibilityTimeout c) m) T).
Proof.
  intros ND HI HV; unfold ReceiveMessage.
  assert (HIn : In m (standardIndex T)) by (rewrite HI; now left).
  apply standardIndex_In in HIn; destruct HIn as [HIn HQ].
  eapply steps_bind
    with (a := Claimed (receivedAt (clock c) (visibilityTimeout c) m))
         (T' := replaceItem (receivedAt (clock c) (visibilityTimeout c) m) T);
    [|apply steps_ret].
  apply steps_scan; cbn [receiveLoop].
  eapply steps_bind; [apply steps_Query|].
  rewrite firstPage_Items, HI; cbn [firstn].
  eapply steps_bind.
  - apply claimFirst_head_visible; try assumption.
    now apply (lookupItem_In T m ND).
  - apply steps_ret.
Qed.

(** ** A serial producer followed by a serial consumer *)

Lemma map_key_sentMessage (l : list (string * Time)) :
  map itemKey (map sentMessage l) = map fst l.
Proof. rewrite map_map; apply map_ext; intros [id at_]; reflexivity. Qed.

Lemma keysDistinct_sent (l : list (string * Time)) :
  NoDup (map fst l) -> keysDistinct (map sentMessage l).
Proof. unfold keysDistinct; now rewrite map_key_sentMessage. Qed.

Lemma sent_inPartition send :
  inPartition QueueIndexName (VStr (QueueType_name QueueTypeStandard))
    (sentMessage send) = true.
Proof. reflexivity. Qed.

Lemma sent_sortKey send :
  sortKey QueueIndexName (sentMessage send) = snd send.
Proof.
  destruct send as [id at_]; unfold sortKey; cbn.
  lia.
Qed.

Lemma keyOrdered_sent (l : list (string * Time)) :
  Sorted Z.lt (map snd l) -> keyOrdered QueueIndexName (map sentMessage l).
Proof.
  unfold keyOrdered; induction l as [|a l IH]; simpl; intros HS; [constructor|].
  apply Sorted_inv in HS; destruct HS as [HS HR].
  constructor; [now apply IH|].
  destruct l as [|b l]; simpl in *; constructor.
  apply HdRel_inv in HR; rewrite !sent_sortKey; lia.
Qed.

Lemma standardIndex_sent (l : list (string * Time)) :
  Sorted Z.lt (map snd l) ->
  standardIndex (map sentMessage l) = map sentMessage l.
Proof.
  intros HS; unfold standardIndex; apply indexItems_ordered.
  - apply Forall_forall; intros m HIn; apply in_map_iff in HIn.
    destruct HIn as [send [<- _]]; apply sent_inPartition.
  - now apply keyOrdered_sent.
Qed.

Lemma steps_SendMessage_fresh c id data delay (T : Table Message.t) :
  id <> EmptyString ->
  lookupItem id T = None ->
  steps (SendMessage c id data delay) T
    (Ok (NewMessage id data (clock c) delay))
    (T ++ [NewMessage id data (clock c) delay])%list.
Proof.
  intros NE HN log; eexists; now apply SendMessage_fresh.
Qed.

Lemma produceAll_steps c (sends pre : list (string * Time)) :
  NoDup (map fst (pre ++ sends)) ->
  Forall (fun send => fst send <> EmptyString) sends ->
  steps (produceAll c sends) (map sentMessage pre) (Ok tt)
    (map sentMessage (pre ++ sends)).
Proof.
  revert pre; induction sends as [|[id at_] sends IH]; intros pre ND NE.
  - rewrite app_nil_r; apply steps_ret.
  - inversion NE as [|? ? Hid NE']; subst; cbn [produceAll].
    eapply steps_bind.
    + apply steps_SendMessage_fresh; [exact Hid|].
      apply lookupItem_None; rewrite map_key_sentMessage.
      rewrite map_app in ND; simpl in ND.
      apply NoDup_remove_2 in ND; intros HIn; apply ND, in_or_app; now left.
    + cbv beta.
      replace (map sentMessage pre ++ [NewMessage id EmptyString (clock (withClock at_ c)) 0])%list
        with (map sentMessage (pre ++ [(id, at_)])).
      * replace (pre ++ (id, at_) :: sends)%list
          with ((pre ++ [(id, at_)]) ++ sends)%list
          by (rewrite <- app_assoc; reflexivity).
        apply IH; [|assumption].
        rewrite <- app_assoc; exact ND.
      * rewrite map_app; reflexivity.
Qed.

Lemma steps_DeleteMessage c id (T : Table Message.t) :
  id <> EmptyString ->
  steps (DeleteMessage c id) T (Ok tt) (removeItem id T).
Proof.
  intros NE; unfold DeleteMessage; rewrite (eqb_empty_false' _ NE).
  apply steps_DeleteItem.
Qed.

Lemma receiveAndDelete_steps c send (l : list (string * Time)) :
  NoDup (map fst (send :: l)) ->
  fst send <> EmptyString ->
  Sorted Z.lt (map snd (send :: l)) ->
  steps (receiveAndDelete c) (map sentMessage (send :: l)) (Ok (fst send))
    (map sentMessage l).
Proof.
  intros ND NE HS; unfold receiveAndDelete.
  pose proof (keysDistinct_sent _ ND) as KD.
  eapply steps_bind.
  - apply (ReceiveMessage_head_visible c _ (sentMessage send) (map sentMessage l));
      [exact KD| |reflexivity].
    rewrite standardIndex_sent by assumption; reflexivity.
  - cbv beta; cbn [map]; rewrite replaceItem_head by reflexivity.
    eapply steps_bind; [apply steps_DeleteMessage; exact NE|].
    cbv beta.
    replace (removeItem _ _) with (map sentMessage l); [apply steps_ret|].
    symmetry.
    exact (removeItem_head
             (receivedAt (clock c) (visibilityTimeout c) (sentMessage send))
             (map sentMessage l) KD).
Qed.

Lemma consumeAll_steps c (l : list (string * Time)) :
  NoDup (map fst l) ->
  Forall (fun send => fst send <> EmptyString) l ->
  Sorted Z.lt (map snd l) ->
  steps (consumeAll c (List.length l)) (map sentMessage l) (Ok (map fst l)) [].
Proof.
  induction l as [|send l IH]; intros ND NE HS.
  - apply steps_ret.
  - inversion NE; subst; cbn [List.length consumeAll].
    eapply steps_bind; [now apply receiveAndDelete_steps|].
    eapply steps_bind; [|apply steps_ret].
    apply IH; [now inversion ND | assumption | now apply Sorted_inv in HS].
Qed.

Lemma inflight_invisible c (m : Message.t) :
  0 < visibilityTimeout c ->
  visible (clock c) (receivedAt (clock c) (visibilityTimeout c) m) = false.
Proof.
  intros Hvt; unfold visible, receivedAt, InvisibleUntilAt; cbn.
  apply Z.leb_gt; lia.
Qed.

Lemma second_receive_steps c send (l : list (string * Time)) :
  useFIFO c = true ->
  0 < visibilityTimeout c ->
  Sorted Z.lt (map snd (send :: l)) ->
  let inflight := receivedAt (clock c) (visibilityTimeout c) (sentMessage send) in
  steps (ReceiveMessage c) (inflight :: map sentMessage l)
    (Err EmptyQueueError) (inflight :: map sentMessage l).
Proof.
  intros HF Hvt HS inflight.
  eapply ReceiveMessage_head_invisible with (m := inflight);
    [exact HF| |now apply inflight_invisible].
  unfold standardIndex.
  rewrite indexItems_ordered; [reflexivity| |].
  - constructor; [reflexivity|].
    apply Forall_forall; intros m HIn; apply in_map_iff in HIn.
    destruct HIn as [s [<- _]]; apply sent_inPartition.
  - pose proof (keyOrdered_sent _ HS) as HK; unfold keyOrdered in *.
    cbn [map] in HK; apply Sorted_inv in HK; destruct HK as [HK HR].
    constructor; [exact HK|].
    destruct l as [|b l]; simpl in *; constructor.
    apply HdRel_inv in HR; exact HR.
Qed.

(** C5.  With [UseFIFO] set, a producer that sends at strictly increasing
    instants followed by one consumer that completes every receive by a
    delete before the next receive: the IDs returned by the receives are the
    IDs of the sends, in the order of the sends (the index order, ascending
    [QueueAddTimestamp]); the receive after the last delete returns
    [EmptyQueueError]; and a receive issued while the message just claimed
    is still in flight returns [EmptyQueueError] whatever is queued behind
    it. *)
Theorem FIFO_serial_order c (sends : list (string * Time)) :
  useFIFO c = true ->
  0 < visibilityTimeout c ->
  NoDup (map fst sends) ->
  Forall (fun send => fst send <> EmptyString) sends ->
  Sorted Z.lt (map snd sends) ->
  standardIndex (items (snd (exec (produceAll c sends) []))) =
    map sentMessage sends /\
  fst (exec (produceAll c sends ;;; consumeAll c (List.length sends)) []) =
    Ok (map fst sends) /\
  fst (exec (produceAll c sends ;;; consumeAll c (List.length sends) ;;;
             ReceiveMessage c) []) = Err EmptyQueueError /\
  (forall send rest, sends = send :: rest ->
     fst (exec (produceAll c sends ;;; ReceiveMessage c) []) =
       Ok (receivedAt (clock c) (visibilityTimeout c) (sentMessage send)) /\
     fst (exec (produceAll c sends ;;; ReceiveMessage c ;;; ReceiveMessage c) [])
       = Err EmptyQueueError).
Proof.
  intros HF Hvt ND NE HS.
  pose proof (produceAll_steps c sends [] ND NE) as HP; cbn [map app] in HP.
  pose proof (consumeAll_steps c sends ND NE HS) as HC.
  repeat split.
  - apply steps_exec in HP; destruct HP as [_ ->].
    now apply standardIndex_sent.
  - eapply steps_exec, steps_bind; [exact HP | exact HC].
  - eapply steps_exec, steps_bind; [exact HP|].
    eapply steps_bind; [exact HC|].
    apply ReceiveMessage_empty; reflexivity.
  - subst sends; eapply steps_exec, steps_bind; [exact HP|].
    apply (ReceiveMessage_head_visible c _ (sentMessage send) (map sentMessage rest));
      [now apply keysDistinct_sent | now apply standardIndex_sent | reflexivity].
  - subst sends; eapply steps_exec, steps_bind; [exact HP|].
    eapply steps_bind.
    + apply (ReceiveMessage_head_visible c _ (sentMessage send) (map sentMessage rest));
        [now apply keysDistinct_sent | now apply standardIndex_sent | reflexivity].
    + cbv beta; cbn [map]; rewrite replaceItem_head by reflexivity.
      now apply second_receive_steps.
Qed.

(** The scenario of [TestDynamoMQClientReceiveMessageUseFIFO]. *)
Lemma FIFO_serial_order_witness :
  let c := fifoTestClient (testDate + 10000) in
  let sends := [ ("A-303", testDate + 1000); ("A-202", testDate + 2000);
                 ("A-101", testDate + 3000) ] in
  fst (exec (produceAll c sends ;;; consumeAll c 3) []) =
    Ok ["A-303"; "A-202"; "A-101"] /\
  fst (exec (produceAll c sends ;;; consumeAll c 3 ;;; ReceiveMessage c) []) =
    Err EmptyQueueError /\
  fst (exec (produceAll c sends ;;; ReceiveMessage c ;;; ReceiveMessage c) []) =
    Err EmptyQueueError.
Proof.
  intros c sends.
  assert (ND : NoDup (map fst sends)).
  { repeat constructor; simpl; intuition discriminate. }
  assert (NE : Forall (fun send => fst send <> EmptyString) sends).
  { repeat constructor; discriminate. }
  assert (HS : Sorted Z.lt (map snd sends)).
  { repeat constructor. }
  destruct (FIFO_serial_order c sends eq_refl eq_refl ND NE HS)
    as [_ [H1 [H2 H3]]].
  split; [exact H1|]; split; [exact H2|].
  exact (proj2 (H3 _ _ eq_refl)).
Defined.

(** ** Moving a message to the DLQ *)

Lemma MoveToDLQExpr_updates now id (T : Table Message.t) m moved :
  lookupItem id T = Some m ->
  markAsMovedToDLQ now m = Ok moved ->
  updateTable id (MoveToDLQExpr moved) T =
    inr (movedToDLQAt now m, replaceItem (movedToDLQAt now m) T) /\
  Condition (MoveToDLQExpr moved) =
    Some (Equal "version" (VNum (Message.Version m))).
Proof.
  intros HG HM; unfold updateTable; rewrite HG.
  unfold markAsMovedToDLQ in HM.
  destruct m as [id0 d [] st rc ve cr up se re qa v0]; [|discriminate].
  injection HM as <-; split; [|reflexivity].
  simpl; now rewrite Z.eqb_refl.
Qed.

Lemma MoveMessageToDLQ_already_in_DLQ c id (T : Table Message.t) m :
  id <> EmptyString ->
  lookupItem id T = Some m ->
  Message.QueueType m = QueueTypeDLQ ->
  exec (MoveMessageToDLQ c id) T =
    (Ok (dlqOutputOf m), {| items := T; calls := [CGetItem id] |}).
Proof.
  intros NE HG HQ; unfold exec, MoveMessageToDLQ, bind, dynamoDB, GetItem.
  rewrite (eqb_empty_false' _ NE); cbn [items calls logCall].
  rewrite HG, HQ; reflexivity.
Qed.

Lemma MoveMessageToDLQ_from_standard c id (T : Table Message.t) m :
  id <> EmptyString ->
  lookupItem id T = Some m ->
  Message.QueueType m = QueueTypeStandard ->
  exists e,
    exec (MoveMessageToDLQ c id) T =
      (Ok (dlqOutputOf (movedToDLQAt (clock c) m)),
       {| items := replaceItem (movedToDLQAt (clock c) m) T;
          calls := [CGetItem id; CUpdateItem id e] |}) /\
    Condition e = Some (Equal "version" (VNum (Message.Version m))).
Proof.
  intros NE HG HQ.
  assert (HM : exists moved, markAsMovedToDLQ (clock c) m = Ok moved).
  { unfold markAsMovedToDLQ; rewrite HQ; eexists; reflexivity. }
  destruct HM as [moved HM].
  destruct (MoveToDLQExpr_updates (clock c) id T m moved HG HM) as [HU HC].
  exists (MoveToDLQExpr moved); split; [|exact HC].
  unfold exec, MoveMessageToDLQ, bind, dynamoDB, GetItem, UpdateItem.
  rewrite (eqb_empty_false' _ NE); cbn [items calls logCall].
  rewrite HG, HQ, HM; cbn [items calls logCall]; rewrite HU; reflexivity.
Qed.

(** ** The receive tests *)

Example TestDynamoMQClientReceiveMessageUseFIFO_results :
  fst (exec (receiveTestRun (fifoTestClient (testDate + 10000)))
         [newTestMessageItemAsReady "A-101" (testDate + 3000);
          newTestMessageItemAsReady "A-202" (testDate + 2000);
          newTestMessageItemAsReady "A-303" (testDate + 1000)]) =
    Ok [Ok "A-303"; Err EmptyQueueError;
        Ok "A-202"; Err EmptyQueueError;
        Ok "A-101"; Err EmptyQueueError;
        Err EmptyQueueError].
Proof. vm_compute; reflexivity. Qed.

Example TestDynamoMQClientReceiveMessageNotUseFIFO_results :
  fst (exec (receiveTestRunNotFIFO (notFIFOTestClient (testDate + 10000)))
         [newTestMessageItemAsReady "A-101" (testDate + 3000);
          newTestMessageItemAsReady "A-202" (testDate + 2000);
          newTestMessageItemAsReady "A-303" (testDate + 1000)]) =
    Ok [Ok "A-303"; Ok "A-202"; Ok "A-101"; Err EmptyQueueError].
Proof. vm_compute; reflexivity. Qed.

End MQFacts.

(** * Moving a record to the dead-letter queue, in both clients *)

Module DLQFacts.
Import DynamoFacts.

(** C6.  [SendToDLQ] of package [sdk]: on a record already in the DLQ it
    returns the record's current status, last-updated timestamp and version
    and issues no write; on a record of the standard queue it issues one
    [UpdateItem] conditioned on the version it read (and on the record being
    queued) and leaves the record in the DLQ, ready (not selected), at
    version + 1; a second call then changes nothing.  [MoveMessageToDLQ] of
    package [dynamomq]: the same, with the fields of [Message]: afterwards
    QueueType=DLQ, Status=READY, ReceiveCount=0, Version incremented by
    one. *)
Theorem move_to_DLQ_is_idempotent :
  (forall c id (T : Table Legacy.Shipment.t) s,
      id <> EmptyString ->
      lookupItem id T = Some s ->
      (Legacy.IsDLQ s = true ->
       exec (Legacy.SendToDLQ c id) T =
         (Ok (Legacy.Result.mk id
                (Legacy.SystemInfo.Status (Legacy.Shipment.SystemInfo s))
                (Legacy.SystemInfo.LastUpdatedTimestamp (Legacy.Shipment.SystemInfo s))
                (Legacy.version s)),
          {| items := T; calls := [CGetItem id] |})) /\
      (Legacy.IsDLQ s = false ->
       Legacy.SystemInfo.InQueue (Legacy.Shipment.SystemInfo s) = 1 ->
       exists s' e,
         exec (Legacy.SendToDLQ c id) T =
           (Ok (Legacy.resultOf id s'),
            {| items := replaceItem s' T;
               calls := [CGetItem id; CUpdateItem id e] |}) /\
         Legacy.guardedBy (Legacy.version s) e /\
         Legacy.version s' = Legacy.version s + 1 /\
         Legacy.Result.Version (Legacy.resultOf id s') = Legacy.version s + 1 /\
         Legacy.Shipment.DLQ s' = 1 /\
         Legacy.Shipment.Queued s' = 0 /\
         Legacy.SystemInfo.InQueue (Legacy.Shipment.SystemInfo s') = 0 /\
         Legacy.SystemInfo.SelectedFromQueue (Legacy.Shipment.SystemInfo s')
           = false /\
         Legacy.SystemInfo.Status (Legacy.Shipment.SystemInfo s')
           = Legacy.StatusReadyToShip /\
         forall c2,
           exec (Legacy.SendToDLQ c2 id) (replaceItem s' T) =
             (Ok (Legacy.resultOf id s'),
              {| items := replaceItem s' T; calls := [CGetItem id] |}))) /\
  (forall c id (T : Table MQ.Message.t) m,
      id <> EmptyString ->
      lookupItem id T = Some m ->
      (MQ.Message.QueueType m = MQ.QueueTypeDLQ ->
       exec (MQ.MoveMessageToDLQ c id) T =
         (Ok (MQ.MoveMessageToDLQOutput.mk (MQ.Message.ID m) (MQ.Message.Status m)
                (MQ.Message.UpdatedAt m) (MQ.Message.Version m)),
          {| items := T; calls := [CGetItem id] |})) /\
      (MQ.Message.QueueType m = MQ.QueueTypeStandard ->
       exists m' e,
         exec (MQ.MoveMessageToDLQ c id) T =
           (Ok (MQ.dlqOutputOf m'),
            {| items := replaceItem m' T;
               calls := [CGetItem id; CUpdateItem id e] |}) /\
         Condition e = Some (Equal "version" (VNum (MQ.Message.Version m))) /\
         MQ.Message.QueueType m' = MQ.QueueTypeDLQ /\
         MQ.Message.Status m' = MQ.StatusReady /\
         MQ.Message.ReceiveCount m' = 0 /\
         MQ.Message.Version m' = MQ.Message.Version m + 1 /\
         MQ.MoveMessageToDLQOutput.Version (MQ.dlqOutputOf m')
           = MQ.Message.Version m + 1 /\
         forall c2,
           exec (MQ.MoveMessageToDLQ c2 id) (replaceItem m' T) =
             (Ok (MQ.dlqOutputOf m'),
              {| items := replaceItem m' T; calls := [CGetItem id] |}))).
Proof.
  split.
  - intros c id T s NE HG; split.
    + intros HD; exact (LegacyFacts.SendToDLQ_already_in_DLQ c id T s NE HG HD).
    + intros HD HQ.
      exists (Legacy.sentToDLQAt (Legacy.clock c) s),
             (Legacy.SendToDLQExpr (Legacy.MarkAsDLQ (Legacy.clock c) s)).
      split; [exact (LegacyFacts.SendToDLQ_from_queue c id T s NE HG HD HQ)|].
      split.
      { rewrite <- (LegacyFacts.version_MarkAsDLQ (Legacy.clock c) s).
        apply LegacyFacts.guardedBy_SendToDLQExpr. }
      repeat split.
      intros c2; apply LegacyFacts.SendToDLQ_already_in_DLQ; [exact NE| |reflexivity].
      rewrite lookupItem_replaceItem.
      apply lookupItem_Some in HG; destruct HG as [_ Hid].
      cbn [itemKey Legacy.ShipmentSchema] in *.
      replace (Legacy.Shipment.ID (Legacy.sentToDLQAt (Legacy.clock c) s))
        with (Legacy.Shipment.ID s) by reflexivity.
      rewrite Hid; now rewrite String.eqb_refl.
  - intros c id T m NE HG; split.
    + intros HQ; exact (MQFacts.MoveMessageToDLQ_already_in_DLQ c id T m NE HG HQ).
    + intros HQ.
      destruct (MQFacts.MoveMessageToDLQ_from_standard c id T m NE HG HQ)
        as [e [HE HC]].
      exists (MQ.movedToDLQAt (MQ.clock c) m), e.
      split; [exact HE|]; split; [exact HC|]; repeat split.
      intros c2; apply MQFacts.MoveMessageToDLQ_already_in_DLQ;
        [exact NE| |reflexivity].
      rewrite lookupItem_replaceItem.
      apply lookupItem_Some in HG; destruct HG as [_ Hid].
      cbn [itemKey MQ.MessageSchema] in *.
      replace (MQ.Message.ID (MQ.movedToDLQAt (MQ.clock c) m))
        with (MQ.Message.ID m) by reflexivity.
      rewrite Hid; now rewrite String.eqb_refl.
Qed.

(** The cases of [TestDynamoMQClientMoveMessageToDLQ] and their
    counterparts for [SendToDLQ]: a record already in the DLQ comes back as
    it is, at version 1, with no write; a record of the standard queue is
    moved by one conditional update and a second call finds it in the DLQ. *)
Lemma move_to_DLQ_is_idempotent_witness :
  let c := Legacy.testClient (Legacy.testDate + 10000) in
  let inDLQ := Legacy.newTestShipmentItemAsDLQ "A-101" Legacy.testDate in
  let queued := Legacy.newTestShipmentItemAsEnqueued "A-101" Legacy.testDate in
  let c' := MQ.fifoTestClient (MQ.testDate + 10000) in
  let inDLQ' := MQ.newTestMessageItemAsDLQ "A-101" MQ.testDate in
  let ready := MQ.newTestMessageItemAsReady "A-101" MQ.testDate in
  (exec (Legacy.SendToDLQ c "A-101") [inDLQ] =
     (Ok (Legacy.Result.mk "A-101" Legacy.StatusReadyToShip
            (Some Legacy.testDate) 1),
      {| items := [inDLQ]; calls := [CGetItem "A-101"] |})) /\
  (exists s' e,
     exec (Legacy.SendToDLQ c "A-101") [queued] =
       (Ok (Legacy.resultOf "A-101" s'),
        {| items := replaceItem s' [queued];
           calls := [CGetItem "A-101"; CUpdateItem "A-101" e] |}) /\
     Legacy.guardedBy (Legacy.version queued) e /\
     Legacy.version s' = Legacy.version queued + 1 /\
     Legacy.Result.Version (Legacy.resultOf "A-101" s')
       = Legacy.version queued + 1 /\
     Legacy.Shipment.DLQ s' = 1 /\
     Legacy.Shipment.Queued s' = 0 /\
     Legacy.SystemInfo.InQueue (Legacy.Shipment.SystemInfo s') = 0 /\
     Legacy.SystemInfo.SelectedFromQueue (Legacy.Shipment.SystemInfo s')
       = false /\
     Legacy.SystemInfo.Status (Legacy.Shipment.SystemInfo s')
       = Legacy.StatusReadyToShip /\
     forall c2,
       exec (Legacy.SendToDLQ c2 "A-101") (replaceItem s' [queued]) =
         (Ok (Legacy.resultOf "A-101" s'),
          {| items := replaceItem s' [queued]; calls := [CGetItem "A-101"] |})) /\
  (exec (MQ.MoveMessageToDLQ c' "A-101") [inDLQ'] =
     (Ok (MQ.MoveMessageToDLQOutput.mk "A-101" MQ.StatusReady
            (Some MQ.testDate) 1),
      {| items := [inDLQ']; calls := [CGetItem "A-101"] |})) /\
  (exists m' e,
     exec (MQ.MoveMessageToDLQ c' "A-101") [ready] =
       (Ok (MQ.dlqOutputOf m'),
        {| items := replaceItem m' [ready];
           calls := [CGetItem "A-101"; CUpdateItem "A-101" e] |}) /\
     Condition e = Some (Equal "version" (VNum (MQ.Message.Version ready))) /\
     MQ.Message.QueueType m' = MQ.QueueTypeDLQ /\
     MQ.Message.Status m' = MQ.StatusReady /\
     MQ.Message.ReceiveCount m' = 0 /\
     MQ.Message.Version m' = MQ.Message.Version ready + 1 /\
     MQ.MoveMessageToDLQOutput.Version (MQ.dlqOutputOf m')
       = MQ.Message.Version ready + 1 /\
     forall c2,
       exec (MQ.MoveMessageToDLQ c2 "A-101") (replaceItem m' [ready]) =
         (Ok (MQ.dlqOutputOf m'),
          {| items := replaceItem m' [ready]; calls := [CGetItem "A-101"] |})).
Proof.
  intros c inDLQ queued c' inDLQ' ready.
  split; [|split; [|split]].
  - apply (proj1 (proj1 move_to_DLQ_is_idempotent c "A-101" [inDLQ] inDLQ
                    ltac:(discriminate) eq_refl)).
    reflexivity.
  - apply (proj2 (proj1 move_to_DLQ_is_idempotent c "A-101" [queued] queued
                    ltac:(discriminate) eq_refl)); reflexivity.
  - apply (proj1 (proj2 move_to_DLQ_is_idempotent c' "A-101" [inDLQ'] inDLQ'
                    ltac:(discriminate) eq_refl)).
    reflexivity.
  - apply (proj2 (proj2 move_to_DLQ_is_idempotent c' "A-101" [ready] ready
                    ltac:(discriminate) eq_refl)); reflexivity.
Defined.

End DLQFacts.

(** * More facts about the store *)

Module DynamoMore.
Import DynamoFacts.

Lemma find_first_of_sorted {A} (R : A -> A -> Prop) (p : A -> bool) l s :
  (forall a, R a a) ->
  StronglySorted R l ->
  find p l = Some s ->
  forall x, In x l -> p x = true -> R s x.
Proof.
  intros Hrefl HS; induction HS as [|a l HS IH HF]; simpl; [discriminate|].
  destruct (p a) eqn:Ea.
  - intros E x [<-|HIn] _; injection E as <-; [apply Hrefl|].
    rewrite Forall_forall in HF; now apply HF.
  - intros E x [<-|HIn] Hx; [congruence|]. now apply IH.
Qed.

Section MoreStoreFacts.
Context {Item : Type} `{Schema Item}.

Lemma lookupItem_app id (l1 l2 : Table Item) :
  lookupItem id (l1 ++ l2)%list =
  match lookupItem id l1 with
  | Some x => Some x
  | None => lookupItem id l2
  end.
Proof.
  unfold lookupItem; induction l1 as [|a l1 IH]; simpl; [reflexivity|].
  destruct (String.eqb (itemKey a) id); [reflexivity | exact IH].
Qed.

Lemma lookupItem_removeItem_other id id' (T : Table Item) :
  id <> id' -> lookupItem id (removeItem id' T) = lookupItem id T.
Proof.
  intros NE; unfold lookupItem, removeItem; induction T as [|a T IH]; simpl;
    [reflexivity|].
  destruct (String.eqb_spec (itemKey a) id') as [E|E]; simpl.
  - rewrite IH. destruct (String.eqb_spec (itemKey a) id); [congruence|reflexivity].
  - rewrite IH; reflexivity.
Qed.

Lemma keysDistinct_removeItem id (T : Table Item) :
  keysDistinct T -> keysDistinct (removeItem id T).
Proof.
  unfold keysDistinct, removeItem; induction T as [|a T IH]; simpl; intros ND;
    [constructor|].
  inversion ND as [|x l Hn ND']; subst.
  destruct (negb (String.eqb (itemKey a) id)); simpl; [|auto].
  constructor; [|auto].
  intros HIn; apply Hn.
  apply in_map_iff in HIn; destruct HIn as [y [Hy HIn]].
  apply filter_In in HIn; apply in_map_iff; exists y; tauto.
Qed.

Lemma removeItem_app id (l1 l2 : Table Item) :
  removeItem id (l1 ++ l2)%list = (removeItem id l1 ++ removeItem id l2)%list.
Proof. unfold removeItem; apply filter_app. Qed.

Lemma keysDistinct_snoc (T : Table Item) s :
  keysDistinct T -> lookupItem (itemKey s) T = None ->
  keysDistinct (T ++ [s])%list.
Proof.
  unfold keysDistinct; intros ND HN; rewrite map_app; simpl.
  apply NoDup_app; [assumption | repeat constructor; simpl; tauto |].
  intros x HIn [<-|[]]. now apply (lookupItem_None (itemKey s) T).
Qed.

End MoreStoreFacts.

Section ReplaceFacts.
Context {Item : Type} `{Schema Item}.

Lemma In_replaceItem new (T : Table Item) x :
  keysDistinct T ->
  In x (replaceItem new T) ->
  x = new \/ (In x T /\ itemKey x <> itemKey new).
Proof.
  unfold keysDistinct; induction T as [|a T IH]; simpl; intros ND HIn.
  - destruct HIn as [<-|[]]; auto.
  - inversion ND as [|k l Hn ND']; subst.
    destruct (String.eqb_spec (itemKey a) (itemKey new)) as [E|E].
    + destruct HIn as [<-|HIn]; [auto|].
      right; split; [auto|].
      intros E'; apply Hn; rewrite E, <- E'; now apply in_map.
    + destruct HIn as [<-|HIn]; [right; auto|].
      destruct (IH ND' HIn) as [->|[HI HK]]; auto.
Qed.

End ReplaceFacts.

Section ReplaceTwice.
Context {Item : Type} `{Schema Item}.

Lemma replaceItem_replaceItem new1 new2 (T : Table Item) :
  itemKey new2 = itemKey new1 ->
  replaceItem new2 (replaceItem new1 T) = replaceItem new2 T.
Proof.
  intros E; induction T as [|a T IH]; simpl.
  - rewrite <- E, String.eqb_refl; reflexivity.
  - rewrite E.
    destruct (String.eqb_spec (itemKey a) (itemKey new1)) as [Ea|Ea]; simpl.
    + rewrite E, String.eqb_refl; reflexivity.
    + apply String.eqb_neq in Ea; rewrite E, Ea, IH; reflexivity.
Qed.

End ReplaceTwice.

Section IndexFacts.
Context {Item : Type} `{Schema Item}.

Lemma insertByKey_HdRel index a x (l : list Item) :
  sortKey index a <= sortKey index x ->
  HdRel (fun u v => sortKey index u <= sortKey index v) a l ->
  HdRel (fun u v => sortKey index u <= sortKey index v) a (insertByKey index x l).
Proof.
  intros Hax HR; destruct l as [|b l]; simpl; [now constructor|].
  destruct (sortKey index x <=? sortKey index b)%Z; constructor; auto.
  now apply HdRel_inv in HR.
Qed.

Lemma insertByKey_ordered index x (l : list Item) :
  keyOrdered index l -> keyOrdered index (insertByKey index x l).
Proof.
  unfold keyOrdered; induction l as [|a l IH]; simpl; intros HS.
  - repeat constructor.
  - destruct (Z.leb_spec (sortKey index x) (sortKey index a)) as [Hle|Hlt].
    + constructor; [assumption | now constructor].
    + apply Sorted_inv in HS; destruct HS as [HS HR].
      constructor; [now apply IH|].
      apply insertByKey_HdRel; [lia | assumption].
Qed.

Lemma sortByKey_keyOrdered index (l : list Item) :
  keyOrdered index (sortByKey index l).
Proof.
  induction l as [|a l IH]; simpl; [constructor|].
  now apply insertByKey_ordered.
Qed.

Lemma indexItems_keyOrdered index pk (T : Table Item) :
  keyOrdered index (indexItems index pk T).
Proof. apply sortByKey_keyOrdered. Qed.

Lemma keyOrdered_strong index (l : list Item) :
  keyOrdered index l ->
  StronglySorted (fun u v => sortKey index u <= sortKey index v) l.
Proof.
  apply Sorted_StronglySorted; intros u v w; lia.
Qed.

Lemma filter_insertByKey_out index (q : Item -> bool) x (l : list Item) :
  q x = false -> filter q (insertByKey index x l) = filter q l.
Proof.
  intros Hq; induction l as [|a l IH]; simpl; [now rewrite Hq|].
  destruct (sortKey index x <=? sortKey index a)%Z; simpl.
  - now rewrite Hq.
  - now rewrite IH.
Qed.

Lemma insertByKey_below index x (l : list Item) :
  Forall (fun v => sortKey index x <= sortKey index v) l ->
  insertByKey index x l = x :: l.
Proof.
  destruct l as [|a l]; simpl; [reflexivity|].
  intros HF; inversion HF; subst.
  destruct (Z.leb_spec (sortKey index x) (sortKey index a)); [reflexivity | lia].
Qed.

Lemma filter_insertByKey_in index (q : Item -> bool) x (l : list Item) :
  keyOrdered index l ->
  q x = true ->
  filter q (insertByKey index x l) = insertByKey index x (filter q l).
Proof.
  intros HS Hq; apply keyOrdered_strong in HS.
  induction l as [|a l IH]; simpl; [now rewrite Hq|].
  apply StronglySorted_inv in HS; destruct HS as [HS HF].
  destruct (Z.leb_spec (sortKey index x) (sortKey index a)) as [Hle|Hlt].
  - cbn [filter]; rewrite Hq.
    destruct (q a) eqn:Ea.
    + cbn [insertByKey].
      destruct (Z.leb_spec (sortKey index x) (sortKey index a)); [reflexivity | lia].
    + symmetry; apply insertByKey_below.
      apply Forall_forall; intros v Hv; apply filter_In in Hv; destruct Hv as [Hv _].
      rewrite Forall_forall in HF; specialize (HF v Hv); lia.
  - cbn [filter]; destruct (q a) eqn:Ea.
    + cbn [insertByKey].
      destruct (Z.leb_spec (sortKey index x) (sortKey index a)); [lia|].
      now rewrite IH.
    + now apply IH.
Qed.

Lemma filter_sortByKey index (q : Item -> bool) (l : list Item) :
  filter q (sortByKey index l) = sortByKey index (filter q l).
Proof.
  induction l as [|a l IH]; simpl; [reflexivity|].
  destruct (q a) eqn:Ea.
  - cbn [sortByKey]; rewrite <- IH.
    apply filter_insertByKey_in; [apply sortByKey_keyOrdered | assumption].
  - rewrite <- IH; now apply filter_insertByKey_out.
Qed.

Lemma filter_filter_comm {A} (p q : A -> bool) (l : list A) :
  filter p (filter q l) = filter q (filter p l).
Proof.
  induction l as [|a l IH]; simpl; [reflexivity|].
  destruct (p a) eqn:Ep, (q a) eqn:Eq; simpl; rewrite ?Ep, ?Eq, IH; reflexivity.
Qed.

Lemma filter_replaceItem_out (q : Item -> bool) new (T : Table Item) :
  keysDistinct T -> q new = false ->
  filter q (replaceItem new T) = filter q (removeItem (itemKey new) T).
Proof.
  unfold keysDistinct; induction T as [|a T IH]; simpl; intros ND Hq.
  - now rewrite Hq.
  - inversion ND as [|k l Hn ND']; subst.
    destruct (String.eqb_spec (itemKey a) (itemKey new)) as [E|E]; simpl.
    + rewrite Hq; f_equal; symmetry; apply removeItem_absent.
      apply lookupItem_None; now rewrite <- E.
    + now rewrite IH.
Qed.

Lemma indexItems_replaceItem_out index pk new (T : Table Item) :
  keysDistinct T ->
  inPartition index pk new = false ->
  indexItems index pk (replaceItem new T) =
  removeItem (itemKey new) (indexItems index pk T).
Proof.
  intros ND HP; unfold indexItems.
  rewrite (filter_replaceItem_out _ new T ND HP).
  unfold removeItem at 2; rewrite filter_sortByKey.
  f_equal; unfold removeItem; apply filter_filter_comm.
Qed.

Lemma keysDistinct_filter (q : Item -> bool) (T : Table Item) :
  keysDistinct T -> keysDistinct (filter q T).
Proof.
  unfold keysDistinct; induction T as [|a T IH]; simpl; intros ND; [constructor|].
  inversion ND as [|k l Hn ND']; subst.
  destruct (q a); simpl; [|auto].
  constructor; [|auto].
  intros HIn; apply Hn; apply in_map_iff in HIn; destruct HIn as [y [Hy HIn]].
  apply filter_In in HIn; apply in_map_iff; exists y; tauto.
Qed.

Lemma keysDistinct_insertByKey index a (l : list Item) :
  keysDistinct (a :: l) -> keysDistinct (insertByKey index a l).
Proof.
  unfold keysDistinct; induction l as [|b l IH]; simpl; intros ND; [assumption|].
  destruct (sortKey index a <=? sortKey index b)%Z; [assumption|].
  inversion ND as [|k1 l1 Hn1 ND1]; subst.
  inversion ND1 as [|k2 l2 Hn2 ND2]; subst.
  simpl; constructor.
  - intros HIn; apply in_map_iff in HIn; destruct HIn as [y [Hy HIn]].
    apply insertByKey_In in HIn; destruct HIn as [->|HIn].
    + apply Hn1; left; congruence.
    + apply Hn2; apply in_map_iff; exists y; tauto.
  - apply IH; constructor; [|assumption].
    intros HIn; apply Hn1; now right.
Qed.

Lemma keysDistinct_sortByKey index (l : list Item) :
  keysDistinct l -> keysDistinct (sortByKey index l).
Proof.
  induction l as [|a l IH]; simpl; intros ND; [assumption|].
  apply keysDistinct_insertByKey.
  unfold keysDistinct in *; simpl; inversion ND as [|k l1 Hn ND1]; subst.
  constructor; [|now apply IH].
  intros HIn; apply Hn; apply in_map_iff in HIn; destruct HIn as [y [Hy HIn]].
  apply sortByKey_In in HIn; apply in_map_iff; exists y; tauto.
Qed.

Lemma keysDistinct_indexItems index pk (T : Table Item) :
  keysDistinct T -> keysDistinct (indexItems index pk T).
Proof.
  intros ND; apply keysDistinct_sortByKey, keysDistinct_filter, ND.
Qed.

End IndexFacts.

End DynamoMore.

(** * More properties of the [sdk] client *)

Module SdkFacts.
Import Legacy DynamoFacts DynamoMore LegacyFacts.

(** ** Storing, reading and deleting by key *)

Lemma Put_run c s (T : Table Shipment.t) log :
  Shipment.ID s <> EmptyString ->
  Put c s {| items := T; calls := log |} =
  (Ok tt,
   {| items := (removeItem (Shipment.ID s) T ++ [s])%list;
      calls := (log ++ CGetItem (Shipment.ID s) ::
                match lookupItem (Shipment.ID s) T with
                | Some _ => [CDeleteItem (Shipment.ID s); CPutItem (Shipment.ID s) None]
                | None => [CPutItem (Shipment.ID s) None]
                end)%list |}).
Proof.
  intros NE; unfold Put, bind; rewrite Get_run, (eqb_empty_false _ NE).
  unfold logCall; cbn [items calls].
  destruct (lookupItem (Shipment.ID s) T) as [old|] eqn:HL.
  - unfold dynamoDB, DeleteItem, put, PutItem; cbn [items calls holdsOpt logCall].
    cbn [itemKey ShipmentSchema].
    unfold dynamoDB; cbn [items calls].
    rewrite replaceItem_absent by apply lookupItem_removeItem.
    repeat rewrite <- app_assoc; reflexivity.
  - unfold put, dynamoDB, PutItem; cbn [items calls holdsOpt logCall].
    cbn [itemKey ShipmentSchema].
    unfold dynamoDB; cbn [items calls].
    rewrite replaceItem_absent by exact HL.
    rewrite (removeItem_absent _ _ HL).
    repeat rewrite <- app_assoc; reflexivity.
Qed.

(** X1.  [Put] followed by [Get] of the same ID returns exactly the record
    that was put, whatever was stored under that ID before: the table is the
    old one without that ID, with the new record appended.  Every other
    record reads as before, and a table with unique keys keeps them
    unique. *)
Theorem Put_then_Get_returns_the_record c s (T : Table Shipment.t) :
  Shipment.ID s <> EmptyString ->
  let run := exec (Put c s ;;; Get c (Shipment.ID s)) T in
  fst run = Ok (Some s) /\
  items (snd run) = (removeItem (Shipment.ID s) T ++ [s])%list /\
  (forall id, id <> Shipment.ID s ->
     lookupItem id (items (snd run)) = lookupItem id T) /\
  (keysDistinct T -> keysDistinct (items (snd run))).
Proof.
  intros NE run.
  assert (HR : run =
    (Ok (Some s),
     {| items := (removeItem (Shipment.ID s) T ++ [s])%list;
        calls := ([] ++ CGetItem (Shipment.ID s) ::
                  match lookupItem (Shipment.ID s) T with
                  | Some _ => [CDeleteItem (Shipment.ID s); CPutItem (Shipment.ID s) None]
                  | None => [CPutItem (Shipment.ID s) None]
                  end) ++ [CGetItem (Shipment.ID s)] |})%list).
  { unfold run, exec, bind; rewrite (Put_run c s T [] NE).
    rewrite Get_run, (eqb_empty_false _ NE); unfold logCall; cbn [items calls].
    rewrite lookupItem_app, lookupItem_removeItem; simpl.
    now rewrite String.eqb_refl. }
  rewrite HR; cbn [fst snd items calls]; repeat split.
  - intros id Hne; rewrite lookupItem_app, lookupItem_removeItem_other by assumption.
    destruct (lookupItem id T); [reflexivity|]; simpl.
    destruct (String.eqb_spec (Shipment.ID s) id); [congruence | reflexivity].
  - intros ND; apply keysDistinct_snoc; [now apply keysDistinct_removeItem|].
    apply lookupItem_removeItem.
Qed.

(** "duplicated id" of [TestQueueSDKClientPut]: the stored record is
    discarded and the argument is read back. *)
Lemma Put_then_Get_returns_the_record_witness :
  let c := testClient testDate in
  let s := newTestShipmentItem "A-101" testDate in
  let T := [ newTestShipmentItemAsPeeked "A-101" (testDate - 5000);
             newTestShipmentItem "B-202" testDate ] in
  fst (exec (Put c s ;;; Get c "A-101") T) = Ok (Some s) /\
  items (snd (exec (Put c s ;;; Get c "A-101") T)) =
    [newTestShipmentItem "B-202" testDate; s].
Proof.
  intros c s T; split.
  - exact (proj1 (Put_then_Get_returns_the_record c s T ltac:(discriminate))).
  - exact (proj1 (proj2 (Put_then_Get_returns_the_record c s T ltac:(discriminate)))).
Defined.

Lemma Delete_run c id (T : Table Shipment.t) log :
  id <> EmptyString ->
  Delete c id {| items := T; calls := log |} =
  (Ok tt, {| items := removeItem id T; calls := (log ++ [CDeleteItem id])%list |}).
Proof.
  intros NE; unfold Delete; rewrite (eqb_empty_false _ NE); reflexivity.
Qed.

(** X2.  After [Delete] of a non-empty ID, [Get] of that ID returns [nil]
    with no error; every other record reads as before and unique keys stay
    unique.  [Delete] undoes [Put]: after [Put], [Delete] and [Get] of one
    ID the result is [nil] and the table is the original one without that
    ID. *)
Theorem Delete_then_Get_finds_nothing c id (T : Table Shipment.t) :
  id <> EmptyString ->
  exec (Delete c id ;;; Get c id) T =
    (Ok None, {| items := removeItem id T;
                 calls := [CDeleteItem id; CGetItem id] |}) /\
  (forall id', id' <> id -> lookupItem id' (removeItem id T) = lookupItem id' T) /\
  (keysDistinct T -> keysDistinct (removeItem id T)) /\
  (forall s, Shipment.ID s = id ->
     exec (Put c s ;;; Delete c id ;;; Get c id) T =
       (Ok None,
        {| items := removeItem id T;
           calls := (CGetItem id ::
                     match lookupItem id T with
                     | Some _ => [CDeleteItem id; CPutItem id None]
                     | None => [CPutItem id None]
                     end ++ [CDeleteItem id; CGetItem id])%list |})).
Proof.
  intros NE; split; [|split; [|split]].
  - unfold exec, bind; rewrite (Delete_run c id T [] NE).
    rewrite Get_run, (eqb_empty_false _ NE); unfold logCall; cbn [items calls].
    now rewrite lookupItem_removeItem.
  - intros id' Hne; now apply lookupItem_removeItem_other.
  - apply keysDistinct_removeItem.
  - intros s <-; unfold exec, bind.
    rewrite (Put_run c s T [] NE), (Delete_run c _ _ _ NE).
    rewrite Get_run, (eqb_empty_false _ NE); unfold logCall; cbn [items calls].
    rewrite removeItem_app, removeItem_idempotent; cbn [removeItem filter].
    cbn [itemKey ShipmentSchema]; rewrite String.eqb_refl; cbn [negb].
    rewrite app_nil_r, lookupItem_removeItem.
    destruct (lookupItem (Shipment.ID s) T); reflexivity.
Qed.

Lemma Delete_then_Get_finds_nothing_witness :
  let c := testClient testDate in
  let T := [ newTestShipmentItem "A-101" testDate;
             newTestShipmentItem "B-202" testDate ] in
  exec (Delete c "A-101" ;;; Get c "A-101") T =
    (Ok None,
     {| items := [newTestShipmentItem "B-202" testDate];
        calls := [CDeleteItem "A-101"; CGetItem "A-101"] |}).
Proof.
  intros c T.
  exact (proj1 (Delete_then_Get_finds_nothing c "A-101" T ltac:(discriminate))).
Defined.

(** X3.  [CreateTestData] with a non-empty ID issues exactly three store
    calls -- the delete, the read inside [Put], which finds nothing, and an
    unconditional put: the delete inside [Put] never runs.  It returns the
    default record built from [newTestShipmentData] at the clock's instant,
    at version 1; that record is what the table then holds under the ID,
    whatever it held before; every other record reads as before. *)
Theorem CreateTestData_stores_a_fresh_record c id (T : Table Shipment.t) :
  id <> EmptyString ->
  let shipment := NewDefaultShipment id (Some (newTestShipmentData id)) (clock c) in
  exec (CreateTestData c id) T =
    (Ok shipment,
     {| items := (removeItem id T ++ [shipment])%list;
        calls := [CDeleteItem id; CGetItem id; CPutItem id None] |}) /\
  lookupItem id (removeItem id T ++ [shipment])%list = Some shipment /\
  version shipment = 1 /\
  (forall id', id' <> id ->
     lookupItem id' (removeItem id T ++ [shipment])%list = lookupItem id' T).
Proof.
  intros NE shipment.
  assert (Hid : Shipment.ID shipment = id) by reflexivity.
  assert (NE' : Shipment.ID shipment <> EmptyString) by now rewrite Hid.
  split; [|split; [|split]].
  - unfold exec, CreateTestData, bind; rewrite (eqb_empty_false _ NE).
    rewrite (Delete_run c id T [] NE); fold shipment.
    rewrite (Put_run c shipment _ _ NE'), Hid.
    rewrite lookupItem_removeItem, removeItem_idempotent; reflexivity.
  - rewrite lookupItem_app, lookupItem_removeItem; simpl.
    now rewrite String.eqb_refl.
  - reflexivity.
  - intros id' Hne; rewrite lookupItem_app, lookupItem_removeItem_other by assumption.
    destruct (lookupItem id' T); [reflexivity|]; simpl.
    destruct (String.eqb_spec id id'); [congruence | reflexivity].
Qed.

Lemma CreateTestData_stores_a_fresh_record_witness :
  let c := testClient (testDate + 10000) in
  let T := [newTestShipmentItemAsPeeked "A-101" testDate] in
  exec (CreateTestData c "A-101") T =
    (Ok (newTestShipmentItem "A-101" (testDate + 10000)),
     {| items := [newTestShipmentItem "A-101" (testDate + 10000)];
        calls := [CDeleteItem "A-101"; CGetItem "A-101"; CPutItem "A-101" None] |}).
Proof.
  intros c T.
  exact (proj1 (CreateTestData_stores_a_fresh_record c "A-101" T ltac:(discriminate))).
Defined.

(** X4.  [Upsert], for any implementation of [Shipment.Update], issues one
    read and one unconditional put and never a delete.  On an ID that is not
    stored it appends the argument as it is, and [Get] reads it back.  On a
    stored ID it puts the retrieved record after [Update]; if [Update] keeps
    the ID, the record is replaced in place (the table keeps its size) and
    is what the table then holds under the ID. *)
Theorem Upsert_never_deletes shipmentUpdate c s (T : Table Shipment.t) :
  Shipment.ID s <> EmptyString ->
  (lookupItem (Shipment.ID s) T = None ->
   exec (Upsert shipmentUpdate c s ;;; Get c (Shipment.ID s)) T =
     (Ok (Some s),
      {| items := (T ++ [s])%list;
         calls := [CGetItem (Shipment.ID s); CPutItem (Shipment.ID s) None;
                   CGetItem (Shipment.ID s)] |})) /\
  (forall retrieved, lookupItem (Shipment.ID s) T = Some retrieved ->
     let updated := shipmentUpdate retrieved s (clock c) in
     exec (Upsert shipmentUpdate c s) T =
       (Ok tt,
        {| items := replaceItem updated T;
           calls := [CGetItem (Shipment.ID s);
                     CPutItem (Shipment.ID updated) None] |}) /\
     (Shipment.ID updated = Shipment.ID s ->
      List.length (replaceItem updated T) = List.length T /\
      lookupItem (Shipment.ID s) (replaceItem updated T) = Some updated)).
Proof.
  intros NE; split.
  - intros HL; unfold exec, Upsert, bind.
    rewrite Get_run, (eqb_empty_false _ NE); unfold logCall; cbn [items calls].
    rewrite HL; unfold put, dynamoDB, PutItem; cbn [items calls holdsOpt logCall].
    cbn [itemKey ShipmentSchema].
    rewrite Get_run, (eqb_empty_false _ NE); unfold logCall; cbn [items calls].
    rewrite (replaceItem_absent s T HL), lookupItem_app, HL; simpl.
    now rewrite String.eqb_refl.
  - intros retrieved HL updated; split.
    + unfold exec, Upsert, bind.
      rewrite Get_run, (eqb_empty_false _ NE); unfold logCall; cbn [items calls].
      rewrite HL; reflexivity.
    + intros Hid; split.
      * rewrite <- (length_map itemKey), map_itemKey_replaceItem, length_map;
          [reflexivity|].
        cbn [itemKey ShipmentSchema]; rewrite Hid, HL; discriminate.
      * rewrite lookupItem_replaceItem; cbn [itemKey ShipmentSchema].
        rewrite Hid; now rewrite String.eqb_refl.
Qed.

(** "unique id" of [TestQueueSDKClientUpsert], and an upsert over a stored
    record with an [Update] that stamps it. *)
Lemma Upsert_never_deletes_witness :
  let update := fun (retrieved shipment : Shipment.t) (now : Time) =>
                  TouchShipment now retrieved in
  let c := testClient (testDate + 10000) in
  let s := newTestShipmentItem "B-202" testDate in
  let T := [newTestShipmentItem "A-101" testDate] in
  exec (Upsert update c s ;;; Get c "B-202") T =
    (Ok (Some s),
     {| items := [newTestShipmentItem "A-101" testDate; s];
        calls := [CGetItem "B-202"; CPutItem "B-202" None; CGetItem "B-202"] |}) /\
  exec (Upsert update c (newTestShipmentItemAsReady "A-101" testDate)) T =
    (Ok tt,
     {| items := [TouchShipment (testDate + 10000)
                    (newTestShipmentItem "A-101" testDate)];
        calls := [CGetItem "A-101"; CPutItem "A-101" None] |}).
Proof.
  intros update c s T; split.
  - exact (proj1 (Upsert_never_deletes update c s T ltac:(discriminate)) eq_refl).
  - exact (proj1 (proj2 (Upsert_never_deletes update c
                           (newTestShipmentItemAsReady "A-101" testDate) T
                           ltac:(discriminate))
                    (newTestShipmentItem "A-101" testDate) eq_refl)).
Defined.

(** ** Mutations addressed by ID *)

(** X5.  Each of the six mutations that take an ID ([UpdateStatus],
    [Enqueue], [Remove], [Restore], [SendToDLQ], [Touch]) returns
    [IDNotProvidedError] on the empty ID without any store call -- also the
    four that do not test the ID themselves and get the error from [Get] --
    and returns [IDNotFoundError] on an ID that is not stored, after a
    single [GetItem]; the table is untouched in both cases. *)
Theorem keyed_mutations_need_a_stored_record c m id (T : Table Shipment.t) :
  mutationID m = Some id ->
  (id = EmptyString ->
   exec (perform c m) T = (Err IDNotProvidedError, {| items := T; calls := [] |})) /\
  (id <> EmptyString -> lookupItem id T = None ->
   exec (perform c m) T =
     (Err IDNotFoundError, {| items := T; calls := [CGetItem id] |})).
Proof.
  intros Hm; split.
  - intros ->; destruct m; simpl in Hm; try discriminate; injection Hm as ->;
      reflexivity.
  - intros NE HL; destruct m; simpl in Hm; try discriminate; injection Hm as ->;
      unfold exec, perform, UpdateStatus, Enqueue, Remove, Restore, SendToDLQ,
        Touch, bind;
      rewrite ?(eqb_empty_false _ NE); rewrite Get_run; rewrite ?(eqb_empty_false _ NE);
      unfold logCall; cbn [items calls]; rewrite HL; reflexivity.
Qed.

Lemma keyed_mutations_need_a_stored_record_witness :
  let c := testClient testDate in
  let T := [newTestShipmentItem "A-101" testDate] in
  exec (perform c (MTouch EmptyString)) T =
    (Err IDNotProvidedError, {| items := T; calls := [] |}) /\
  exec (perform c (MRemove "B-202")) T =
    (Err IDNotFoundError, {| items := T; calls := [CGetItem "B-202"] |}).
Proof.
  intros c T; split.
  - exact (proj1 (keyed_mutations_need_a_stored_record c (MTouch EmptyString)
                    EmptyString T eq_refl) eq_refl).
  - exact (proj2 (keyed_mutations_need_a_stored_record c (MRemove "B-202")
                    "B-202" T eq_refl) ltac:(discriminate) eq_refl).
Defined.

Lemma update_applies id e (T : Table Shipment.t) s s' :
  lookupItem id T = Some s ->
  holdsOpt (Condition e) (Some s) = true ->
  applyUpdate (Update e) s = Some s' ->
  updateTable id e T = inr (s', replaceItem s' T).
Proof. intros HL HC HA; unfold updateTable; now rewrite HL, HC, HA. Qed.

Lemma version_condition_holds (x s : Shipment.t) :
  version x = version s ->
  holdsOpt (Some (Equal "system_info.version"
                    (VNum (SystemInfo.Version (Shipment.SystemInfo x))))) (Some s)
    = true.
Proof. unfold version; intros E; simpl; rewrite E; apply Z.eqb_refl. Qed.

Lemma EnqueueExpr_applies now (s : Shipment.t) :
  applyUpdate (Update (EnqueueExpr (MarkAsEnqueued now s))) s = Some (enqueuedAt now s).
Proof. destruct s as [id0 d0 [] q0 l0 dlq0]; reflexivity. Qed.

Lemma lookupItem_replaced (T : Table Shipment.t) s' id :
  Shipment.ID s' = id -> lookupItem id (replaceItem s' T) = Some s'.
Proof.
  intros <-; rewrite lookupItem_replaceItem; cbn [itemKey ShipmentSchema].
  now rewrite String.eqb_refl.
Qed.

Lemma Enqueue_run c id (T : Table Shipment.t) s log :
  id <> EmptyString ->
  lookupItem id T = Some s ->
  Enqueue c id {| items := T; calls := log |} =
  let status := SystemInfo.Status (Shipment.SystemInfo s) in
  if String.eqb status StatusUnderConstruction then
    (Err RecordNotConstructedError,
     {| items := T; calls := (log ++ [CGetItem id])%list |})
  else if negb (String.eqb status StatusReadyToShip) then
    (Err IllegalStateError, {| items := T; calls := (log ++ [CGetItem id])%list |})
  else
    let s' := enqueuedAt (clock c) s in
    (Ok (EnqueueResult.mk (resultOf id s') (Some s')),
     {| items := replaceItem s' T;
        calls := (log ++ [CGetItem id;
                          CUpdateItem id (EnqueueExpr (MarkAsEnqueued (clock c) s));
                          CGetItem id])%list |}).
Proof.
  intros NE HL; cbv zeta.
  pose proof (lookupItem_Some _ _ _ HL) as [_ Hid]; cbn [itemKey ShipmentSchema] in Hid.
  unfold Enqueue, bind; rewrite (eqb_empty_false _ NE), Get_run,
    (eqb_empty_false _ NE); unfold logCall; cbn [items calls]; rewrite HL.
  destruct (String.eqb _ StatusUnderConstruction); [reflexivity|].
  destruct (negb _); [reflexivity|].
  rewrite updateDynamoDBItem_run; cbn [items calls].
  rewrite (update_applies id _ T s (enqueuedAt (clock c) s) HL).
  - rewrite Get_run, (eqb_empty_false _ NE); unfold logCall; cbn [items calls].
    rewrite lookupItem_replaced by (simpl; exact Hid).
    replace (Shipment.ID (enqueuedAt (clock c) s)) with id by (simpl; now rewrite Hid).
    repeat rewrite <- app_assoc; reflexivity.
  - apply version_condition_holds, version_MarkAsEnqueued.
  - apply EnqueueExpr_applies.
Qed.

(** X6.  [Enqueue] of a stored record whose status is [UNDER_CONSTRUCTION]
    returns [RecordNotConstructedError]; of one whose status is neither
    that nor [READY_TO_SHIP], [IllegalStateError].  Whenever [Enqueue] of a
    stored record fails, the status was not [READY_TO_SHIP], the only store
    call was the read, and the table is untouched. *)
Theorem Enqueue_refuses_records_not_ready c id (T : Table Shipment.t) s :
  id <> EmptyString ->
  lookupItem id T = Some s ->
  let status := SystemInfo.Status (Shipment.SystemInfo s) in
  (status = StatusUnderConstruction ->
   exec (Enqueue c id) T =
     (Err RecordNotConstructedError, {| items := T; calls := [CGetItem id] |})) /\
  (status <> StatusUnderConstruction -> status <> StatusReadyToShip ->
   exec (Enqueue c id) T =
     (Err IllegalStateError, {| items := T; calls := [CGetItem id] |})) /\
  (forall e st', exec (Enqueue c id) T = (Err e, st') ->
     status <> StatusReadyToShip /\ st' = {| items := T; calls := [CGetItem id] |}).
Proof.
  intros NE HL status; unfold exec; rewrite (Enqueue_run c id T s [] NE HL).
  cbv zeta; fold status; cbn [app].
  destruct (String.eqb_spec status StatusUnderConstruction) as [E1|E1].
  - split; [reflexivity|]; split; [tauto|].
    intros e st' E; injection E as <- <-; split; [|reflexivity].
    rewrite E1; discriminate.
  - destruct (String.eqb_spec status StatusReadyToShip) as [E2|E2]; cbn [negb].
    + split; [tauto|]; split; [tauto|]. intros e st' E; discriminate.
    + split; [tauto|]; split; [reflexivity|].
      intros e st' E; injection E as <- <-; auto.
Qed.

(** "RecordNotConstructedError" and "IllegalStateError" of
    [TestQueueSDKClientEnqueue]. *)
Lemma Enqueue_refuses_records_not_ready_witness :
  let c := testClient testDate in
  let fresh := newTestShipmentItem "A-101" testDate in
  let peeked := newTestShipmentItemAsPeeked "A-101" testDate in
  exec (Enqueue c "A-101") [fresh] =
    (Err RecordNotConstructedError,
     {| items := [fresh]; calls := [CGetItem "A-101"] |}) /\
  exec (Enqueue c "A-101") [peeked] =
    (Err IllegalStateError,
     {| items := [peeked]; calls := [CGetItem "A-101"] |}).
Proof.
  intros c fresh peeked; split.
  - exact (proj1 (Enqueue_refuses_records_not_ready c "A-101" [fresh] fresh
                    ltac:(discriminate) eq_refl) eq_refl).
  - exact (proj1 (proj2 (Enqueue_refuses_records_not_ready c "A-101" [peeked] peeked
                           ltac:(discriminate) eq_refl))
             ltac:(discriminate) ltac:(discriminate)).
Defined.

Lemma enqueuedAt_in_queue now (s : Shipment.t) :
  inPartition QueueingIndexName (VNum 1) (enqueuedAt now s) = true.
Proof. reflexivity. Qed.

(** X7.  [Enqueue] of a stored record whose status is [READY_TO_SHIP]
    succeeds with a read, one conditional update and a second read.  The
    record it reports is the stored one: version incremented by one, payload
    unchanged, present in the queue index, and eligible for [Peek] at any
    instant and under any visibility timeout. *)
Theorem Enqueue_puts_the_record_in_the_queue c id (T : Table Shipment.t) s :
  id <> EmptyString ->
  lookupItem id T = Some s ->
  SystemInfo.Status (Shipment.SystemInfo s) = StatusReadyToShip ->
  let s' := enqueuedAt (clock c) s in
  exec (Enqueue c id) T =
    (Ok (EnqueueResult.mk (resultOf id s') (Some s')),
     {| items := replaceItem s' T;
        calls := [CGetItem id;
                  CUpdateItem id (EnqueueExpr (MarkAsEnqueued (clock c) s));
                  CGetItem id] |}) /\
  version s' = version s + 1 /\
  In s' (queueIndex (replaceItem s' T)) /\
  (forall c2, eligible c2 s' = true) /\
  Shipment.Data s' = Shipment.Data s.
Proof.
  intros NE HL HS s'; split; [|split; [|split; [|split]]].
  - unfold exec; rewrite (Enqueue_run c id T s [] NE HL); cbv zeta.
    rewrite HS; reflexivity.
  - reflexivity.
  - unfold queueIndex; apply indexItems_In; split; [|apply enqueuedAt_in_queue].
    apply (lookupItem_Some (Shipment.ID s') (replaceItem s' T)).
    now apply lookupItem_replaced.
  - reflexivity.
  - reflexivity.
Qed.

(** "enqueue" of [TestQueueSDKClientEnqueue]. *)
Lemma Enqueue_puts_the_record_in_the_queue_witness :
  let c := testClient (testDate + 10000) in
  let ready := newTestShipmentItemAsReady "A-101" testDate in
  let s' := enqueuedAt (testDate + 10000) ready in
  exec (Enqueue c "A-101") [ready] =
    (Ok (EnqueueResult.mk (resultOf "A-101" s') (Some s')),
     {| items := [s'];
        calls := [CGetItem "A-101";
                  CUpdateItem "A-101"
                    (EnqueueExpr (MarkAsEnqueued (testDate + 10000) ready));
                  CGetItem "A-101"] |}) /\
  In s' (queueIndex [s']).
Proof.
  intros c ready s'; split.
  - exact (proj1 (Enqueue_puts_the_record_in_the_queue c "A-101" [ready] ready
                    ltac:(discriminate) eq_refl eq_refl)).
  - exact (proj1 (proj2 (proj2 (Enqueue_puts_the_record_in_the_queue c "A-101"
                                  [ready] ready ltac:(discriminate) eq_refl eq_refl)))).
Defined.

(** ** Leaving the queue *)

Lemma RemoveExpr_applies now (s : Shipment.t) :
  applyUpdate (Update (RemoveExpr s (FormatRFC3339 now))) s = Some (removedAt now s).
Proof. destruct s as [id0 d0 [] q0 l0 dlq0]; reflexivity. Qed.

Lemma Remove_run c id (T : Table Shipment.t) s log :
  id <> EmptyString ->
  lookupItem id T = Some s ->
  Remove c id {| items := T; calls := log |} =
  if IsRemoved s then
    (Ok (resultOf id s), {| items := T; calls := (log ++ [CGetItem id])%list |})
  else
    let s' := removedAt (clock c) s in
    (Ok (resultOf id s'),
     {| items := replaceItem s' T;
        calls := (log ++ [CGetItem id;
                          CUpdateItem id (RemoveExpr s (FormatRFC3339 (clock c)))])%list |}).
Proof.
  intros NE HL; cbv zeta.
  unfold Remove, bind; rewrite Get_run, (eqb_empty_false _ NE);
    unfold logCall; cbn [items calls]; rewrite HL.
  destruct (IsRemoved s); [reflexivity|].
  rewrite updateDynamoDBItem_run; cbn [items calls].
  rewrite (update_applies id _ T s (removedAt (clock c) s) HL).
  - repeat rewrite <- app_assoc; reflexivity.
  - now apply version_condition_holds.
  - apply RemoveExpr_applies.
Qed.

Lemma Peek_result_indexed c (T : Table Shipment.t) r st' :
  keysDistinct T ->
  exec (Peek c) T = (Ok r, st') ->
  exists s, In s (queueIndex T) /\
            Shipment.ID s = Result.ID (PeekResult.Result r) /\
            eligible c s = true.
Proof.
  intros ND HE.
  destruct (find (eligible c) (queueIndex T)) as [s|] eqn:HF.
  - destruct (String.eqb_spec (Shipment.ID s) EmptyString) as [Hid|Hid].
    + destruct (Peek_keyless c T s HF Hid []) as [ext [E _]].
      unfold exec in HE; rewrite E in HE; discriminate.
    + destruct (Peek_claims c T s ND HF Hid []) as [ext [_ E]].
      unfold exec in HE; rewrite E in HE; injection HE as <- <-.
      apply find_some in HF; exists s; tauto.
  - destruct (Peek_empty c T HF []) as [ext [E _]].
    unfold exec in HE; rewrite E in HE; discriminate.
Qed.

Lemma not_indexed_after index (T : Table Shipment.t) s' :
  keysDistinct T ->
  inPartition index (VNum 1) s' = false ->
  forall x, In x (indexItems index (VNum 1) (replaceItem s' T)) ->
            Shipment.ID x <> Shipment.ID s'.
Proof.
  intros ND HP x HIn; apply indexItems_In in HIn; destruct HIn as [HIn HPx].
  destruct (In_replaceItem s' T x ND HIn) as [->|[_ HK]]; [congruence | exact HK].
Qed.

(** X8.  [Remove] of a stored record that is not yet removed issues one
    update conditioned on the version read.  Afterwards the record is at
    version + 1 with payload and status unchanged, no record with that ID is
    in the queue index or in the DLQ index, and no later [Peek], at any
    instant, returns that ID. *)
Theorem Remove_takes_the_record_out_of_both_queues c id (T : Table Shipment.t) s :
  id <> EmptyString ->
  keysDistinct T ->
  lookupItem id T = Some s ->
  IsRemoved s = false ->
  let s' := removedAt (clock c) s in
  let T' := replaceItem s' T in
  exec (Remove c id) T =
    (Ok (resultOf id s'),
     {| items := T';
        calls := [CGetItem id;
                  CUpdateItem id (RemoveExpr s (FormatRFC3339 (clock c)))] |}) /\
  lookupItem id T' = Some s' /\
  version s' = version s + 1 /\
  (forall x, In x (queueIndex T') -> Shipment.ID x <> id) /\
  (forall x, In x (dlqIndex T') -> Shipment.ID x <> id) /\
  (forall c2 r st2, exec (Peek c2) T' = (Ok r, st2) ->
     Result.ID (PeekResult.Result r) <> id) /\
  Shipment.Data s' = Shipment.Data s /\
  SystemInfo.Status (Shipment.SystemInfo s') = SystemInfo.Status (Shipment.SystemInfo s).
Proof.
  intros NE ND HL HR s' T'.
  pose proof (lookupItem_Some _ _ _ HL) as [_ Hid]; cbn [itemKey ShipmentSchema] in Hid.
  assert (Hid' : Shipment.ID s' = id) by exact Hid.
  assert (HQ : forall x, In x (queueIndex T') -> Shipment.ID x <> id).
  { intros x HIn; rewrite <- Hid'.
    now apply (not_indexed_after QueueingIndexName T s' ND). }
  repeat split.
  - unfold exec; rewrite (Remove_run c id T s [] NE HL), HR; reflexivity.
  - now apply lookupItem_replaced.
  - exact HQ.
  - intros x HIn; rewrite <- Hid'.
    now apply (not_indexed_after DlqQueueingIndexName T s' ND).
  - intros c2 r st2 HE.
    destruct (Peek_result_indexed c2 T' r st2 (keysDistinct_replaceItem _ _ ND) HE)
      as [x [HIn [Hx _]]].
    rewrite <- Hx; now apply HQ.
Qed.

(** "can remove" of [TestQueueSDKClientRemove], on a record of the queue. *)
Lemma Remove_takes_the_record_out_of_both_queues_witness :
  let c := testClient (testDate + 10000) in
  let s := newTestShipmentItemAsEnqueued "A-101" testDate in
  let s' := removedAt (testDate + 10000) s in
  exec (Remove c "A-101") [s] =
    (Ok (resultOf "A-101" s'),
     {| items := [s'];
        calls := [CGetItem "A-101";
                  CUpdateItem "A-101"
                    (RemoveExpr s (FormatRFC3339 (testDate + 10000)))] |}) /\
  (forall x, In x (queueIndex [s']) -> Shipment.ID x <> "A-101").
Proof.
  intros c s s'; split.
  - exact (proj1 (Remove_takes_the_record_out_of_both_queues c "A-101" [s] s
                    ltac:(discriminate) (keysDistinct_single s) eq_refl eq_refl)).
  - exact (proj1 (proj2 (proj2 (proj2
             (Remove_takes_the_record_out_of_both_queues c "A-101" [s] s
                ltac:(discriminate) (keysDistinct_single s) eq_refl eq_refl))))).
Defined.

(** X9.  Two [Remove]s of the same record in a row write once: the second
    finds the record removed, issues only its read, and reports the status,
    timestamp and version the first one left (version + 1, not + 2). *)
Theorem Remove_twice_writes_once c c2 id (T : Table Shipment.t) s :
  id <> EmptyString ->
  lookupItem id T = Some s ->
  IsRemoved s = false ->
  let s' := removedAt (clock c) s in
  exec (Remove c id ;;; Remove c2 id) T =
    (Ok (resultOf id s'),
     {| items := replaceItem s' T;
        calls := [CGetItem id;
                  CUpdateItem id (RemoveExpr s (FormatRFC3339 (clock c)));
                  CGetItem id] |}).
Proof.
  intros NE HL HR s'.
  pose proof (lookupItem_Some _ _ _ HL) as [_ Hid]; cbn [itemKey ShipmentSchema] in Hid.
  assert (HR' : IsRemoved s' = true).
  { unfold s', IsRemoved, removedAt; reflexivity. }
  unfold exec, bind; rewrite (Remove_run c id T s [] NE HL), HR; cbv beta iota zeta.
  rewrite (Remove_run c2 id _ s' _ NE) by (now apply lookupItem_replaced).
  rewrite HR'; reflexivity.
Qed.

Lemma Remove_twice_writes_once_witness :
  let c := testClient (testDate + 10000) in
  let c2 := testClient (testDate + 20000) in
  let s := newTestShipmentItemAsEnqueued "A-101" testDate in
  let s' := removedAt (testDate + 10000) s in
  exec (Remove c "A-101" ;;; Remove c2 "A-101") [s] =
    (Ok (resultOf "A-101" s'),
     {| items := [s'];
        calls := [CGetItem "A-101";
                  CUpdateItem "A-101"
                    (RemoveExpr s (FormatRFC3339 (testDate + 10000)));
                  CGetItem "A-101"] |}).
Proof.
  intros c c2 s s'.
  exact (Remove_twice_writes_once c c2 "A-101" [s] s
           ltac:(discriminate) eq_refl eq_refl).
Defined.

(** ** The dead-letter queue *)

(** X10.  [SendToDLQ] of a stored record that is not in the DLQ and whose
    [system_info.queued] is not 1 -- a record that was never enqueued, or
    one that was removed -- fails: its update is conditioned on
    [system_info.queued = 1] as well as on the version, the store rejects
    it, and the call returns [ConditionalCheckFailedError] with the table
    untouched. *)
Theorem SendToDLQ_requires_a_queued_record c id (T : Table Shipment.t) s :
  id <> EmptyString ->
  lookupItem id T = Some s ->
  IsDLQ s = false ->
  SystemInfo.InQueue (Shipment.SystemInfo s) <> 1 ->
  exec (SendToDLQ c id) T =
    (Err ConditionalCheckFailedError,
     {| items := T;
        calls := [CGetItem id;
                  CUpdateItem id (SendToDLQExpr (MarkAsDLQ (clock c) s))] |}).
Proof.
  intros NE HL HD HQ.
  unfold exec, SendToDLQ, bind; rewrite Get_run, (eqb_empty_false _ NE);
    unfold logCall; cbn [items calls]; rewrite HL, HD.
  rewrite updateDynamoDBItem_run; cbn [items calls].
  unfold updateTable; rewrite HL.
  replace (holdsOpt _ _) with false; [reflexivity|].
  cbn [Condition SendToDLQExpr holdsOpt holds].
  symmetry; apply andb_false_iff; right.
  cbn [getAttr ShipmentSchema]; simpl.
  now apply Z.eqb_neq.
Qed.

Lemma SendToDLQ_requires_a_queued_record_witness :
  let c := testClient (testDate + 10000) in
  let s := newTestShipmentItem "A-101" testDate in
  exec (SendToDLQ c "A-101") [s] =
    (Err ConditionalCheckFailedError,
     {| items := [s];
        calls := [CGetItem "A-101";
                  CUpdateItem "A-101"
                    (SendToDLQExpr (MarkAsDLQ (testDate + 10000) s))] |}).
Proof.
  intros c s.
  apply (SendToDLQ_requires_a_queued_record c "A-101" [s] s);
    [discriminate | reflexivity | reflexivity | vm_compute; discriminate].
Defined.

Lemma sentToDLQAt_in_DLQ now (s : Shipment.t) :
  inPartition DlqQueueingIndexName (VNum 1) (sentToDLQAt now s) = true /\
  inPartition QueueingIndexName (VNum 1) (sentToDLQAt now s) = false.
Proof. split; reflexivity. Qed.

(** X11.  After [SendToDLQ] has moved a queued record, the record is in the
    DLQ index, no record with that ID is in the queue index, and no later
    [Peek], at any instant, returns that ID. *)
Theorem SendToDLQ_moves_the_record_to_the_DLQ_index c id (T : Table Shipment.t) s :
  id <> EmptyString ->
  keysDistinct T ->
  lookupItem id T = Some s ->
  IsDLQ s = false ->
  SystemInfo.InQueue (Shipment.SystemInfo s) = 1 ->
  let s' := sentToDLQAt (clock c) s in
  let T' := replaceItem s' T in
  items (snd (exec (SendToDLQ c id) T)) = T' /\
  In s' (dlqIndex T') /\
  (forall x, In x (queueIndex T') -> Shipment.ID x <> id) /\
  (forall c2 r st2, exec (Peek c2) T' = (Ok r, st2) ->
     Result.ID (PeekResult.Result r) <> id).
Proof.
  intros NE ND HL HD HQ s' T'.
  pose proof (lookupItem_Some _ _ _ HL) as [_ Hid]; cbn [itemKey ShipmentSchema] in Hid.
  assert (Hid' : Shipment.ID s' = id) by exact Hid.
  assert (HO : forall x, In x (queueIndex T') -> Shipment.ID x <> id).
  { intros x HIn; rewrite <- Hid'.
    apply (not_indexed_after QueueingIndexName T s' ND); [|exact HIn].
    apply sentToDLQAt_in_DLQ. }
  split; [|split; [|split]].
  - now rewrite (SendToDLQ_from_queue c id T s NE HL HD HQ).
  - unfold dlqIndex; apply indexItems_In; split; [|apply sentToDLQAt_in_DLQ].
    apply (lookupItem_Some (Shipment.ID s') T'); now apply lookupItem_replaced.
  - exact HO.
  - intros c2 r st2 HE.
    destruct (Peek_result_indexed c2 T' r st2 (keysDistinct_replaceItem _ _ ND) HE)
      as [x [HIn [Hx _]]].
    rewrite <- Hx; now apply HO.
Qed.

Lemma SendToDLQ_moves_the_record_to_the_DLQ_index_witness :
  let c := testClient (testDate + 10000) in
  let s := newTestShipmentItemAsEnqueued "A-101" testDate in
  let s' := sentToDLQAt (testDate + 10000) s in
  items (snd (exec (SendToDLQ c "A-101") [s])) = [s'] /\
  In s' (dlqIndex [s']).
Proof.
  intros c s s'; split.
  - exact (proj1 (SendToDLQ_moves_the_record_to_the_DLQ_index c "A-101" [s] s
                    ltac:(discriminate) (keysDistinct_single s)
                    eq_refl eq_refl eq_refl)).
  - exact (proj1 (proj2 (SendToDLQ_moves_the_record_to_the_DLQ_index c "A-101" [s] s
                           ltac:(discriminate) (keysDistinct_single s)
                           eq_refl eq_refl eq_refl))).
Defined.

(** ** Touch and UpdateStatus *)

Lemma TouchExpr_applies now (s : Shipment.t) :
  applyUpdate (Update (TouchExpr (TouchShipment now s))) s = Some (touchedAt now s).
Proof. destruct s as [id0 d0 [] q0 l0 dlq0]; reflexivity. Qed.

(** X12.  [Touch] of a stored record issues one update conditioned on the
    version read and writes the version (+ 1) and the two last-updated
    timestamps, nothing else: payload and status are unchanged, the record
    stays in whichever index it was in, and its eligibility for [Peek] is
    what it was -- touching a peeked record does not extend its visibility
    timeout.  The top-level timestamp, the sort key of both indexes, becomes
    the clock's instant. *)
Theorem Touch_changes_only_version_and_timestamps c id (T : Table Shipment.t) s :
  id <> EmptyString ->
  lookupItem id T = Some s ->
  let s' := touchedAt (clock c) s in
  exec (Touch c id) T =
    (Ok (resultOf id s'),
     {| items := replaceItem s' T;
        calls := [CGetItem id;
                  CUpdateItem id (TouchExpr (TouchShipment (clock c) s))] |}) /\
  version s' = version s + 1 /\
  Shipment.LastUpdatedTimestamp s' = FormatRFC3339 (clock c) /\
  Shipment.Data s' = Shipment.Data s /\
  SystemInfo.Status (Shipment.SystemInfo s') = SystemInfo.Status (Shipment.SystemInfo s) /\
  (forall index, inPartition index (VNum 1) s = true ->
                 inPartition index (VNum 1) s' = true) /\
  (forall c2, eligible c2 s' = eligible c2 s).
Proof.
  intros NE HL s'; repeat split.
  - unfold exec, Touch, bind; rewrite Get_run, (eqb_empty_false _ NE);
      unfold logCall; cbn [items calls]; rewrite HL.
    rewrite updateDynamoDBItem_run; cbn [items calls].
    rewrite (update_applies id _ T s s' HL); [reflexivity| |apply TouchExpr_applies].
    apply version_condition_holds, version_TouchShipment.
  - intros index; unfold inPartition; cbn [indexEntry ShipmentSchema].
    unfold shipmentIndexEntry, s', touchedAt; cbn [Shipment.Queued Shipment.DLQ
      Shipment.LastUpdatedTimestamp].
    destruct (if String.eqb index QueueingIndexName then Shipment.Queued s
              else if String.eqb index DlqQueueingIndexName then Shipment.DLQ s
              else 0) eqn:E; simpl; try discriminate;
      destruct (Shipment.LastUpdatedTimestamp s); try discriminate; auto.
Qed.

Lemma Touch_changes_only_version_and_timestamps_witness :
  let c := testClient (testDate + 10000) in
  let s := newTestShipmentItemAsPeeked "A-101" testDate in
  let s' := touchedAt (testDate + 10000) s in
  exec (Touch c "A-101") [s] =
    (Ok (resultOf "A-101" s'),
     {| items := [s'];
        calls := [CGetItem "A-101";
                  CUpdateItem "A-101"
                    (TouchExpr (TouchShipment (testDate + 10000) s))] |}).
Proof.
  intros c s s'.
  exact (proj1 (Touch_changes_only_version_and_timestamps c "A-101" [s] s
                  ltac:(discriminate) eq_refl)).
Defined.

Lemma UpdateStatusExpr_applies st now (s : Shipment.t) :
  applyUpdate (Update (UpdateStatusExpr (ChangeStatus st now s))) s =
  Some (statusChangedAt st now s).
Proof. destruct s as [id0 d0 [] q0 l0 dlq0]; reflexivity. Qed.

(** X13.  [UpdateStatus] to a status other than the stored one issues one
    update conditioned on the version read and reports the new status, the
    clock's instant and version + 1, under the record's [system_info.id].
    Repeating the call is then a read-only no-op that reports the same
    status, timestamp and version.  The payload is unchanged, the record
    stays in whichever index it was in, and its eligibility for [Peek] is
    what it was. *)
Theorem UpdateStatus_writes_once c c2 id newStatus (T : Table Shipment.t) s :
  id <> EmptyString ->
  lookupItem id T = Some s ->
  SystemInfo.Status (Shipment.SystemInfo s) <> newStatus ->
  let s' := statusChangedAt newStatus (clock c) s in
  exec (UpdateStatus c id newStatus) T =
    (Ok (Result.mk (SystemInfo.ID (Shipment.SystemInfo s)) newStatus
           (FormatRFC3339 (clock c)) (version s + 1)),
     {| items := replaceItem s' T;
        calls := [CGetItem id;
                  CUpdateItem id
                    (UpdateStatusExpr (ChangeStatus newStatus (clock c) s))] |}) /\
  exec (UpdateStatus c id newStatus ;;; UpdateStatus c2 id newStatus) T =
    (Ok (Result.mk id newStatus (FormatRFC3339 (clock c)) (version s + 1)),
     {| items := replaceItem s' T;
        calls := [CGetItem id;
                  CUpdateItem id
                    (UpdateStatusExpr (ChangeStatus newStatus (clock c) s));
                  CGetItem id] |}) /\
  Shipment.Data s' = Shipment.Data s /\
  (forall index, inPartition index (VNum 1) s = true ->
                 inPartition index (VNum 1) s' = true) /\
  (forall c2, eligible c2 s' = eligible c2 s).
Proof.
  intros NE HL HS s'.
  pose proof (lookupItem_Some _ _ _ HL) as [_ Hid]; cbn [itemKey ShipmentSchema] in Hid.
  assert (E1 : forall log, UpdateStatus c id newStatus {| items := T; calls := log |} =
    (Ok (Result.mk (SystemInfo.ID (Shipment.SystemInfo s)) newStatus
           (FormatRFC3339 (clock c)) (version s + 1)),
     {| items := replaceItem s' T;
        calls := (log ++ [CGetItem id;
                  CUpdateItem id
                    (UpdateStatusExpr (ChangeStatus newStatus (clock c) s))])%list |})).
  { intros log; unfold UpdateStatus, bind; rewrite (eqb_empty_false _ NE), Get_run,
      (eqb_empty_false _ NE); unfold logCall; cbn [items calls]; rewrite HL.
    apply String.eqb_neq in HS; rewrite HS.
    rewrite updateDynamoDBItem_run; cbn [items calls].
    rewrite (update_applies id _ T s s' HL);
      [|apply version_condition_holds, version_ChangeStatus
       |apply UpdateStatusExpr_applies].
    repeat rewrite <- app_assoc; reflexivity. }
  repeat split.
  - apply (E1 []).
  - unfold exec, bind; rewrite (E1 []).
    unfold UpdateStatus, bind; rewrite (eqb_empty_false _ NE), Get_run,
      (eqb_empty_false _ NE); unfold logCall; cbn [items calls].
    rewrite lookupItem_replaced by exact Hid.
    unfold s', statusChangedAt;
      cbn [Shipment.SystemInfo SystemInfo.Status Shipment.ID
           SystemInfo.LastUpdatedTimestamp SystemInfo.Version].
    rewrite String.eqb_refl, Hid; reflexivity.
  - intros index; unfold inPartition; cbn [indexEntry ShipmentSchema].
    unfold shipmentIndexEntry, s', statusChangedAt; cbn [Shipment.Queued Shipment.DLQ
      Shipment.LastUpdatedTimestamp].
    destruct (if String.eqb index QueueingIndexName then Shipment.Queued s
              else if String.eqb index DlqQueueingIndexName then Shipment.DLQ s
              else 0) eqn:E; simpl; try discriminate;
      destruct (Shipment.LastUpdatedTimestamp s); try discriminate; auto.
Qed.

(** "under construction to ready to ship" of [TestQueueSDKClientUpdateStatus],
    followed by the same call again. *)
Lemma UpdateStatus_writes_once_witness :
  let c := testClient (testDate + 10000) in
  let c2 := testClient (testDate + 20000) in
  let s := newTestShipmentItem "A-101" testDate in
  exec (UpdateStatus c "A-101" StatusReadyToShip ;;;
        UpdateStatus c2 "A-101" StatusReadyToShip) [s] =
    (Ok (Result.mk "A-101" StatusReadyToShip (FormatRFC3339 (testDate + 10000)) 2),
     {| items := [statusChangedAt StatusReadyToShip (testDate + 10000) s];
        calls := [CGetItem "A-101";
                  CUpdateItem "A-101"
                    (UpdateStatusExpr
                       (ChangeStatus StatusReadyToShip (testDate + 10000) s));
                  CGetItem "A-101"] |}).
Proof.
  intros c c2 s.
  exact (proj1 (proj2 (UpdateStatus_writes_once c c2 "A-101" StatusReadyToShip [s] s
                         ltac:(discriminate) eq_refl ltac:(discriminate)))).
Defined.

(** ** Restore *)

Lemma RestoreExpr_applies now (s : Shipment.t) :
  applyUpdate (Update (RestoreExpr (MarkAsEnqueued now s))) s = Some (restoredAt now s).
Proof. destruct s as [id0 d0 [] q0 l0 dlq0]; reflexivity. Qed.

(** X14.  [Restore] of a record that is already enqueued returns its
    current fields and writes nothing.  Of any other stored record it issues
    one update conditioned on the version read; afterwards the record is at
    version + 1, in the queue index, enqueued, eligible for [Peek] at once
    whatever its visibility window was, and no record with that ID is in
    the DLQ index. *)
Theorem Restore_puts_the_record_back_in_the_queue c id (T : Table Shipment.t) s :
  id <> EmptyString ->
  keysDistinct T ->
  lookupItem id T = Some s ->
  (IsEnqueued s = true ->
   exec (Restore c id) T =
     (Ok (resultOf id s), {| items := T; calls := [CGetItem id] |})) /\
  (IsEnqueued s = false ->
   let s' := restoredAt (clock c) s in
   let T' := replaceItem s' T in
   exec (Restore c id) T =
     (Ok (resultOf id s'),
      {| items := T';
         calls := [CGetItem id;
                   CUpdateItem id (RestoreExpr (MarkAsEnqueued (clock c) s))] |}) /\
   version s' = version s + 1 /\
   In s' (queueIndex T') /\
   (forall x, In x (dlqIndex T') -> Shipment.ID x <> id) /\
   (forall c2, eligible c2 s' = true) /\
   IsEnqueued s' = true).
Proof.
  intros NE ND HL.
  pose proof (lookupItem_Some _ _ _ HL) as [_ Hid]; cbn [itemKey ShipmentSchema] in Hid.
  split; intros HE.
  - unfold exec, Restore, bind; rewrite Get_run, (eqb_empty_false _ NE);
      unfold logCall; cbn [items calls]; rewrite HL, HE; reflexivity.
  - intros s' T'.
    assert (Hid' : Shipment.ID s' = id) by exact Hid.
    repeat split.
    + unfold exec, Restore, bind; rewrite Get_run, (eqb_empty_false _ NE);
        unfold logCall; cbn [items calls]; rewrite HL, HE.
      rewrite updateDynamoDBItem_run; cbn [items calls].
      rewrite (update_applies id _ T s s' HL); [reflexivity| |apply RestoreExpr_applies].
      apply version_condition_holds, version_MarkAsEnqueued.
    + unfold queueIndex; apply indexItems_In; split; [|reflexivity].
      apply (lookupItem_Some (Shipment.ID s') T'). now apply lookupItem_replaced.
    + intros x HIn; rewrite <- Hid'.
      now apply (not_indexed_after DlqQueueingIndexName T s' ND).
Qed.

Lemma Restore_puts_the_record_back_in_the_queue_witness :
  let c := testClient (testDate + 10000) in
  let s := newTestShipmentItemAsDLQ "A-101" testDate in
  let s' := restoredAt (testDate + 10000) s in
  exec (Restore c "A-101") [s] =
    (Ok (resultOf "A-101" s'),
     {| items := [s'];
        calls := [CGetItem "A-101";
                  CUpdateItem "A-101"
                    (RestoreExpr (MarkAsEnqueued (testDate + 10000) s))] |}) /\
  In s' (queueIndex [s']).
Proof.
  intros c s s'; split.
  - exact (proj1 (proj2 (Restore_puts_the_record_back_in_the_queue c "A-101" [s] s
                           ltac:(discriminate) (keysDistinct_single s) eq_refl)
                    eq_refl)).
  - exact (proj1 (proj2 (proj2
             (proj2 (Restore_puts_the_record_back_in_the_queue c "A-101" [s] s
                       ltac:(discriminate) (keysDistinct_single s) eq_refl)
                eq_refl)))).
Defined.

(** ** Peek and Dequeue *)

(** X15.  A record claimed by [Peek] at instant [t] is not handed out again
    by any [Peek] whose clock reads less than [t] plus its visibility
    timeout: a second successful [Peek] inside the window returns a
    different ID. *)
Theorem Peek_hides_the_record_for_the_visibility_timeout c c2
    (T : Table Shipment.t) r r2 :
  keysDistinct T ->
  fst (exec (Peek c) T) = Ok r ->
  clock c2 < clock c + visibilityTimeoutOf c2 ->
  fst (exec (Peek c2) (items (snd (exec (Peek c) T)))) = Ok r2 ->
  Result.ID (PeekResult.Result r2) <> Result.ID (PeekResult.Result r).
Proof.
  intros ND HE Hlt HE2.
  destruct (find (eligible c) (queueIndex T)) as [s|] eqn:HF.
  - destruct (String.eqb_spec (Shipment.ID s) EmptyString) as [Hid|Hid].
    + destruct (Peek_keyless c T s HF Hid []) as [ext [E _]].
      unfold exec in HE; rewrite E in HE; discriminate.
    + destruct (Peek_claims c T s ND HF Hid []) as [ext [_ E]].
      unfold exec in HE, HE2; rewrite E in HE, HE2; cbn [fst snd items] in HE, HE2.
      injection HE as <-; cbn [PeekResult.Result resultOf Result.ID].
      destruct (Peek c2 {| items := replaceItem (peekedAt (clock c) s) T; calls := [] |})
        as [res2 st2] eqn:E2; cbn [fst] in HE2; subst res2.
      destruct (Peek_result_indexed c2 _ r2 st2 (keysDistinct_replaceItem _ _ ND) E2)
        as [x [HIn [Hx He]]].
      rewrite <- Hx; intros Hsame.
      apply queueIndex_In in HIn.
      destruct (In_replaceItem _ _ _ ND HIn) as [->|[_ HK]].
      * unfold eligible, IsQueueSelected in He.
        cbn [peekedAt Shipment.SystemInfo SystemInfo.SelectedFromQueue
               SystemInfo.PeekUTCTimestamp] in He.
        apply Z.ltb_lt in Hlt; rewrite Hlt in He; discriminate.
      * apply HK; exact Hsame.
  - destruct (Peek_empty c T HF []) as [ext [E _]].
    unfold exec in HE; rewrite E in HE; discriminate.
Qed.

(** Two records in the queue; a second peek ten seconds after the first
    gets the other one. *)
Lemma Peek_hides_the_record_for_the_visibility_timeout_witness :
  let c := testClient (testDate + 10000) in
  let c2 := testClient (testDate + 20000) in
  let T := [ newTestShipmentItemAsEnqueued "A-101" testDate;
             newTestShipmentItemAsEnqueued "B-202" (testDate + 1000) ] in
  exists r r2,
    fst (exec (Peek c) T) = Ok r /\
    fst (exec (Peek c2) (items (snd (exec (Peek c) T)))) = Ok r2 /\
    Result.ID (PeekResult.Result r) = "A-101" /\
    Result.ID (PeekResult.Result r2) = "B-202" /\
    Result.ID (PeekResult.Result r2) <> Result.ID (PeekResult.Result r).
Proof.
  intros c c2 T; do 2 eexists.
  split; [vm_compute; reflexivity|].
  split; [vm_compute; reflexivity|].
  split; [reflexivity|]; split; [reflexivity|].
  apply (Peek_hides_the_record_for_the_visibility_timeout c c2 T);
    [ repeat constructor; simpl; intuition discriminate
    | vm_compute; reflexivity
    | vm_compute; reflexivity
    | vm_compute; reflexivity ].
Defined.

Lemma Dequeue_run c (T : Table Shipment.t) s :
  keysDistinct T ->
  find (eligible c) (queueIndex T) = Some s ->
  Shipment.ID s <> EmptyString ->
  let final := removedAt (clock c) (peekedAt (clock c) s) in
  forall log, exists ext,
    Forall (fun call => isWrite call = false) ext /\
    Dequeue c {| items := T; calls := log |} =
    (Ok (DequeueResult.mk (resultOf (Shipment.ID s) final) (Some final)),
     {| items := replaceItem final T;
        calls := (log ++ ext ++
                  [ CGetItem (Shipment.ID s);
                    CUpdateItem (Shipment.ID s)
                      (PeekExpr (MarkAsPeeked (clock c) s) (version s));
                    CGetItem (Shipment.ID s);
                    CGetItem (Shipment.ID s);
                    CUpdateItem (Shipment.ID s)
                      (RemoveExpr (peekedAt (clock c) s) (FormatRFC3339 (clock c)));
                    CGetItem (Shipment.ID s) ])%list |}).
Proof.
  intros ND HF NE final log.
  destruct (Peek_claims c T s ND HF NE log) as [ext [HR E]].
  exists ext; split; [assumption|].
  unfold Dequeue, bind; rewrite E; cbn [PeekResult.Result resultOf Result.ID].
  rewrite (Remove_run c _ _ (peekedAt (clock c) s) _ NE)
    by (now apply lookupItem_replaced).
  replace (IsRemoved (peekedAt (clock c) s)) with false
    by (unfold IsRemoved, peekedAt; simpl; now rewrite !andb_false_r).
  cbv beta iota zeta; fold final.
  rewrite Get_run, (eqb_empty_false _ NE); unfold logCall; cbn [items calls].
  rewrite replaceItem_replaceItem by reflexivity.
  rewrite lookupItem_replaced by reflexivity.
  repeat rewrite <- app_assoc; reflexivity.
Qed.

Lemma removedAt_out_of_queue now (s : Shipment.t) index :
  inPartition index (VNum 1) (removedAt now s) = false.
Proof.
  unfold inPartition; cbn [indexEntry ShipmentSchema]; unfold shipmentIndexEntry.
  cbn [removedAt Shipment.Queued Shipment.DLQ].
  destruct (String.eqb index QueueingIndexName); [reflexivity|].
  destruct (String.eqb index DlqQueueingIndexName); reflexivity.
Qed.

(** X16.  [Dequeue] on a queue with no eligible record returns
    [EmptyQueueError], writes nothing and leaves the table as it is.
    Otherwise it takes the first eligible record in index order, issues
    exactly two writes -- the update of [Peek] and the update of [Remove] --
    and returns the record as stored afterwards, at version + 2; the queue
    index is then the old one without that record. *)
Theorem Dequeue_claims_and_removes_the_head c (T : Table Shipment.t) :
  keysDistinct T ->
  (find (eligible c) (queueIndex T) = None ->
   fst (exec (Dequeue c) T) = Err EmptyQueueError /\
   items (snd (exec (Dequeue c) T)) = T /\
   filter isWrite (calls (snd (exec (Dequeue c) T))) = []) /\
  (forall s, find (eligible c) (queueIndex T) = Some s ->
     Shipment.ID s <> EmptyString ->
     let final := removedAt (clock c) (peekedAt (clock c) s) in
     let run := exec (Dequeue c) T in
     fst run = Ok (DequeueResult.mk (resultOf (Shipment.ID s) final) (Some final)) /\
     items (snd run) = replaceItem final T /\
     lookupItem (Shipment.ID s) (items (snd run)) = Some final /\
     version final = version s + 2 /\
     filter isWrite (calls (snd run)) =
       [ CUpdateItem (Shipment.ID s)
           (PeekExpr (MarkAsPeeked (clock c) s) (version s));
         CUpdateItem (Shipment.ID s)
           (RemoveExpr (peekedAt (clock c) s) (FormatRFC3339 (clock c))) ] /\
     queueIndex (items (snd run)) = removeItem (Shipment.ID s) (queueIndex T)).
Proof.
  intros ND; split.
  - intros HF; destruct (Peek_empty c T HF []) as [ext [E HR]].
    unfold exec, Dequeue, bind; rewrite E; cbn [fst snd items calls].
    repeat split; now apply filter_reads.
  - intros s HF NE final run.
    destruct (Dequeue_run c T s ND HF NE []) as [ext [HR E]].
    unfold run, exec; rewrite E; cbn [fst snd items calls app]; repeat split.
    + now apply lookupItem_replaced.
    + unfold final, version; simpl; lia.
    + rewrite filter_app, (filter_reads _ HR); reflexivity.
    + unfold queueIndex.
      rewrite (indexItems_replaceItem_out _ _ final T ND)
        by apply removedAt_out_of_queue.
      reflexivity.
Qed.

(** "can dequeue when not selected" of [TestQueueSDKClientDequeue]. *)
Lemma Dequeue_claims_and_removes_the_head_witness :
  let c := testClient (testDate + 10000) in
  let s := newTestShipmentItemAsEnqueued "B-202" testDate in
  let T := [newTestShipmentItem "A-101" testDate; s] in
  let final := removedAt (testDate + 10000) (peekedAt (testDate + 10000) s) in
  fst (exec (Dequeue c) T) =
    Ok (DequeueResult.mk (resultOf "B-202" final) (Some final)) /\
  version final = 3 /\
  queueIndex (items (snd (exec (Dequeue c) T))) = [].
Proof.
  intros c s T final.
  assert (ND : keysDistinct T)
    by (repeat constructor; simpl; intuition discriminate).
  split; [|split].
  - exact (proj1 (proj2 (Dequeue_claims_and_removes_the_head c T ND)
                    s eq_refl ltac:(discriminate))).
  - exact (proj1 (proj2 (proj2 (proj2
             (proj2 (Dequeue_claims_and_removes_the_head c T ND)
                s eq_refl ltac:(discriminate)))))).
  - exact (proj2 (proj2 (proj2 (proj2 (proj2
             (proj2 (Dequeue_claims_and_removes_the_head c T ND)
                s eq_refl ltac:(discriminate))))))).
Defined.

Lemma dequeueAll_steps c n : forall (T : Table Shipment.t),
  keysDistinct T ->
  List.length (queueIndex T) = n ->
  Forall (fun s => eligible c s = true /\ Shipment.ID s <> EmptyString)
         (queueIndex T) ->
  exists T', steps (dequeueAll c n) T (Ok (map Shipment.ID (queueIndex T))) T' /\
             queueIndex T' = [] /\ keysDistinct T'.
Proof.
  induction n as [|n IH]; intros T ND Hlen HF.
  - apply length_zero_iff_nil in Hlen; rewrite Hlen.
    exists T; split; [apply steps_ret | auto].
  - destruct (queueIndex T) as [|s rest] eqn:EQ; [discriminate|].
    inversion HF as [|x l [He NE] HF']; subst.
    assert (Hfind : find (eligible c) (queueIndex T) = Some s)
      by (rewrite EQ; simpl; now rewrite He).
    set (final := removedAt (clock c) (peekedAt (clock c) s)).
    set (T1 := replaceItem final T).
    assert (HQ1 : queueIndex T1 = rest).
    { unfold T1, queueIndex.
      rewrite (indexItems_replaceItem_out _ _ final T ND)
        by apply removedAt_out_of_queue.
      fold (queueIndex T); rewrite EQ.
      change (itemKey final) with (itemKey s).
      apply (removeItem_head s rest).
      rewrite <- EQ; now apply keysDistinct_indexItems. }
    assert (ND1 : keysDistinct T1) by now apply keysDistinct_replaceItem.
    destruct (IH T1 ND1) as [T' [HS [HE ND']]].
    + rewrite HQ1; simpl in Hlen; lia.
    + now rewrite HQ1.
    + exists T'; split; [|auto].
      cbn [dequeueAll map].
      eapply steps_bind with (T' := T1).
      * intros log; destruct (Dequeue_run c T s ND Hfind NE log) as [ext [_ E]].
        eexists; exact E.
      * cbn [DequeueResult.Result resultOf Result.ID].
        eapply steps_bind; [exact HS|].
        rewrite HQ1; apply steps_ret.
Qed.

(** X17.  On a table whose queued records are all eligible, as many
    [Dequeue]s as there are queued records return their IDs in index order
    -- ascending top-level [last_updated_timestamp] -- each exactly once;
    the queue index is then empty and one more [Dequeue] returns
    [EmptyQueueError]. *)
Theorem Dequeue_drains_the_queue_in_index_order c (T : Table Shipment.t) :
  keysDistinct T ->
  Forall (fun s => eligible c s = true /\ Shipment.ID s <> EmptyString)
         (queueIndex T) ->
  let n := List.length (queueIndex T) in
  keyOrdered QueueingIndexName (queueIndex T) /\
  fst (exec (dequeueAll c n) T) = Ok (map Shipment.ID (queueIndex T)) /\
  queueIndex (items (snd (exec (dequeueAll c n) T))) = [] /\
  fst (exec (dequeueAll c n ;;; Dequeue c) T) = Err EmptyQueueError.
Proof.
  intros ND HF n.
  destruct (dequeueAll_steps c n T ND eq_refl HF) as [T' [HS [HE ND']]].
  split; [apply indexItems_keyOrdered|].
  destruct (steps_exec _ _ _ _ HS) as [Hr Hi].
  split; [exact Hr|]; split; [now rewrite Hi|].
  eapply steps_exec, steps_bind; [exact HS|].
  assert (HP : find (eligible c) (queueIndex T') = None) by now rewrite HE.
  intros log; destruct (Peek_empty c T' HP log) as [ext [E _]].
  eexists; unfold Dequeue, bind; rewrite E; reflexivity.
Qed.

(** Three records enqueued out of table order come out oldest first. *)
Lemma Dequeue_drains_the_queue_in_index_order_witness :
  let c := testClient (testDate + 10000) in
  let T := [ newTestShipmentItemAsEnqueued "C-303" (testDate + 2000);
             newTestShipmentItemAsEnqueued "A-101" testDate;
             newTestShipmentItem "D-404" testDate;
             newTestShipmentItemAsEnqueued "B-202" (testDate + 1000) ] in
  fst (exec (dequeueAll c 3) T) = Ok ["A-101"; "B-202"; "C-303"] /\
  fst (exec (dequeueAll c 3 ;;; Dequeue c) T) = Err EmptyQueueError.
Proof.
  intros c T.
  assert (ND : keysDistinct T)
    by (repeat constructor; simpl; intuition discriminate).
  assert (HF : Forall (fun s => eligible c s = true /\ Shipment.ID s <> EmptyString)
                      (queueIndex T))
    by (repeat constructor; discriminate).
  split.
  - exact (proj1 (proj2 (Dequeue_drains_the_queue_in_index_order c T ND HF))).
  - exact (proj2 (proj2 (proj2 (Dequeue_drains_the_queue_in_index_order c T ND HF)))).
Defined.

(** ** DLQ statistics *)

Lemma dlqItem_counts pre x :
  dlqItem (mkDlqVars (Z.of_nat (List.length pre)) (firstn 100 (map Shipment.ID pre))) x =
  mkDlqVars (Z.of_nat (List.length (pre ++ [x])))
            (firstn 100 (map Shipment.ID (pre ++ [x]))).
Proof.
  unfold dlqItem; cbn [totalDLQSize listBANs].
  rewrite map_app, length_app; cbn [map List.length].
  rewrite firstn_snoc; f_equal; lia.
Qed.

Lemma fold_dlqItem l pre :
  fold_left dlqItem l
    (mkDlqVars (Z.of_nat (List.length pre)) (firstn 100 (map Shipment.ID pre))) =
  mkDlqVars (Z.of_nat (List.length (pre ++ l)))
            (firstn 100 (map Shipment.ID (pre ++ l))).
Proof.
  revert pre; induction l as [|x l IH]; intros pre; simpl.
  - now rewrite app_nil_r.
  - rewrite dlqItem_counts, IH, <- app_assoc; reflexivity.
Qed.

Lemma dlqLoop_run fuel c start v (T : Table Shipment.t) :
  (List.length (skipn (startOf start) (dlqIndex T)) < fuel)%nat ->
  readSteps (dlqLoop fuel c start v) T
    (Ok (fold_left dlqItem (skipn (startOf start) (dlqIndex T)) v)).
Proof.
  revert start v; induction fuel as [|fuel IH]; intros start v Hfuel; [lia|].
  cbn [dlqLoop].
  eapply readSteps_bind; [apply readSteps_Query|]; cbv beta.
  rewrite queryPage_Items; fold (dlqIndex T).
  set (rest := skipn (startOf start) (dlqIndex T)) in *.
  destruct (LastEvaluatedKey (queryPage DlqQueueingIndexName (VNum 1) 250 start T))
    as [k|] eqn:EL.
  - apply queryPage_more in EL; fold (dlqIndex T) in EL; fold rest in EL.
    destruct EL as [-> Hlen].
    rewrite <- (firstn_skipn 250 rest) at 2; rewrite fold_left_app.
    replace (skipn 250 rest)
      with (skipn (startOf (Some (startOf start + 250)%nat)) (dlqIndex T)).
    + apply IH; simpl startOf.
      unfold rest in *; rewrite length_skipn in *; lia.
    + simpl startOf; unfold rest; rewrite skipn_skipn; f_equal; lia.
  - apply queryPage_last in EL; rewrite queryPage_Items in EL.
    fold (dlqIndex T) in EL; fold rest in EL.
    rewrite EL; apply readSteps_ret.
Qed.

Lemma GetDLQStats_run c (T : Table Shipment.t) :
  readSteps (GetDLQStats c) T
    (Ok (DLQStats.mk (firstn 100 (map Shipment.ID (dlqIndex T)))
                     (Z.of_nat (List.length (dlqIndex T))))).
Proof.
  unfold GetDLQStats.
  eapply readSteps_bind with
    (a := mkDlqVars (Z.of_nat (List.length (dlqIndex T)))
                    (firstn 100 (map Shipment.ID (dlqIndex T))));
    [|apply readSteps_ret].
  intros log.
  assert (Hfuel : (List.length (skipn (startOf None) (dlqIndex T))
                   < S (List.length T))%nat).
  { simpl; unfold dlqIndex.
    pose proof (indexItems_length DlqQueueingIndexName (VNum 1) T); lia. }
  destruct (dlqLoop_run _ c None (mkDlqVars 0 []) T Hfuel log) as [ext [E HR]].
  exists ext; split; [|assumption].
  unfold withScanFuel; cbn [items]; rewrite E.
  simpl startOf; simpl skipn.
  change (mkDlqVars 0 []) with
    (mkDlqVars (Z.of_nat (List.length (@nil Shipment.t)))
               (firstn 100 (map Shipment.ID []))).
  now rewrite fold_dlqItem.
Qed.

Lemma dlqIndex_In (T : Table Shipment.t) s :
  In s (dlqIndex T) <->
  In s T /\ Shipment.DLQ s = 1 /\ Shipment.LastUpdatedTimestamp s <> None.
Proof.
  unfold dlqIndex; rewrite indexItems_In.
  assert (HP : inPartition DlqQueueingIndexName (VNum 1) s = true <->
               Shipment.DLQ s = 1 /\ Shipment.LastUpdatedTimestamp s <> None).
  { unfold inPartition; cbn [indexEntry ShipmentSchema]; unfold shipmentIndexEntry.
    replace (String.eqb DlqQueueingIndexName QueueingIndexName) with false
      by reflexivity.
    replace (String.eqb DlqQueueingIndexName DlqQueueingIndexName) with true
      by reflexivity.
    destruct (Z.eqb_spec (Shipment.DLQ s) 0) as [E0|E0].
    - split; [discriminate | intros [E1 _]; lia].
    - destruct (Shipment.LastUpdatedTimestamp s) as [t|].
      + cbn [Value_eqb]; rewrite Z.eqb_eq; split; [intros ->; split; [reflexivity|discriminate] | tauto].
      + split; [discriminate | intros [_ HN]; congruence]. }
  rewrite HP; tauto.
Qed.

(** X18.  [GetDLQStats] reports, for every table and however many pages the
    query takes: as total, the number of records in the DLQ index -- the
    stored records with [DLQ = 1] and a top-level timestamp; as IDs, the
    first [min 100 total] of them in ascending timestamp order.  It issues
    no write and leaves the table as it is. *)
Theorem GetDLQStats_counts_the_DLQ_index c (T : Table Shipment.t) :
  let D := dlqIndex T in
  let run := exec (GetDLQStats c) T in
  fst run = Ok (DLQStats.mk (firstn 100 (map Shipment.ID D))
                            (Z.of_nat (List.length D))) /\
  items (snd run) = T /\
  filter isWrite (calls (snd run)) = [] /\
  (forall s, In s D <->
     In s T /\ Shipment.DLQ s = 1 /\ Shipment.LastUpdatedTimestamp s <> None) /\
  keyOrdered DlqQueueingIndexName D /\
  List.length (firstn 100 (map Shipment.ID D)) = Nat.min 100 (List.length D).
Proof.
  intros D run.
  destruct (GetDLQStats_run c T []) as [ext [E HR]].
  unfold run, exec; rewrite E; cbn [fst snd items calls app].
  split; [reflexivity|]; split; [reflexivity|].
  split; [now apply filter_reads|].
  split; [intros s; apply dlqIndex_In|].
  split; [apply indexItems_keyOrdered|].
  now rewrite length_firstn, length_map.
Qed.

Lemma queueIndex_entry (s : Shipment.t) :
  inPartition QueueingIndexName (VNum 1) s = true <->
  Shipment.Queued s = 1 /\
  Shipment.LastUpdatedTimestamp s = Some (sortKey QueueingIndexName s).
Proof.
  unfold inPartition, sortKey; cbn [indexEntry ShipmentSchema];
    unfold shipmentIndexEntry.
  replace (String.eqb QueueingIndexName QueueingIndexName) with true by reflexivity.
  destruct (Z.eqb_spec (Shipment.Queued s) 0) as [E0|E0].
  - split; [discriminate | intros [E1 _]; lia].
  - destruct (Shipment.LastUpdatedTimestamp s) as [t|].
    + cbn [Value_eqb]; rewrite Z.eqb_eq; tauto.
    + split; [discriminate | intros [_ HN]; discriminate].
Qed.

(** X19.  A successful [Peek] returns a stored record that is queued
    ([queued = 1]), eligible, and oldest among such records: no queued,
    eligible record of the table has a smaller top-level
    [last_updated_timestamp]. *)
Theorem Peek_claims_the_oldest_eligible_record c (T : Table Shipment.t) r :
  keysDistinct T ->
  fst (exec (Peek c) T) = Ok r ->
  exists s t,
    In s T /\ Shipment.ID s = Result.ID (PeekResult.Result r) /\
    Shipment.Queued s = 1 /\ Shipment.LastUpdatedTimestamp s = Some t /\
    eligible c s = true /\
    forall x t', In x T -> Shipment.Queued x = 1 ->
                 Shipment.LastUpdatedTimestamp x = Some t' ->
                 eligible c x = true -> t <= t'.
Proof.
  intros ND HE.
  destruct (find (eligible c) (queueIndex T)) as [s|] eqn:HF.
  - destruct (String.eqb_spec (Shipment.ID s) EmptyString) as [Hid|Hid].
    + destruct (Peek_keyless c T s HF Hid []) as [ext [E _]].
      unfold exec in HE; rewrite E in HE; discriminate.
    + destruct (Peek_claims c T s ND HF Hid []) as [ext [_ E]].
      unfold exec in HE; rewrite E in HE; cbn [fst] in HE; injection HE as <-.
      pose proof (find_some _ _ HF) as [HIn He].
      unfold queueIndex in HIn; apply indexItems_In in HIn; destruct HIn as [HIn HP].
      apply queueIndex_entry in HP; destruct HP as [HQ HL].
      exists s, (sortKey QueueingIndexName s); repeat split; try assumption.
      intros x t' HxT HxQ HxL Hxe.
      assert (HxI : In x (queueIndex T)).
      { unfold queueIndex; apply indexItems_In; split; [assumption|].
        apply queueIndex_entry; split; [assumption|].
        rewrite HxL; f_equal.
        unfold sortKey; cbn [indexEntry ShipmentSchema]; unfold shipmentIndexEntry.
        replace (String.eqb QueueingIndexName QueueingIndexName) with true
          by reflexivity.
        rewrite HxQ, HxL; reflexivity. }
      pose proof (find_first_of_sorted
                    (fun u v => sortKey QueueingIndexName u <= sortKey QueueingIndexName v)
                    (eligible c) (queueIndex T) s (fun a => Z.le_refl _)
                    (keyOrdered_strong _ _ (indexItems_keyOrdered _ _ T))
                    HF x HxI Hxe) as Hle.
      cbv beta in Hle.
      replace t' with (sortKey QueueingIndexName x); [exact Hle|].
      unfold sortKey; cbn [indexEntry ShipmentSchema]; unfold shipmentIndexEntry.
      replace (String.eqb QueueingIndexName QueueingIndexName) with true
        by reflexivity.
      rewrite HxQ, HxL; reflexivity.
  - destruct (Peek_empty c T HF []) as [ext [E _]].
    unfold exec in HE; rewrite E in HE; discriminate.
Qed.

(** The record enqueued first is claimed, although it is stored last. *)
Lemma Peek_claims_the_oldest_eligible_record_witness :
  let c := testClient (testDate + 10000) in
  let T := [ newTestShipmentItemAsEnqueued "B-202" (testDate + 1000);
             newTestShipmentItemAsEnqueued "A-101" testDate ] in
  exists r,
    fst (exec (Peek c) T) = Ok r /\
    Result.ID (PeekResult.Result r) = "A-101" /\
    exists s t,
      In s T /\ Shipment.ID s = Result.ID (PeekResult.Result r) /\
      Shipment.Queued s = 1 /\ Shipment.LastUpdatedTimestamp s = Some t /\
      eligible c s = true /\
      forall x t', In x T -> Shipment.Queued x = 1 ->
                   Shipment.LastUpdatedTimestamp x = Some t' ->
                   eligible c x = true -> t <= t'.
Proof.
  intros c T; eexists.
  split; [vm_compute; reflexivity|].
  split; [reflexivity|].
  apply (Peek_claims_the_oldest_eligible_record c T);
    [ repeat constructor; simpl; intuition discriminate
    | vm_compute; reflexivity ].
Defined.

(** ** From Enqueue to Dequeue *)

Lemma indexItems_replaceItem_alone (T : Table Shipment.t) s' :
  queueIndex T = [] ->
  inPartition QueueingIndexName (VNum 1) s' = true ->
  queueIndex (replaceItem s' T) = [s'].
Proof.
  unfold queueIndex, indexItems; intros HE HP.
  assert (HF : filter (inPartition QueueingIndexName (VNum 1)) T = []).
  { destruct (filter _ T) as [|x l] eqn:EF; [reflexivity|].
    assert (HIn : In x (sortByKey QueueingIndexName (x :: l)))
      by (apply sortByKey_In; now left).
    rewrite HE in HIn; destruct HIn. }
  clear HE; replace (filter _ (replaceItem s' T)) with [s']; [reflexivity|].
  induction T as [|a T IH]; cbn [replaceItem filter] in *.
  - now rewrite HP.
  - destruct (inPartition QueueingIndexName (VNum 1) a) eqn:Ea; [discriminate|].
    destruct (String.eqb (itemKey a) (itemKey s')); cbn [filter].
    + now rewrite HP, HF.
    + rewrite Ea; now apply IH.
Qed.

(** X20.  On a table whose queue is empty, [Enqueue] of a ready record
    followed by [Dequeue] hands that record back: the ID is the one
    enqueued, the payload is unchanged, the version is three higher (one
    update each for [Enqueue], [Peek] and [Remove]), and the queue is empty
    again. *)
Theorem Enqueue_then_Dequeue_returns_the_record c c2 id (T : Table Shipment.t) s :
  id <> EmptyString ->
  keysDistinct T ->
  lookupItem id T = Some s ->
  SystemInfo.Status (Shipment.SystemInfo s) = StatusReadyToShip ->
  queueIndex T = [] ->
  let final := removedAt (clock c2) (peekedAt (clock c2) (enqueuedAt (clock c) s)) in
  let run := exec (Enqueue c id ;;; Dequeue c2) T in
  fst run = Ok (DequeueResult.mk (resultOf id final) (Some final)) /\
  items (snd run) = replaceItem final T /\
  version final = version s + 3 /\
  Shipment.Data final = Shipment.Data s /\
  queueIndex (items (snd run)) = [].
Proof.
  intros NE ND HL HS HE final run.
  pose proof (lookupItem_Some _ _ _ HL) as [_ Hid]; cbn [itemKey ShipmentSchema] in Hid.
  set (s1 := enqueuedAt (clock c) s).
  assert (Hid1 : Shipment.ID s1 = id) by exact Hid.
  assert (HQ : queueIndex (replaceItem s1 T) = [s1])
    by (apply indexItems_replaceItem_alone; [assumption | reflexivity]).
  assert (HF : find (eligible c2) (queueIndex (replaceItem s1 T)) = Some s1)
    by (rewrite HQ; reflexivity).
  assert (NE1 : Shipment.ID s1 <> EmptyString) by now rewrite Hid1.
  destruct (Dequeue_run c2 _ s1 (keysDistinct_replaceItem _ _ ND) HF NE1
              [CGetItem id;
               CUpdateItem id (EnqueueExpr (MarkAsEnqueued (clock c) s));
               CGetItem id]) as [ext [_ E]].
  assert (HR : run =
    (Ok (DequeueResult.mk (resultOf id final) (Some final)),
     snd (Dequeue c2
            {| items := replaceItem s1 T;
               calls := [CGetItem id;
                         CUpdateItem id (EnqueueExpr (MarkAsEnqueued (clock c) s));
                         CGetItem id] |}))).
  { unfold run, exec, bind; rewrite (Enqueue_run c id T s [] NE HL), HS.
    cbv beta iota zeta; cbn [String.eqb negb app]; fold s1.
    replace (String.eqb StatusReadyToShip StatusUnderConstruction) with false
      by reflexivity.
    replace (String.eqb StatusReadyToShip StatusReadyToShip) with true by reflexivity.
    cbn [negb]; rewrite E, Hid1; reflexivity. }
  rewrite HR, E; cbn [fst snd items].
  rewrite replaceItem_replaceItem by reflexivity.
  split; [reflexivity|]; split; [reflexivity|].
  split; [unfold final, version; simpl; lia|].
  split; [reflexivity|].
  unfold queueIndex.
  rewrite (indexItems_replaceItem_out _ _ final T ND) by apply removedAt_out_of_queue.
  fold (queueIndex T); now rewrite HE.
Qed.

Lemma Enqueue_then_Dequeue_returns_the_record_witness :
  let c := testClient (testDate + 10000) in
  let c2 := testClient (testDate + 20000) in
  let s := newTestShipmentItemAsReady "A-101" testDate in
  let final := removedAt (testDate + 20000)
                 (peekedAt (testDate + 20000) (enqueuedAt (testDate + 10000) s)) in
  fst (exec (Enqueue c "A-101" ;;; Dequeue c2) [s]) =
    Ok (DequeueResult.mk (resultOf "A-101" final) (Some final)) /\
  version final = 4.
Proof.
  intros c c2 s final; split.
  - exact (proj1 (Enqueue_then_Dequeue_returns_the_record c c2 "A-101" [s] s
                    ltac:(discriminate) (keysDistinct_single s)
                    eq_refl eq_refl eq_refl)).
  - exact (proj1 (proj2 (proj2
             (Enqueue_then_Dequeue_returns_the_record c c2 "A-101" [s] s
                ltac:(discriminate) (keysDistinct_single s)
                eq_refl eq_refl eq_refl)))).
Defined.

End SdkFacts.

(** * Properties of the producer *)

Module ProducerFacts.
Import Producer.

Lemma repeat_cons_length {A} (x : A) (l : list A) :
  l = repeat x (List.length l) -> x :: l = repeat x (List.length (x :: l)).
Proof. intros E; simpl; now rewrite <- E. Qed.

(** ** The producer of the earlier file: one ID for every message *)

Section OneID.
Context {T M S R : Type}.
Variable zero : T.
Variable send : Client T M S.
Variable holds : string -> S -> Prop.

(** What the client is assumed to do with IDs: an ID it accepted is held,
    and a send under a held ID is rejected as a duplicate, the ID staying
    held. *)
Hypothesis accepted_is_held :
  forall input s out s',
    send input s = (Ok out, s') -> holds (SendMessageInput.ID input) s'.
Hypothesis held_is_rejected :
  forall input s,
    holds (SendMessageInput.ID input) s ->
    exists s', send input s = (Err IDDuplicatedError, s') /\
               holds (SendMessageInput.ID input) s'.

Lemma Part001_Produce_run u params (r : R) (s : S) :
  Part001.Produce zero (Part001.mkProducer send (fun r0 : R => (u, r0))) params (r, s) =
  match send (SendMessageInput.mk u
                (Part001.ProduceInput.Data
                   match params with
                   | Some params => params
                   | None => Part001.ProduceInput.mk zero
                   end) 0) s with
  | (Err err, s') => ((ProduceOutput.mk None, Some err), (r, s'))
  | (Ok out, s') =>
      ((ProduceOutput.mk (Some (SendMessageOutput.Message out)), None), (r, s'))
  end.
Proof. reflexivity. Qed.

Lemma Part001_held_all_rejected u inputs : forall (r : R) (s : S),
  holds u s ->
  fst (Part001.produceEach zero (Part001.mkProducer send (fun r0 : R => (u, r0)))
         inputs (r, s)) = repeat duplicate (List.length inputs).
Proof.
  induction inputs as [|params rest IH]; intros r s Hh; [reflexivity|].
  cbn [Part001.produceEach List.length repeat].
  rewrite Part001_Produce_run.
  destruct (held_is_rejected
              (SendMessageInput.mk u
                 (Part001.ProduceInput.Data
                    match params with
                    | Some params => params
                    | None => Part001.ProduceInput.mk zero
                    end) 0) s Hh) as [s' [E Hh']].
  rewrite E; cbn [SendMessageInput.ID] in Hh'.
  specialize (IH r s' Hh').
  destruct (Part001.produceEach zero _ rest (r, s')) as [ress w'']; cbn [fst] in *.
  now rewrite IH.
Qed.

(** X21.  The producer of the earlier file draws its UUID once, in
    [NewProducer]: [uuid.NewV4().String] is a method value bound to that one
    UUID, so every call of the generator returns the same text and every
    [Produce] sends under the same ID.  With a client that holds the IDs it
    accepted and rejects a send under a held ID as a duplicate, at most one
    call of a run of [Produce] delivers a message, and every call after a
    delivery returns an empty output and [IDDuplicatedError]. *)
Theorem Part001_producer_delivers_at_most_one_message
    (NewV4 : Generator R) (r0 : R) inputs (s : S) :
  let p := fst (Part001.NewProducer NewV4 send r0) in
  let r1 := snd (Part001.NewProducer NewV4 send r0) in
  let results := fst (Part001.produceEach zero p inputs (r1, s)) in
  (forall r, fst (Part001.uuidGenerator p r) = fst (NewV4 r0)) /\
  (List.length (filter delivered results) <= 1)%nat /\
  (forall pre out post,
     results = (pre ++ (out, None) :: post)%list ->
     post = repeat duplicate (List.length post)).
Proof.
  unfold Part001.NewProducer; destruct (NewV4 r0) as [u r1]; cbn [fst snd].
  split; [reflexivity|].
  set (p := Part001.mkProducer send (fun r2 : R => (u, r2))).
  assert (Hstep : forall params (r : R) (s : S),
            exists res s', Part001.Produce zero p params (r, s) = (res, (r, s')) /\
                           (delivered res = true -> holds u s') /\
                           (forall out, res = (out, None) -> delivered res = true)).
  { intros params r s1; unfold p; rewrite Part001_Produce_run.
    destruct (send _ s1) as [[out|err] s'] eqn:E.
    - do 2 eexists; split; [reflexivity|]; split; [|reflexivity].
      intros _; apply (accepted_is_held _ _ _ _ E).
    - do 2 eexists; split; [reflexivity|]; split; [discriminate|].
      intros out0 E0; discriminate. }
  split.
  - revert s; generalize r1; induction inputs as [|params rest IH]; intros r s;
      [simpl; lia|].
    cbn [Part001.produceEach].
    destruct (Hstep params r s) as [res [s' [E [Hd _]]]]; rewrite E.
    pose proof (Part001_held_all_rejected u rest r s') as HA; fold p in HA.
    specialize (IH r s').
    destruct (Part001.produceEach zero p rest (r, s')) as [ress w'']; cbn [fst] in *.
    cbn [filter]; destruct (delivered res) eqn:Ed; [|exact IH].
    rewrite (HA (Hd eq_refl)); cbn [List.length].
    replace (filter delivered (repeat duplicate (List.length rest))) with (@nil (ProduceOutput.t M * option Error));
      [simpl; lia|].
    clear; induction (List.length rest) as [|n IHn]; [reflexivity | exact IHn].
  - revert s; generalize r1; induction inputs as [|params rest IH]; intros r s pre out post.
    + destruct pre; discriminate.
    + cbn [Part001.produceEach].
      destruct (Hstep params r s) as [res [s' [E [Hd Hn]]]]; rewrite E.
      pose proof (Part001_held_all_rejected u rest r s') as HA; fold p in HA.
      specialize (IH r s').
      destruct (Part001.produceEach zero p rest (r, s')) as [ress w'']; cbn [fst] in *.
      destruct pre as [|x pre]; cbn [app]; intros EQ; injection EQ as E1 E2.
      * subst res ress; rewrite (HA (Hd (Hn out eq_refl))).
        now rewrite repeat_length.
      * now apply (IH pre out post).
Qed.

End OneID.

(** ** The producer of producer.go: one new ID for every call *)

Section FreshIDs.
Context {T M S R : Type}.
Variable zero : T.
Variable send : Client T M S.
Variable holds : string -> S -> Prop.

Lemma NewProducer_last_option_wins (NewString gen : Generator R) opts :
  idGenerator (NewProducer NewString send (opts ++ [WithIDGenerator gen])%list) = gen.
Proof.
  unfold NewProducer; cbn [idGenerator].
  now rewrite fold_left_app.
Qed.

Lemma produceEach_draws (p : Producer T M S R) inputs : forall (r : R) (s : S),
  fst (snd (produceEach zero p inputs (r, s))) =
  snd (draw (idGenerator p) (List.length inputs) r).
Proof.
  induction inputs as [|params rest IH]; intros r s; [reflexivity|].
  cbn [produceEach draw List.length]; unfold Produce.
  destruct (idGenerator p r) as [id r'].
  destruct (client p _ s) as [[out|err] s'].
  - specialize (IH r' s').
    destruct (produceEach zero p rest (r', s')) as [ress w''].
    destruct (draw (idGenerator p) (List.length rest) r') as [ids r'']; exact IH.
  - specialize (IH r' s').
    destruct (produceEach zero p rest (r', s')) as [ress w''].
    destruct (draw (idGenerator p) (List.length rest) r') as [ids r'']; exact IH.
Qed.

(** What the client is assumed to do with a new ID: it accepts it, and
    afterwards holds it besides the IDs it held. *)
Hypothesis fresh_is_accepted :
  forall input s,
    SendMessageInput.ID input <> EmptyString ->
    ~ holds (SendMessageInput.ID input) s ->
    exists out s',
      send input s = (Ok out, s') /\
      forall id, holds id s' <-> id = SendMessageInput.ID input \/ holds id s.

(** X22.  A producer built with [WithIDGenerator gen] as its last option
    draws exactly one ID from [gen] for each call of [Produce], whatever the
    client answers, and returns one result per call.  When the IDs drawn are
    distinct, not empty and not held by the client, and the client accepts
    new IDs, every call delivers its message and the client afterwards holds
    the IDs drawn besides the ones it held. *)
Theorem Produce_draws_one_ID_per_call (NewString gen : Generator R) opts inputs
    (r : R) (s : S) :
  let p := NewProducer NewString send (opts ++ [WithIDGenerator gen])%list in
  let n := List.length inputs in
  let run := produceEach zero p inputs (r, s) in
  fst (snd run) = snd (draw gen n r) /\
  List.length (fst run) = n /\
  (NoDup (fst (draw gen n r)) ->
   Forall (fun id => id <> EmptyString /\ ~ holds id s) (fst (draw gen n r)) ->
   Forall (fun res => delivered res = true) (fst run) /\
   forall id, holds id (snd (snd run)) <-> In id (fst (draw gen n r)) \/ holds id s).
Proof.
  intros p n run.
  assert (Hgen : idGenerator p = gen) by apply NewProducer_last_option_wins.
  assert (Hcl : client p = send) by reflexivity.
  split; [unfold run, n; now rewrite produceEach_draws, Hgen|].
  unfold run, n; clear run n.
  generalize dependent p; intros p Hgen Hcl.
  split.
  - revert r s; induction inputs as [|params rest IH]; intros r s; [reflexivity|].
    cbn [produceEach List.length]; unfold Produce.
    destruct (idGenerator p r) as [id r'].
    destruct (client p _ s) as [[out|err] s']; specialize (IH r' s');
      destruct (produceEach zero p rest (r', s')) as [ress w''];
      cbn [fst List.length] in *; now rewrite IH.
  - revert r s; induction inputs as [|params rest IH]; intros r s ND HF.
    + cbn [produceEach draw List.length fst snd In]; split; [constructor|].
      intros id; split; [now right | now intros [[]|Hh]].
    + cbn [produceEach draw List.length] in *; unfold Produce.
      rewrite Hgen, Hcl in *.
      destruct (gen r) as [id r'] eqn:Eg.
      specialize (IH r').
      destruct (draw gen (List.length rest) r') as [ids r''] eqn:Ed.
      cbn [fst snd] in *.
      inversion ND as [|x l Hn ND']; subst.
      inversion HF as [|x l [Hne Hnh] HF']; subst.
      destruct (fresh_is_accepted
                  (SendMessageInput.mk id
                     (ProduceInput.Data
                        match params with
                        | Some params => params
                        | None => ProduceInput.mk zero 0
                        end)
                     (ProduceInput.DelaySeconds
                        match params with
                        | Some params => params
                        | None => ProduceInput.mk zero 0
                        end)) s Hne Hnh) as [out [s' [E Hh]]].
      rewrite E; cbn [SendMessageInput.ID] in Hh.
      specialize (IH s' ND').
      destruct (produceEach zero p rest (r', s')) as [ress w'']; cbn [fst snd] in *.
      destruct IH as [IH1 IH2].
      { apply Forall_forall; intros x Hx; rewrite Forall_forall in HF'.
        destruct (HF' x Hx) as [Hx1 Hx2]; split; [assumption|].
        rewrite Hh; intros [->|Hc]; [contradiction | contradiction]. }
      split; [constructor; [reflexivity | exact IH1]|].
      intros x; rewrite IH2, Hh; cbn [In]; intuition.
Qed.

End FreshIDs.

(** ** The assumptions hold of a client that sends with [MQ.SendMessage] *)

Lemma mqClient_accepted_is_held c input st out st' :
  mqClient c input st = (Ok out, st') ->
  mqHolds (SendMessageInput.ID input) st'.
Proof.
  unfold mqClient, mqHolds; destruct st as [T log]; intros E.
  destruct (String.eqb_spec (SendMessageInput.ID input) EmptyString) as [He|NE].
  - unfold MQ.SendMessage in E; rewrite He in E; discriminate.
  - split; [assumption|].
    destruct (lookupItem (SendMessageInput.ID input) T) as [existing|] eqn:HL.
    + rewrite (MQFacts.SendMessage_duplicate c _ _ _ T log existing NE HL) in E.
      discriminate.
    + rewrite (MQFacts.SendMessage_fresh c _ _ _ T log NE HL) in E.
      injection E as _ <-; cbn [items].
      match goal with
      | |- lookupItem _ (_ ++ [?m])%list <> None =>
          pose proof (MQFacts.lookupItem_snoc_same T m HL) as Hs
      end.
      cbn [MQ.Message.ID MQ.NewMessage] in Hs; rewrite Hs; discriminate.
Qed.

Lemma mqClient_held_is_rejected c input st :
  mqHolds (SendMessageInput.ID input) st ->
  exists st', mqClient c input st = (Err IDDuplicatedError, st') /\
              mqHolds (SendMessageInput.ID input) st'.
Proof.
  unfold mqClient, mqHolds; destruct st as [T log]; cbn [items]; intros [NE HL].
  destruct (lookupItem (SendMessageInput.ID input) T) as [existing|] eqn:E;
    [|contradiction].
  rewrite (MQFacts.SendMessage_duplicate c _ _ _ T log existing NE E).
  eexists; split; [reflexivity|]; cbn [items]; split; [assumption|].
  rewrite E; discriminate.
Qed.

Lemma mqClient_fresh_is_accepted c input st :
  SendMessageInput.ID input <> EmptyString ->
  ~ mqHolds (SendMessageInput.ID input) st ->
  exists out st',
    mqClient c input st = (Ok out, st') /\
    forall id, mqHolds id st' <-> id = SendMessageInput.ID input \/ mqHolds id st.
Proof.
  unfold mqClient, mqHolds; destruct st as [T log]; cbn [items]; intros NE HN.
  destruct (lookupItem (SendMessageInput.ID input) T) as [existing|] eqn:HL.
  - exfalso; apply HN; split; [assumption | discriminate].
  - rewrite (MQFacts.SendMessage_fresh c _ _ _ T log NE HL).
    do 2 eexists; split; [reflexivity|]; cbn [items].
    intros id; rewrite DynamoMore.lookupItem_app.
    destruct (lookupItem id T) as [x|] eqn:Hx.
    + split.
      * intros [Hne _]; right; split; [assumption | discriminate].
      * intros [->|[Hne _]]; split; try assumption; discriminate.
    + unfold lookupItem;
        cbn [find itemKey MQ.MessageSchema MQ.NewMessage MQ.Message.ID].
      destruct (String.eqb_spec (SendMessageInput.ID input) id) as [Ei|Ei].
      * subst id; split; [auto | intros _; split; [assumption | discriminate]].
      * split; [intros [_ Hc]; now contradiction Hc|].
        intros [->|[_ Hc]]; [now contradiction Ei | now contradiction Hc].
Qed.

(** ** The two producers over [MQ.SendMessage] *)

(** Three calls of the earlier producer on an empty table: the first
    delivers its message under the one ID, the other two are rejected. *)
Lemma Part001_producer_delivers_at_most_one_message_witness :
  let c := MQ.fifoTestClient MQ.testDate in
  let empty := {| items := @nil MQ.Message.t; calls := [] |} in
  let inputs := [Some (Part001.ProduceInput.mk "first"); None;
                 Some (Part001.ProduceInput.mk "third")] in
  let p := fst (Part001.NewProducer countingGenerator (mqClient c) 0%nat) in
  let r1 := snd (Part001.NewProducer countingGenerator (mqClient c) 0%nat) in
  let results := fst (Part001.produceEach EmptyString p inputs (r1, empty)) in
  ((forall r, fst (Part001.uuidGenerator p r) = "|") /\
   (List.length (filter delivered results) <= 1)%nat /\
   (forall pre out post,
      results = (pre ++ (out, None) :: post)%list ->
      post = repeat duplicate (List.length post))) /\
  results =
    [(ProduceOutput.mk (Some (MQ.NewMessage "|" "first" MQ.testDate 0)), None);
     duplicate; duplicate].
Proof.
  intros c empty inputs p r1 results; split; [|reflexivity].
  exact (Part001_producer_delivers_at_most_one_message
           EmptyString (mqClient c) mqHolds
           (mqClient_accepted_is_held c) (mqClient_held_is_rejected c)
           countingGenerator 0%nat inputs empty).
Defined.

(** Three calls of the producer of producer.go, built with the counting
    generator over a default that repeats itself, on an empty table: all
    three messages are delivered, under the three IDs drawn. *)
Lemma Produce_draws_one_ID_per_call_witness :
  let c := MQ.fifoTestClient MQ.testDate in
  let empty := {| items := @nil MQ.Message.t; calls := [] |} in
  let inputs := [Some (ProduceInput.mk "a" 0); None; Some (ProduceInput.mk "c" 10)] in
  let p := NewProducer (fun r : nat => ("default", r)) (mqClient c)
             [WithIDGenerator countingGenerator] in
  let run := produceEach EmptyString p inputs (0%nat, empty) in
  (fst (snd run) = 3%nat /\ List.length (fst run) = 3%nat) /\
  Forall (fun res => delivered res = true) (fst run) /\
  (forall id, mqHolds id (snd (snd run)) <->
              In id ["|"; "||"; "|||"] \/ mqHolds id empty).
Proof.
  intros c empty inputs p run.
  pose (thm := Produce_draws_one_ID_per_call
                 EmptyString (mqClient c) mqHolds (mqClient_fresh_is_accepted c)
                 (fun r : nat => ("default", r)) countingGenerator [] inputs
                 0%nat empty).
  split; [split; [exact (proj1 thm) | exact (proj1 (proj2 thm))]|].
  apply (proj2 (proj2 thm)).
  - repeat constructor; simpl; intuition discriminate.
  - repeat constructor; try discriminate; intros [_ Hc]; now apply Hc.
Defined.

End ProducerFacts.
